(** * fast_api_logger: a shallow embedding of the structured-logging core

    The development follows the Python package [fast_api_logger]
    (modules [context], [formatters], [handlers], [logger], [config])
    and the webhook service in [main] that logs through it.
    Python dictionaries keep insertion order and the code iterates over
    them, so they are association lists with unique keys; the logger
    registry of the [logging] module, which is only looked up by name, is
    a [gmap]. *)

From Stdlib Require Import String Ascii List ZArith Bool Lia.
From Stdlib Require Import DecimalString DecimalZ Sorted.
From stdpp Require Import base option list gmap strings.
Import ListNotations.
Open Scope string_scope.
Open Scope Z_scope.
Open Scope list_scope.

(** ** Python values *)

(** An object that is none of the types modelled below: it is not
    JSON-encodable, and its [__str__] and [__repr__] either return a
    string or raise an exception ([None]) of a class other than
    [RecursionError]. *)
Record pyobj := PyObj {
  obj_str : option string;
  obj_repr : option string
}.

(** A [float], by what [repr] writes for it: [nan], [inf], [-inf], or
    for a finite float a sign, an integer part and then a fraction
    ([0.5]), an exponent ([1e+16]) or both ([2.5e-07]).  Every float has
    such a form; the logging code only renders floats, it does not
    compute with them. *)
Inductive float_form :=
| Fixed (frac : Decimal.uint)
| Scientific (frac : option Decimal.uint) (exp : Z).

Inductive pyfloat :=
| Fnan
| Finf (negative : bool)
| Ffinite (negative : bool) (int_part : N) (form : float_form).

(** The values that travel in ambient context and extra fields.  Strings
    are byte strings (UTF-8), so a [str] with a lone surrogate, which
    UTF-8 cannot encode, is not among them.  Values are finite trees that
    [repr], [str] and [json.dumps] walk within the recursion limit of the
    interpreter. *)
#[warnings="-register-all"]
Inductive value :=
| VNone
| VBool (b : bool)
| VInt (z : Z)
| VStr (s : string)
| VList (l : list value)
| VDict (d : list (string * value))
| VObj (o : pyobj)
| VFloat (f : pyfloat).

(** ** Python dictionaries with string keys *)

Definition dict (V : Type) := list (string * V).

Section Dict.
Context {V : Type}.

(** [d.get(k)] *)
Fixpoint dict_get (d : dict V) (k : string) : option V :=
  match d with
  | [] => None
  | (k', v) :: d' => if String.eqb k' k then Some v else dict_get d' k
  end.

(** [k in d] *)
Definition dict_has (d : dict V) (k : string) : bool :=
  match dict_get d k with Some _ => true | None => false end.

(** [d[k] = v]: an existing key keeps its position. *)
Fixpoint dict_set (d : dict V) (k : string) (v : V) : dict V :=
  match d with
  | [] => [(k, v)]
  | (k', v') :: d' =>
      if String.eqb k' k then (k', v) :: d' else (k', v') :: dict_set d' k v
  end.

(** [d.setdefault(k, v)] *)
Definition dict_setdefault (d : dict V) (k : string) (v : V) : dict V :=
  if dict_has d k then d else dict_set d k v.

(** [d.pop(k, None)] *)
Fixpoint dict_pop (d : dict V) (k : string) : dict V :=
  match d with
  | [] => []
  | (k', v') :: d' =>
      if String.eqb k' k then d' else (k', v') :: dict_pop d' k
  end.

(** [d.keys()] *)
Definition dict_keys (d : dict V) : list string := d.*1.

(** [for k, v in items: d[k] = v] *)
Definition dict_update (d : dict V) (items : list (string * V)) : dict V :=
  fold_left (fun acc kv => dict_set acc (fst kv) (snd kv)) items d.

(** A mapping has no duplicate key. *)
Definition dict_wf (d : dict V) : Prop := NoDup (dict_keys d).

(** The binding that a sequence of writes leaves for [k]: the last one. *)
Fixpoint last_write (items : list (string * V)) (k : string) : option V :=
  match items with
  | [] => None
  | (k', v) :: rest =>
      match last_write rest k with
      | Some w => Some w
      | None => if String.eqb k' k then Some v else None
      end
  end.
End Dict.

(** ** Reserved names *)

(** The attribute names of a freshly constructed [logging.LogRecord]
    (CPython 3.12), in the order its constructor assigns them. *)
Definition LogRecord_dict_keys : list string :=
  [ "name"; "msg"; "args"; "levelname"; "levelno"; "pathname"; "filename";
    "module"; "exc_info"; "exc_text"; "stack_info"; "lineno"; "funcName";
    "created"; "msecs"; "relativeCreated"; "thread"; "threadName";
    "processName"; "process"; "taskName" ].

Definition str_in (k : string) (l : list string) : bool :=
  existsb (String.eqb k) l.
Global Arguments str_in : simpl never.

(** logger.py: [_STANDARD_KEYS] *)
Definition _STANDARD_KEYS : list string :=
  LogRecord_dict_keys ++ ["message"; "asctime"; "exc_info"; "stack_info"].

(** formatters.py: [_standard_logrecord_keys()] *)
Definition _standard_logrecord_keys : list string := LogRecord_dict_keys.

(** ** logger.py: SafeLogger._sanitize_extra *)

Definition sanitize_step (sanitized : dict value) (kv : string * value)
  : dict value :=
  let '(k, v) := kv in
  if str_in k _STANDARD_KEYS
  then dict_set sanitized (k +:+ "_extra") v
  else dict_set sanitized k v.

Definition _sanitize_extra (sanitize_extra_enabled : bool)
    (extra : option (dict value)) : option (dict value) :=
  match extra with
  | None => None
  | Some [] => None
  | Some d =>
      if negb sanitize_extra_enabled then Some d
      else Some (fold_left sanitize_step d [])
  end.

(** Closes [dict_wf d] for a concrete mapping [d]. *)
Ltac solve_dict_wf :=
  unfold dict_wf; apply (bool_decide_unpack _); vm_compute; exact I.

(** The name an extra key has after sanitization. *)
Definition sanitized_key (k : string) : string :=
  if str_in k _STANDARD_KEYS then k +:+ "_extra" else k.

(** The writes that the loop of [_sanitize_extra] performs. *)
Definition sanitize_writes (d : dict value) : list (string * value) :=
  map (fun kv => (sanitized_key (fst kv), snd kv)) d.

(** ** context.py: the context variables of one logical flow *)

(** The two [ContextVar]s as one flow sees them: [_log_context] (default
    [None]) and [_streaming] (default [False]). *)
Record FlowContext := {
  _log_context : option (dict value);
  _streaming : bool
}.

Definition default_context : FlowContext :=
  {| _log_context := None; _streaming := false |}.

(** [get_context()]: [dict(ctx) if ctx else {}] *)
Definition get_context (c : FlowContext) : dict value :=
  match _log_context c with
  | Some (kv :: d) => kv :: d
  | Some [] | None => []
  end.

Definition is_None (v : value) : bool :=
  match v with VNone => true | _ => false end.

Definition set_context_step (ctx : dict value) (kv : string * value)
  : dict value :=
  let '(k, v) := kv in
  if is_None v then ctx else dict_set ctx k v.

(** [set_context]: the keyword arguments arrive as the mapping [kwargs]. *)
Definition set_context (kwargs : dict value) (c : FlowContext) : FlowContext :=
  let ctx := fold_left set_context_step kwargs (get_context c) in
  {| _log_context := Some ctx; _streaming := _streaming c |}.

(** [set_context_dict(data)] *)
Definition set_context_dict (data : dict value) (c : FlowContext) : FlowContext :=
  {| _log_context := Some (match data with [] => [] | _ => data end);
     _streaming := _streaming c |}.

(** [remove_context]: the positional arguments arrive as the list [keys]. *)
Definition remove_context (keys : list string) (c : FlowContext) : FlowContext :=
  match keys with
  | [] => c
  | _ => {| _log_context := Some (fold_left dict_pop keys (get_context c));
            _streaming := _streaming c |}
  end.

(** [clear_context()] *)
Definition clear_context (c : FlowContext) : FlowContext :=
  {| _log_context := Some []; _streaming := _streaming c |}.

(** [set_request_id(request_id)] *)
Definition set_request_id (request_id : option string) (c : FlowContext)
  : FlowContext :=
  match request_id with
  | None => remove_context ["request_id"] c
  | Some r => set_context [("request_id", VStr r)] c
  end.

(** [get_request_id()] *)
Definition get_request_id (c : FlowContext) : option value :=
  dict_get (get_context c) "request_id".

(** [set_streaming(is_streaming)] *)
Definition set_streaming (b : bool) (c : FlowContext) : FlowContext :=
  {| _log_context := _log_context c; _streaming := b |}.

(** [is_streaming()] *)
Definition is_streaming (c : FlowContext) : bool := _streaming c.

(** The items that the loop of [set_context] writes. *)
Definition not_None_items (kwargs : dict value) : list (string * value) :=
  List.filter (fun kv => negb (is_None (snd kv))) kwargs.

(** ** Rendering Python values *)

Definition chr (n : nat) : ascii := ascii_of_nat n.
Definition dquote : ascii := chr 34.
Definition squote : ascii := chr 39.
Definition backslash : ascii := chr 92.
Definition newline : ascii := chr 10.
Definition str1 (c : ascii) : string := String c EmptyString.

(** [str(z)] for an [int] *)
Definition Z_to_string (z : Z) : string := NilEmpty.string_of_int (Z.to_int z).

Definition hex_digit (n : nat) : ascii :=
  match n with
  | 0 => "0" | 1 => "1" | 2 => "2" | 3 => "3" | 4 => "4" | 5 => "5"
  | 6 => "6" | 7 => "7" | 8 => "8" | 9 => "9" | 10 => "a" | 11 => "b"
  | 12 => "c" | 13 => "d" | 14 => "e" | _ => "f"
  end%nat%char.

Definition hex2 (c : ascii) : string :=
  let n := nat_of_ascii c in
  String (hex_digit (n / 16)) (String (hex_digit (n mod 16)) EmptyString).

Definition is_control (c : ascii) : bool := (nat_of_ascii c <? 32)%nat.

Fixpoint str_has (c : ascii) (s : string) : bool :=
  match s with
  | EmptyString => false
  | String c' s' => Ascii.eqb c c' || str_has c s'
  end.

(** One character of [repr(s)] inside the quote [q]. *)
Definition repr_char (q c : ascii) : string :=
  if Ascii.eqb c q || Ascii.eqb c backslash then String backslash (str1 c)
  else if Ascii.eqb c (chr 9) then "\t"
  else if Ascii.eqb c newline then "\n"
  else if Ascii.eqb c (chr 13) then "\r"
  else if is_control c || Ascii.eqb c (chr 127) then "\x" +:+ hex2 c
  else str1 c.

Fixpoint str_flat_map (f : ascii -> string) (s : string) : string :=
  match s with
  | EmptyString => EmptyString
  | String c s' => f c +:+ str_flat_map f s'
  end.

(** [repr(s)] for a [str]: double quotes only when the text has a single
    quote and no double quote. *)
Definition py_repr_str (s : string) : string :=
  let q := if str_has squote s && negb (str_has dquote s) then dquote else squote in
  String q (str_flat_map (repr_char q) s +:+ str1 q).

(** Runs a fallible rendering over a list, failing as soon as one fails. *)
Fixpoint opt_all {A} (l : list (option A)) : option (list A) :=
  match l with
  | [] => Some []
  | None :: _ => None
  | Some x :: l' =>
      match opt_all l' with Some xs => Some (x :: xs) | None => None end
  end.

(** The digits after the point, at least one. *)
Definition frac_digits (frac : Decimal.uint) : Decimal.uint :=
  match frac with
  | Decimal.Nil => Decimal.D0 Decimal.Nil
  | _ => frac
  end.

(** The digits of the exponent, at least two. *)
Definition exp_digits (exp : Z) : Decimal.uint :=
  if Z.abs exp <? 10 then Decimal.D0 (N.to_uint (Z.abs_N exp))
  else N.to_uint (Z.abs_N exp).

Definition frac_text (frac : Decimal.uint) : string :=
  "." +:+ NilEmpty.string_of_uint (frac_digits frac).

Definition exp_text (exp : Z) : string :=
  "e" +:+ (if exp <? 0 then "-" else "+")
  +:+ NilEmpty.string_of_uint (exp_digits exp).

Definition form_text (form : float_form) : string :=
  match form with
  | Fixed frac => frac_text frac
  | Scientific frac exp =>
      match frac with Some d => frac_text d | None => "" end +:+ exp_text exp
  end.

(** [float.__repr__] *)
Definition float_repr (f : pyfloat) : string :=
  match f with
  | Fnan => "nan"
  | Finf false => "inf"
  | Finf true => "-inf"
  | Ffinite negative int_part form =>
      (if negative then "-" else "")
      +:+ NilEmpty.string_of_uint (N.to_uint int_part) +:+ form_text form
  end.


(** [repr(v)]; [None] when a [__repr__] raises. *)
Fixpoint py_repr (v : value) : option string :=
  match v with
  | VNone => Some "None"
  | VBool true => Some "True"
  | VBool false => Some "False"
  | VInt z => Some (Z_to_string z)
  | VStr s => Some (py_repr_str s)
  | VList l =>
      match opt_all (map py_repr l) with
      | Some items => Some ("[" +:+ String.concat ", " items +:+ "]")
      | None => None
      end
  | VDict d =>
      match opt_all (map (fun kv =>
               match py_repr (snd kv) with
               | Some r => Some (py_repr_str (fst kv) +:+ ": " +:+ r)
               | None => None
               end) d) with
      | Some items => Some ("{" +:+ String.concat ", " items +:+ "}")
      | None => None
      end
  | VObj o => obj_repr o
  | VFloat f => Some (float_repr f)
  end.

(** [str(v)], which is also what an f-string field renders; [None] when
    [__str__] (or, inside a container, [__repr__]) raises. *)
Definition py_str (v : value) : option string :=
  match v with
  | VStr s => Some s
  | VObj o => obj_str o
  | _ => py_repr v
  end.

(** ** json.dumps(obj, ensure_ascii=False) *)

(** The encoder's replacement for one character of a string. *)
Definition json_escape_char (c : ascii) : string :=
  if Ascii.eqb c dquote then String backslash (str1 dquote)
  else if Ascii.eqb c backslash then String backslash (str1 backslash)
  else if Ascii.eqb c newline then "\n"
  else if Ascii.eqb c (chr 13) then "\r"
  else if Ascii.eqb c (chr 9) then "\t"
  else if Ascii.eqb c (chr 8) then "\b"
  else if Ascii.eqb c (chr 12) then "\f"
  else if is_control c then "\u00" +:+ hex2 c
  else str1 c.

Definition json_quote (s : string) : string :=
  String dquote (str_flat_map json_escape_char s +:+ str1 dquote).

(** The encoder's text for a float, with [allow_nan] on as it is by
    default: [float.__repr__], but for the three floats that are not
    numbers a name of their own. *)
Definition floatstr (f : pyfloat) : string :=
  match f with
  | Fnan => "NaN"
  | Finf false => "Infinity"
  | Finf true => "-Infinity"
  | _ => float_repr f
  end.

(** [None] stands for the [TypeError] of a value that is not encodable. *)
Fixpoint json_dumps (v : value) : option string :=
  match v with
  | VNone => Some "null"
  | VBool true => Some "true"
  | VBool false => Some "false"
  | VInt z => Some (Z_to_string z)
  | VStr s => Some (json_quote s)
  | VList l =>
      match opt_all (map json_dumps l) with
      | Some items => Some ("[" +:+ String.concat ", " items +:+ "]")
      | None => None
      end
  | VDict d =>
      match opt_all (map (fun kv =>
               match json_dumps (snd kv) with
               | Some j => Some (json_quote (fst kv) +:+ ": " +:+ j)
               | None => None
               end) d) with
      | Some items => Some ("{" +:+ String.concat ", " items +:+ "}")
      | None => None
      end
  | VObj _ => None
  | VFloat f => Some (floatstr f)
  end.

(** ** formatters.py: _safe_json_value *)

Definition _safe_json_value (obj : value) : value :=
  match json_dumps obj with
  | Some _ => obj
  | None =>
      match py_str obj with
      | Some s => VStr s
      | None => VStr "<not serializable>"
      end
  end.

(** ** The [logging] standard library, as far as the package relies on it *)

(** [logging._nameToLevel] *)
Definition _nameToLevel : dict Z :=
  [ ("CRITICAL", 50); ("FATAL", 50); ("ERROR", 40); ("WARN", 30);
    ("WARNING", 30); ("INFO", 20); ("DEBUG", 10); ("NOTSET", 0) ].

(** [logging._checkLevel] on a level name; [None] is its [ValueError]. *)
Definition _checkLevel (level : string) : option Z := dict_get _nameToLevel level.

(** [logging.getLevelName] on a level number *)
Definition getLevelName (level : Z) : string :=
  if level =? 50 then "CRITICAL"
  else if level =? 40 then "ERROR"
  else if level =? 30 then "WARNING"
  else if level =? 20 then "INFO"
  else if level =? 10 then "DEBUG"
  else if level =? 0 then "NOTSET"
  else "Level " +:+ Z_to_string level.

(** A [LogRecord].  The attributes that the package reads are fields;
    [rec_exc_info] stands for the exception triple through the text that
    [traceback] renders for it.  [rec_dynamic] holds the entries that
    [__dict__] gains after construction, in order: the extra fields, then
    [message] and [asctime] once a formatter has set them. *)
Record LogRecord := {
  rec_name : string;
  rec_msg : string;
  rec_levelname : string;
  rec_levelno : Z;
  rec_module : string;
  rec_funcName : string;
  rec_lineno : Z;
  rec_created : Z;
  rec_exc_info : option string;
  rec_exc_text : option string;
  rec_dynamic : dict value
}.

Definition with_dynamic (r : LogRecord) (d : dict value) : LogRecord :=
  {| rec_name := rec_name r; rec_msg := rec_msg r;
     rec_levelname := rec_levelname r; rec_levelno := rec_levelno r;
     rec_module := rec_module r; rec_funcName := rec_funcName r;
     rec_lineno := rec_lineno r; rec_created := rec_created r;
     rec_exc_info := rec_exc_info r; rec_exc_text := rec_exc_text r;
     rec_dynamic := d |}.

Definition with_exc_text (r : LogRecord) (t : option string) : LogRecord :=
  {| rec_name := rec_name r; rec_msg := rec_msg r;
     rec_levelname := rec_levelname r; rec_levelno := rec_levelno r;
     rec_module := rec_module r; rec_funcName := rec_funcName r;
     rec_lineno := rec_lineno r; rec_created := rec_created r;
     rec_exc_info := rec_exc_info r; rec_exc_text := t;
     rec_dynamic := rec_dynamic r |}.

(** [record.__dict__.keys()] *)
Definition record_dict_keys (r : LogRecord) : list string :=
  LogRecord_dict_keys ++ dict_keys (rec_dynamic r).

(** [key in record.__dict__] *)
Definition record_has (r : LogRecord) (key : string) : bool :=
  str_in key LogRecord_dict_keys || dict_has (rec_dynamic r) key.

Definition opt_str (o : option string) : value :=
  match o with Some s => VStr s | None => VNone end.

(** [record.__dict__[k]].  The attributes that the package never reads
    ([args], [pathname], [thread], ...) have no value in the model. *)
Definition record_attr (r : LogRecord) (k : string) : option value :=
  if String.eqb k "name" then Some (VStr (rec_name r))
  else if String.eqb k "msg" then Some (VStr (rec_msg r))
  else if String.eqb k "levelname" then Some (VStr (rec_levelname r))
  else if String.eqb k "levelno" then Some (VInt (rec_levelno r))
  else if String.eqb k "module" then Some (VStr (rec_module r))
  else if String.eqb k "funcName" then Some (VStr (rec_funcName r))
  else if String.eqb k "lineno" then Some (VInt (rec_lineno r))
  else if String.eqb k "exc_text" then Some (opt_str (rec_exc_text r))
  else if str_in k LogRecord_dict_keys then None
  else dict_get (rec_dynamic r) k.

(** [record.k = v] for a name that is not a constructor attribute *)
Definition set_dynamic (r : LogRecord) (k : string) (v : value) : LogRecord :=
  with_dynamic r (dict_set (rec_dynamic r) k v).

(** [record.getMessage()], for a call without positional arguments *)
Definition getMessage (r : LogRecord) : string := rec_msg r.

(** Where and when a logging call is made: what [findCaller] and the
    clock give the record. *)
Record CallSite := {
  cs_module : string;
  cs_funcName : string;
  cs_lineno : Z;
  cs_created : Z
}.

(** The loop of [Logger.makeRecord] over [extra]; [None] is its
    [KeyError]. *)
Fixpoint makeRecord_extra (items : list (string * value)) (rv : LogRecord)
  : option LogRecord :=
  match items with
  | [] => Some rv
  | (key, v) :: rest =>
      if str_in key ["message"; "asctime"] || record_has rv key then None
      else makeRecord_extra rest (set_dynamic rv key v)
  end.

(** [Logger.makeRecord] *)
Definition makeRecord (name : string) (level : Z) (site : CallSite)
    (msg : string) (exc_info : option string) (extra : option (dict value))
  : option LogRecord :=
  let rv := {| rec_name := name; rec_msg := msg;
               rec_levelname := getLevelName level; rec_levelno := level;
               rec_module := cs_module site; rec_funcName := cs_funcName site;
               rec_lineno := cs_lineno site; rec_created := cs_created site;
               rec_exc_info := exc_info; rec_exc_text := None;
               rec_dynamic := [] |} in
  match extra with
  | None => Some rv
  | Some e => makeRecord_extra e rv
  end.

(** *** %-style formatting of a record: [fmt % record.__dict__] *)

Inductive pstate :=
| PText
| PPercent
| PName (acc : string)
| PConv (name : string).

(** The fields [%(name)s] and [%(name)d] and the escape [%%]; flags,
    widths, the other conversions and [%(name)d] of a float are outside
    the model.  [None]: a missing key, a malformed format or a value
    that does not render. *)
Fixpoint percent_go (attr : string -> option value) (st : pstate)
    (fmt : string) : option string :=
  match fmt with
  | EmptyString => match st with PText => Some EmptyString | _ => None end
  | String c rest =>
      match st with
      | PText =>
          if Ascii.eqb c "%" then percent_go attr PPercent rest
          else String c <$> percent_go attr PText rest
      | PPercent =>
          if Ascii.eqb c "%" then String c <$> percent_go attr PText rest
          else if Ascii.eqb c "(" then percent_go attr (PName EmptyString) rest
          else None
      | PName acc =>
          if Ascii.eqb c ")" then percent_go attr (PConv acc) rest
          else percent_go attr (PName (acc +:+ str1 c)) rest
      | PConv name =>
          match attr name with
          | None => None
          | Some v =>
              let field :=
                if Ascii.eqb c "s" then py_str v
                else if Ascii.eqb c "d"
                     then match v with VInt z => Some (Z_to_string z) | _ => None end
                     else None in
              match field, percent_go attr PText rest with
              | Some f, Some tl => Some (f +:+ tl)
              | _, _ => None
              end
          end
      end
  end.

Definition percent_format (fmt : string) (attr : string -> option value)
  : option string :=
  percent_go attr PText fmt.

Fixpoint str_contains (needle hay : string) : bool :=
  String.prefix needle hay ||
  match hay with
  | EmptyString => false
  | String _ rest => str_contains needle rest
  end.

(** [PercentStyle.usesTime] *)
Definition usesTime (fmt : string) : bool := str_contains "%(asctime)" fmt.

Fixpoint ends_with_newline (s : string) : bool :=
  match s with
  | EmptyString => false
  | String c EmptyString => Ascii.eqb c newline
  | String _ rest => ends_with_newline rest
  end.

Definition nonempty (o : option string) : bool :=
  match o with
  | Some (String _ _) => true
  | _ => false
  end.

(** [sorted(keys)]: strings compare by code point, which on UTF-8 text
    is the order of the bytes. *)
Fixpoint insert_sorted (k : string) (l : list string) : list string :=
  match l with
  | [] => [k]
  | x :: l' => if String.leb k x then k :: l else x :: insert_sorted k l'
  end.

Definition sorted (l : list string) : list string :=
  fold_right insert_sorted [] l.

Section Formatters.
(** [Formatter.formatTime(record, datefmt)], a function of the record's
    creation time and the date format; the local clock and [strftime]
    stay abstract. *)
Variable formatTime : Z -> string -> string.

(** [Formatter.formatException]: the text of the exception. *)
Definition formatException (ei : string) : string := ei.

(** [logging.Formatter.format]: sets [message], [asctime] and [exc_text]
    on the record, which the later handlers see; the text is [None] when
    the format string cannot be filled in. *)
Definition Formatter_format (fmt datefmt : string) (record : LogRecord)
  : option string * LogRecord :=
  let r1 := set_dynamic record "message" (VStr (getMessage record)) in
  let r2 := if usesTime fmt
            then set_dynamic r1 "asctime" (VStr (formatTime (rec_created r1) datefmt))
            else r1 in
  match percent_format fmt (record_attr r2) with
  | None => (None, r2)
  | Some s =>
      let r3 := match rec_exc_info r2 with
                | Some ei =>
                    if nonempty (rec_exc_text r2) then r2
                    else with_exc_text r2 (Some (formatException ei))
                | None => r2
                end in
      let s' := match rec_exc_text r3 with
                | Some (String c t) =>
                    (if ends_with_newline s then s else s +:+ str1 newline)
                      +:+ String c t
                | _ => s
                end in
      (Some s', r3)
  end.

(** formatters.py, [TextFormatter.format], step 1: the comprehension over
    [record.__dict__]. *)
Definition text_record_extras (record : LogRecord) : dict value :=
  fold_left (fun extras k =>
      if negb (str_in k _standard_logrecord_keys)
         && negb (str_in k ["message"; "asctime"])
      then match record_attr record k with
           | Some v => dict_set extras k v
           | None => extras
           end
      else extras)
    (record_dict_keys record) [].

(** Step 2: [extras.setdefault(k, v)] for every item of the context. *)
Definition text_extras (ctx : dict value) (record : LogRecord) : dict value :=
  fold_left (fun extras kv => dict_setdefault extras (fst kv) (snd kv))
    ctx (text_record_extras record).

(** One [k=v] field of the tail; [None] when the value does not render. *)
Definition text_field (extras : dict value) (k : string) : option string :=
  match dict_get extras k with
  | Some v =>
      match py_str v with
      | Some s => Some (k +:+ "=" +:+ s)
      | None => None
      end
  | None => None
  end.

Definition text_tail (extras : dict value) : option string :=
  match opt_all (map (text_field extras) (sorted (dict_keys extras))) with
  | Some fields => Some (" | " +:+ String.concat " " fields)
  | None => None
  end.

(** [TextFormatter.format] *)
Definition TextFormatter_format (fmt datefmt : string) (c : FlowContext)
    (record : LogRecord) : option string * LogRecord :=
  match Formatter_format fmt datefmt record with
  | (None, r') => (None, r')
  | (Some base, r') =>
      let extras := text_extras (get_context c) r' in
      match extras with
      | [] => (Some base, r')
      | _ =>
          match text_tail extras with
          | Some tail => (Some (base +:+ tail), r')
          | None => (None, r')
          end
      end
  end.

(** formatters.py, [JsonFormatter.format]: the base fields. *)
Definition json_base (ts_key datefmt : string) (record : LogRecord)
  : dict value :=
  dict_update []
    [ (ts_key, VStr (formatTime (rec_created record) datefmt));
      ("level", VStr (rec_levelname record));
      ("logger", VStr (rec_name record));
      ("message", VStr (getMessage record));
      ("module", VStr (rec_module record));
      ("func", VStr (rec_funcName record));
      ("line", VInt (rec_lineno record)) ].

(** 1) the context, never over a key already in [data] *)
Definition json_add_context (ctx : dict value) (data : dict value)
  : dict value :=
  fold_left (fun data kv =>
      if dict_has data (fst kv) then data
      else dict_set data (fst kv) (_safe_json_value (snd kv)))
    ctx data.

(** 2) the entries of [record.__dict__] that are not standard *)
Definition json_add_record (record : LogRecord) (data : dict value)
  : dict value :=
  fold_left (fun data k =>
      if str_in k _standard_logrecord_keys || str_in k ["message"] then data
      else match record_attr record k with
           | Some v => dict_set data k (_safe_json_value v)
           | None => data
           end)
    (record_dict_keys record) data.

(** 3) the exception *)
Definition json_add_exc (record : LogRecord) (data : dict value)
  : dict value :=
  match rec_exc_info record with
  | Some ei => dict_set data "exc" (VStr (formatException ei))
  | None => data
  end.

(** The dictionary [data] that [JsonFormatter.format] serializes. *)
Definition json_data (ts_key datefmt : string) (c : FlowContext)
    (record : LogRecord) : dict value :=
  json_add_exc record
    (json_add_record record
       (json_add_context (get_context c) (json_base ts_key datefmt record))).

(** [JsonFormatter.format]; [None] would be an exception of
    [json.dumps]. *)
Definition JsonFormatter_format (ts_key datefmt : string) (c : FlowContext)
    (record : LogRecord) : option string :=
  json_dumps (VDict (json_data ts_key datefmt c record)).

End Formatters.

(** ** config.py: LogConfig *)

Record LogConfig := {
  level : string;
  logger_name : string;
  console_enabled : bool;
  console_format : string;
  text_file_enabled : bool;
  text_file_path : string;
  json_file_enabled : bool;
  json_file_path : string;
  rotation_when : string;
  rotation_interval : Z;
  rotation_backup_count : Z;
  rotation_utc : bool;
  sanitize_extra : bool;
  stream_safe : bool;
  stream_debug : bool;
  datefmt : string;
  text_fmt : string;
  json_ts_key : string
}.

(** The values [load_config()] gives in an empty environment. *)
Definition default_config : LogConfig :=
  {| level := "INFO"; logger_name := "app";
     console_enabled := true; console_format := "text";
     text_file_enabled := true; text_file_path := "logs/app.log";
     json_file_enabled := true; json_file_path := "logs/app.json.log";
     rotation_when := "midnight"; rotation_interval := 1;
     rotation_backup_count := 7; rotation_utc := false;
     sanitize_extra := true; stream_safe := true; stream_debug := false;
     datefmt := "%Y-%m-%d %H:%M:%S";
     text_fmt := "[%(asctime)s] [%(levelname)s] %(message)s";
     json_ts_key := "ts" |}.

(** ** Construction of formatters and rotating handlers *)

(** [str.upper] and [str.lower] on ASCII text; a byte of a character
    outside ASCII is left as it is. *)
Fixpoint str_map (f : ascii -> ascii) (s : string) : string :=
  match s with
  | EmptyString => EmptyString
  | String c s' => String (f c) (str_map f s')
  end.

Definition ascii_upper (s : string) : string :=
  str_map (fun c => let n := nat_of_ascii c in
                    if (97 <=? n)%nat && (n <=? 122)%nat
                    then ascii_of_nat (n - 32) else c) s.

Definition ascii_lower (s : string) : string :=
  str_map (fun c => let n := nat_of_ascii c in
                    if (65 <=? n)%nat && (n <=? 90)%nat
                    then ascii_of_nat (n + 32) else c) s.

(** The character classes of [PercentStyle.validation_pattern],
    [%\(\w+\)[#0+ -]*(\*|\d+)?(\.(\*|\d+))?[diouxefgcrsa%]] with
    [re.I], on ASCII text.  Beyond ASCII the classes [\w] and [\d] and
    the case folding follow the Unicode tables; here a byte of such a
    character belongs to no class. *)
Definition is_digit (c : ascii) : bool :=
  let n := nat_of_ascii c in (48 <=? n)%nat && (n <=? 57)%nat.

Definition is_word (c : ascii) : bool :=
  let n := nat_of_ascii c in
  ((97 <=? n)%nat && (n <=? 122)%nat) || ((65 <=? n)%nat && (n <=? 90)%nat)
  || is_digit c || Ascii.eqb c "_".

Definition is_flag (c : ascii) : bool := str_has c "#0+ -".

Definition is_conversion (c : ascii) : bool :=
  str_has c "diouxefgcrsa%DIOUXEFGCRSA".

(** What is left of [s] after the longest prefix of characters in [p] *)
Fixpoint skip_while (p : ascii -> bool) (s : string) : string :=
  match s with
  | EmptyString => EmptyString
  | String c s' => if p c then skip_while p s' else s
  end.

(** What is left after [(\*|\d+)?] *)
Definition skip_count (s : string) : string :=
  match s with
  | String c s' => if Ascii.eqb c "*" then s' else skip_while is_digit s
  | EmptyString => EmptyString
  end.

(** What is left after [(\.(\*|\d+))?] *)
Definition skip_precision (s : string) : string :=
  match s with
  | String c (String c' s') =>
      if Ascii.eqb c "." && (Ascii.eqb c' "*" || is_digit c')
      then skip_count (String c' s') else s
  | _ => s
  end.

(** The pattern matches at the start of the text.  No character that
    ends one part of the pattern can start the next, so the longest
    match of each part decides. *)
Definition validation_match (s : string) : bool :=
  match s with
  | String c1 (String c2 (String c3 s3)) =>
      if Ascii.eqb c1 "%" && Ascii.eqb c2 "(" && is_word c3 then
        match skip_while is_word s3 with
        | String c4 s4 =>
            if Ascii.eqb c4 ")" then
              match skip_precision (skip_count (skip_while is_flag s4)) with
              | String c5 _ => is_conversion c5
              | EmptyString => false
              end
            else false
        | EmptyString => false
        end
      else false
  | _ => false
  end.

(** [validation_pattern.search(s)] finds a match *)
Fixpoint validation_search (s : string) : bool :=
  validation_match s
  || match s with
     | EmptyString => false
     | String _ s' => validation_search s'
     end.

(** [PercentStyle.__init__]: [self._fmt = fmt or self.default_format] *)
Definition PercentStyle_fmt (fmt : string) : string :=
  if String.eqb fmt "" then "%(message)s" else fmt.

(** The test of [TimedRotatingFileHandler.__init__] on [when.upper()],
    for a setting in ASCII: one of [S], [M], [H], [D], [MIDNIGHT], or
    [W] and a day from 0 to 6. *)
Definition rotation_when_valid (when : string) : bool :=
  let when := ascii_upper when in
  str_in when ["S"; "M"; "H"; "D"; "MIDNIGHT"]
  || match when with
     | String w rest =>
         Ascii.eqb w "W"
         && match rest with
            | String d EmptyString =>
                negb ((nat_of_ascii d <? 48)%nat || (54 <? nat_of_ascii d)%nat)
            | _ => false
            end
     | EmptyString => false
     end.

(** ** handlers.py *)

Inductive Formatter :=
| TextFormatter (fmt datefmt : string)
| JsonFormatter (ts_key datefmt : string).

Inductive HandlerKind :=
| StreamSafeConsoleHandler (stream_safe : bool)
| TimedRotatingFileHandler (filename when : string)
    (interval backupCount : Z) (utc : bool).

Record Handler := {
  h_kind : HandlerKind;
  h_level : Z;
  h_formatter : Formatter
}.

(** What the sinks have written: the chunks sent to standard output, and
    for each log file path the chunks sent to it.  A rotation moves lines
    between the active file and its archives at a time boundary; the
    model keeps the lines of a path together and has no clock.  Standard
    error, where [Handler.handleError] and the last-resort handler
    write, is not part of it. *)
Record World := {
  stdout : list string;
  files : gmap string (list string)
}.

Definition write_stdout (chunk : string) (w : World) : World :=
  {| stdout := stdout w ++ [chunk]; files := files w |}.

Definition write_file (path chunk : string) (w : World) : World :=
  {| stdout := stdout w;
     files := <[path := default [] (files w !! path) ++ [chunk]]> (files w) |}.

(** [TextFormatter(fmt=fmt, datefmt=datefmt)]: [logging.Formatter.__init__]
    keeps [fmt or "%(message)s"] and validates it; [None] is the
    [ValueError] of a format in which the pattern finds no field. *)
Definition new_TextFormatter (fmt datefmt : string) : option Formatter :=
  let _fmt := PercentStyle_fmt fmt in
  if validation_search _fmt then Some (TextFormatter _fmt datefmt) else None.

(** [JsonFormatter(ts_key=ts_key, datefmt=datefmt)]: the format of the
    base class is the default one, which is valid. *)
Definition new_JsonFormatter (ts_key datefmt : string) : Formatter :=
  JsonFormatter ts_key datefmt.

(** [TimedRotatingFileHandler(filename, when, interval, backupCount,
    utc)]: [None] is the [ValueError] of an unknown [when].  Opening the
    file is taken to succeed. *)
Definition new_TimedRotatingFileHandler (filename when : string)
    (interval backupCount : Z) (utc : bool) : option HandlerKind :=
  if rotation_when_valid when
  then Some (TimedRotatingFileHandler filename when interval backupCount utc)
  else None.

(** [build_handlers(cfg)]; [None] when it raises [ValueError]: from the
    constructor of the text formatter, which is built whatever sinks are
    on, from the constructor of a rotating file handler, or from
    [setLevel] on an unknown level name.  Creating the directories and
    opening the files is taken to succeed. *)
Definition build_handlers (cfg : LogConfig) : option (list Handler) :=
  text_formatter ← new_TextFormatter (text_fmt cfg) (datefmt cfg);
  let json_formatter := new_JsonFormatter (json_ts_key cfg) (datefmt cfg) in
  ch ← (if console_enabled cfg then
          lvl ← _checkLevel (level cfg);
          Some [ {| h_kind := StreamSafeConsoleHandler (stream_safe cfg);
                    h_level := lvl;
                    h_formatter := if String.eqb (console_format cfg) "json"
                                   then json_formatter else text_formatter |} ]
        else Some []);
  fh ← (if text_file_enabled cfg then
          kind ← new_TimedRotatingFileHandler (text_file_path cfg)
                   (rotation_when cfg) (rotation_interval cfg)
                   (rotation_backup_count cfg) (rotation_utc cfg);
          lvl ← _checkLevel (level cfg);
          Some [ {| h_kind := kind; h_level := lvl;
                    h_formatter := text_formatter |} ]
        else Some []);
  jh ← (if json_file_enabled cfg then
          kind ← new_TimedRotatingFileHandler (json_file_path cfg)
                   (rotation_when cfg) (rotation_interval cfg)
                   (rotation_backup_count cfg) (rotation_utc cfg);
          lvl ← _checkLevel (level cfg);
          Some [ {| h_kind := kind; h_level := lvl;
                    h_formatter := json_formatter |} ]
        else Some []);
  Some (ch ++ fh ++ jh).

Section Emit.
Variable formatTime : Z -> string -> string.

(** [Handler.format]: the formatter may set attributes of the record. *)
Definition Handler_format (h : Handler) (c : FlowContext) (record : LogRecord)
  : option string * LogRecord :=
  match h_formatter h with
  | TextFormatter fmt dfmt => TextFormatter_format formatTime fmt dfmt c record
  | JsonFormatter ts_key dfmt =>
      (JsonFormatter_format formatTime ts_key dfmt c record, record)
  end.

(** [logging.StreamHandler.emit] on standard output: an exception of the
    formatter ends in [handleError] and nothing is written.  The one
    exception that [emit] hands on to the caller of the logging method,
    [RecursionError], does not come from the values of the model. *)
Definition StreamHandler_emit (h : Handler) (c : FlowContext)
    (record : LogRecord) (w : World) : LogRecord * World :=
  match Handler_format h c record with
  | (Some msg, r') => (r', write_stdout (msg +:+ str1 newline) w)
  | (None, r') => (r', w)
  end.

(** [logging.FileHandler.emit], reached through [emit] of the rotating
    handler, where every exception ends in [handleError].  Writing to
    the file and rotating it are taken to succeed. *)
Definition FileHandler_emit (path : string) (h : Handler) (c : FlowContext)
    (record : LogRecord) (w : World) : LogRecord * World :=
  match Handler_format h c record with
  | (Some msg, r') => (r', write_file path (msg +:+ str1 newline) w)
  | (None, r') => (r', w)
  end.

(** [emit] of each handler class; for the console,
    [StreamSafeConsoleHandler.emit]. *)
Definition Handler_emit (h : Handler) (c : FlowContext) (record : LogRecord)
    (w : World) : LogRecord * World :=
  match h_kind h with
  | StreamSafeConsoleHandler stream_safe =>
      if stream_safe && is_streaming c then (record, w)
      else StreamHandler_emit h c record w
  | TimedRotatingFileHandler path _ _ _ _ => FileHandler_emit path h c record w
  end.

(** [Logger.callHandlers] for a logger that does not propagate: every
    handler whose level admits the record handles it, in order, on the
    one record object. *)
Definition callHandlers (handlers : list Handler) (c : FlowContext)
    (record : LogRecord) (w : World) : LogRecord * World :=
  fold_left (fun rw h =>
      if h_level h <=? rec_levelno (fst rw)
      then Handler_emit h c (fst rw) (snd rw)
      else rw)
    handlers (record, w).

End Emit.

(** ** logger.py and the logger registry *)

(** The state of a [logging.Logger] object. *)
Record Logger := {
  lg_level : Z;
  lg_propagate : bool;
  lg_handlers : list Handler
}.

(** A logger as [logging.getLogger] first creates it. *)
Definition new_logger : Logger :=
  {| lg_level := 0; lg_propagate := true; lg_handlers := [] |}.

(** [logging.getLogger(name)]: the one logger object of that name. *)
Definition getLogger (name : string) (loggers : gmap string Logger) : Logger :=
  default new_logger (loggers !! name).

(** [Logger.addHandler]: a handler object that was just built is not yet
    in the list. *)
Definition addHandler (lg : Logger) (h : Handler) : Logger :=
  {| lg_level := lg_level lg; lg_propagate := lg_propagate lg;
     lg_handlers := lg_handlers lg ++ [h] |}.

(** The wrapper refers to its logger object, here by the logger's name. *)
Record SafeLogger := {
  _logger : string;
  _sanitize_extra_enabled : bool
}.

(** [configure_logging(cfg)] for a given [cfg]; [None] when [setLevel]
    or [build_handlers] raises. *)
Definition configure_logging (cfg : LogConfig) (loggers : gmap string Logger)
  : option (gmap string Logger * SafeLogger) :=
  let logger := getLogger (logger_name cfg) loggers in
  lvl ← _checkLevel (level cfg);
  let logger := {| lg_level := lvl; lg_propagate := false;
                   lg_handlers := lg_handlers logger |} in
  logger ← match lg_handlers logger with
           | [] => hs ← build_handlers cfg; Some (fold_left addHandler hs logger)
           | _ :: _ => Some logger
           end;
  Some (<[logger_name cfg := logger]> loggers,
        {| _logger := logger_name cfg;
           _sanitize_extra_enabled := sanitize_extra cfg |}).

(** What the ancestors of a logger contribute: the level it inherits
    while its own is [NOTSET], and the handlers a propagating logger
    reaches. *)
Record Ancestry := {
  anc_level : Z;
  anc_handlers : list Handler
}.

(** With only the root above, in its initial state. *)
Definition root_only : Ancestry := {| anc_level := 30; anc_handlers := [] |}.

Definition getEffectiveLevel (anc : Ancestry) (lg : Logger) : Z :=
  if lg_level lg =? 0 then anc_level anc else lg_level lg.

Definition isEnabledFor (anc : Ancestry) (lg : Logger) (lvl : Z) : bool :=
  getEffectiveLevel anc lg <=? lvl.

Definition handlers_reached (anc : Ancestry) (lg : Logger) : list Handler :=
  lg_handlers lg ++ (if lg_propagate lg then anc_handlers anc else []).

Section Calls.
Variable formatTime : Z -> string -> string.

(** [Logger.log] at a level: [None] is the [KeyError] that [makeRecord]
    raises to the caller. *)
Definition Logger_log (anc : Ancestry) (name : string) (lg : Logger) (lvl : Z)
    (msg : string) (exc_info : option string) (extra : option (dict value))
    (site : CallSite) (c : FlowContext) (w : World) : option World :=
  if isEnabledFor anc lg lvl then
    match makeRecord name lvl site msg exc_info extra with
    | None => None
    | Some record =>
        Some (snd (callHandlers formatTime (handlers_reached anc lg) c record w))
    end
  else Some w.

(** The body shared by the methods of [SafeLogger]. *)
Definition SafeLogger_log (sl : SafeLogger) (lvl : Z) (msg : string)
    (exc_info : option string) (extra : option (dict value))
    (anc : Ancestry) (loggers : gmap string Logger)
    (site : CallSite) (c : FlowContext) (w : World) : option World :=
  Logger_log anc (_logger sl) (getLogger (_logger sl) loggers) lvl msg exc_info
    (_sanitize_extra (_sanitize_extra_enabled sl) extra) site c w.

Definition debug (sl : SafeLogger) (msg : string) (extra : option (dict value)) :=
  SafeLogger_log sl 10 msg None extra.

Definition info (sl : SafeLogger) (msg : string) (extra : option (dict value)) :=
  SafeLogger_log sl 20 msg None extra.

Definition warning (sl : SafeLogger) (msg : string) (extra : option (dict value)) :=
  SafeLogger_log sl 30 msg None extra.

Definition error (sl : SafeLogger) (msg : string) (extra : option (dict value)) :=
  SafeLogger_log sl 40 msg None extra.

Definition critical (sl : SafeLogger) (msg : string) (extra : option (dict value)) :=
  SafeLogger_log sl 50 msg None extra.

(** [exception]: an [error] call that carries the active exception,
    given by its traceback text. *)
Definition exception (sl : SafeLogger) (msg : string) (active : string)
    (extra : option (dict value)) :=
  SafeLogger_log sl 40 msg (Some active) extra.

End Calls.

(** ** Definitions for the statements and their proofs *)

(** The loop shape shared by the two walks over [record.__dict__]: keys
    that [skip] holds of are passed over, the others are written. *)
Definition key_step (skip : string -> bool) (f : string -> option value)
    (g : value -> value) (data : dict value) (k : string) : dict value :=
  if skip k then data
  else match f k with
       | Some v => dict_set data k (g v)
       | None => data
       end.

Section ValueInd.
Variable P : value -> Prop.
Hypothesis HNone : P VNone.
Hypothesis HBool : forall b, P (VBool b).
Hypothesis HInt : forall z, P (VInt z).
Hypothesis HStr : forall s, P (VStr s).
Hypothesis HList : forall l, Forall P l -> P (VList l).
Hypothesis HDict : forall d, Forall (fun kv => P (snd kv)) d -> P (VDict d).
Hypothesis HObj : forall o, P (VObj o).
Hypothesis HFloat : forall f, P (VFloat f).

(** Induction on values, with the hypothesis for every element of a list
    and every value of a dictionary. *)
Fixpoint value_ind' (v : value) : P v :=
  match v with
  | VNone => HNone
  | VBool b => HBool b
  | VInt z => HInt z
  | VStr s => HStr s
  | VList l =>
      HList l ((fix go (l : list value) : Forall P l :=
                  match l with
                  | [] => @List.Forall_nil _ P
                  | x :: l' => @List.Forall_cons _ P x l' (value_ind' x) (go l')
                  end) l)
  | VDict d =>
      HDict d ((fix go (d : list (string * value))
                  : Forall (fun kv => P (snd kv)) d :=
                  match d with
                  | [] => @List.Forall_nil _ (fun kv => P (snd kv))
                  | kv :: d' =>
                      @List.Forall_cons _ (fun kv => P (snd kv)) kv d'
                        (value_ind' (snd kv)) (go d')
                  end) d)
  | VObj o => HObj o
  | VFloat f => HFloat f
  end.
End ValueInd.

(** The values that [json.dumps] accepts: everything built without an
    object of an unknown type. *)

Fixpoint json_encodable (v : value) : bool :=
  match v with
  | VObj _ => false
  | VList l => forallb json_encodable l
  | VDict d => forallb (fun kv => json_encodable (snd kv)) d
  | _ => true
  end.

(** Every value of a dictionary is encodable. *)
Definition all_encodable (d : dict value) : Prop :=
  Forall (fun kv => json_encodable (snd kv) = true) d.



(** A clock for the closed examples: every record gets the same time
    text. *)
Definition fixed_time : Z -> string -> string :=
  fun _ _ => "2026-01-01 00:00:00".

Definition example_site : CallSite :=
  {| cs_module := "main"; cs_funcName := "deploy"; cs_lineno := 101;
     cs_created := 0 |}.

(** The handlers that [build_handlers] makes, by sink. *)
Definition console_handler (cfg : LogConfig) (lvl : Z) : Handler :=
  {| h_kind := StreamSafeConsoleHandler (stream_safe cfg);
     h_level := lvl;
     h_formatter := if String.eqb (console_format cfg) "json"
                    then JsonFormatter (json_ts_key cfg) (datefmt cfg)
                    else TextFormatter (PercentStyle_fmt (text_fmt cfg))
                           (datefmt cfg) |}.

Definition text_file_handler (cfg : LogConfig) (lvl : Z) : Handler :=
  {| h_kind := TimedRotatingFileHandler (text_file_path cfg)
                 (rotation_when cfg) (rotation_interval cfg)
                 (rotation_backup_count cfg) (rotation_utc cfg);
     h_level := lvl;
     h_formatter := TextFormatter (PercentStyle_fmt (text_fmt cfg))
                      (datefmt cfg) |}.

Definition json_file_handler (cfg : LogConfig) (lvl : Z) : Handler :=
  {| h_kind := TimedRotatingFileHandler (json_file_path cfg)
                 (rotation_when cfg) (rotation_interval cfg)
                 (rotation_backup_count cfg) (rotation_utc cfg);
     h_level := lvl;
     h_formatter := JsonFormatter (json_ts_key cfg) (datefmt cfg) |}.

(** The settings with which [build_handlers] can construct its
    formatters and handlers: a text format that the validation accepts
    and, when a file sink is on, a known rotation unit. *)
Definition handlers_constructible (cfg : LogConfig) : bool :=
  validation_search (PercentStyle_fmt (text_fmt cfg))
  && (negb (text_file_enabled cfg || json_file_enabled cfg)
      || rotation_when_valid (rotation_when cfg)).

Definition is_console (h : Handler) : bool :=
  match h_kind h with
  | StreamSafeConsoleHandler _ => true
  | TimedRotatingFileHandler _ _ _ _ _ => false
  end.

(** Every console handler of the list has its stream-safe flag on. *)
Definition all_stream_safe (hs : list Handler) : Prop :=
  Forall (fun h => forall ss, h_kind h = StreamSafeConsoleHandler ss -> ss = true) hs.

(** The step of [callHandlers] for one handler. *)
Definition handle_step (ft : Z -> string -> string) (c : FlowContext)
    (rw : LogRecord * World) (h : Handler) : LogRecord * World :=
  if h_level h <=? rec_levelno (fst rw)
  then Handler_emit ft h c (fst rw) (snd rw)
  else rw.

Definition empty_world : World := {| stdout := []; files := ∅ |}.

Definition example_record : LogRecord :=
  {| rec_name := "app"; rec_msg := "hello"; rec_levelname := "INFO";
     rec_levelno := 20; rec_module := "main"; rec_funcName := "deploy";
     rec_lineno := 101; rec_created := 0; rec_exc_info := None;
     rec_exc_text := None; rec_dynamic := [] |}.

(** ** JSON texts *)











(** ** Logical flows and the dictionary objects they share *)

(** What a flow can do between two points where another flow may run. *)
Inductive action :=
| ASetContext (kwargs : dict value)
| ASetContextDict (data : dict value)
| ARemoveContext (keys : list string)
| AClearContext
| ASetStreaming (b : bool)
| AMutateCopy (k : string) (v : value)
| ASpawnTask
| ASpawnThread.

(** The same actions on the context variables of one flow alone. *)
Definition on_flow (a : action) (c : FlowContext) : FlowContext :=
  match a with
  | ASetContext kwargs => set_context kwargs c
  | ASetContextDict data => set_context_dict data c
  | ARemoveContext keys => remove_context keys c
  | AClearContext => clear_context c
  | ASetStreaming b => set_streaming b c
  | AMutateCopy _ _ | ASpawnTask | ASpawnThread => c
  end.

(** [contextvars] gives every logical flow (an asyncio task, a thread)
    its own [Context]: a context variable is set in the current context
    only, a new task starts from a copy of the context that creates it,
    and a new thread starts from an empty one.  A copy of a context
    shares the objects that its variables refer to, so the dictionaries
    live in a heap and [_log_context] holds an address.  The flows are
    interleaved one call of context.py at a time. *)
Module Flows.
Local Open Scope nat_scope.

Record Context := {
  cv_log_context : option nat;
  cv_streaming : bool
}.

Definition default_ctx : Context :=
  {| cv_log_context := None; cv_streaming := false |}.

Record Runtime := {
  heap : list (dict value);
  flows : list Context
}.

(** The context of flow [f]. *)
Definition current (rt : Runtime) (f : nat) : Context :=
  default default_ctx (flows rt !! f).

Definition deref (rt : Runtime) (o : option nat) : option (dict value) :=
  o ≫= fun l => heap rt !! l.

(** A new dictionary object. *)
Definition alloc (d : dict value) (rt : Runtime) : nat * Runtime :=
  (length (heap rt), {| heap := heap rt ++ [d]; flows := flows rt |}).

(** The context that [_log_context.set] gives flow [f]. *)
Definition rebind (l : nat) (ctx : Context) : Context :=
  {| cv_log_context := Some l; cv_streaming := cv_streaming ctx |}.

(** [_log_context.set(ctx)] in flow [f], for the object at [l] *)
Definition log_context_set (f l : nat) (rt : Runtime) : Runtime :=
  {| heap := heap rt; flows := alter (rebind l) f (flows rt) |}.

(** [ctx[k] = v] on the object at [l] *)
Definition setitem (l : nat) (k : string) (v : value) (rt : Runtime) : Runtime :=
  {| heap := alter (fun d => dict_set d k v) l (heap rt); flows := flows rt |}.

(** [ctx.pop(k, None)] on the object at [l] *)
Definition popitem (l : nat) (k : string) (rt : Runtime) : Runtime :=
  {| heap := alter (fun d => dict_pop d k) l (heap rt); flows := flows rt |}.

(** [get_context()]: the address of a copy, or of a new empty
    dictionary. *)
Definition get_context (f : nat) (rt : Runtime) : nat * Runtime :=
  match deref rt (cv_log_context (current rt f)) with
  | Some (kv :: d) => alloc (kv :: d) rt
  | Some [] | None => alloc [] rt
  end.

(** [set_context]: the merge mutates the copy, then the variable is set. *)
Definition set_context (kwargs : dict value) (f : nat) (rt : Runtime) : Runtime :=
  let '(l, rt1) := get_context f rt in
  let rt2 := fold_left (fun rt kv =>
                 if is_None (snd kv) then rt else setitem l (fst kv) (snd kv) rt)
               kwargs rt1 in
  log_context_set f l rt2.

Definition set_context_dict (data : dict value) (f : nat) (rt : Runtime)
  : Runtime :=
  let '(l, rt1) := alloc (match data with [] => [] | _ => data end) rt in
  log_context_set f l rt1.

Definition remove_context (keys : list string) (f : nat) (rt : Runtime)
  : Runtime :=
  match keys with
  | [] => rt
  | _ =>
      let '(l, rt1) := get_context f rt in
      let rt2 := fold_left (fun rt k => popitem l k rt) keys rt1 in
      log_context_set f l rt2
  end.

Definition clear_context (f : nat) (rt : Runtime) : Runtime :=
  let '(l, rt1) := alloc [] rt in
  log_context_set f l rt1.

Definition set_streaming (b : bool) (f : nat) (rt : Runtime) : Runtime :=
  {| heap := heap rt;
     flows := alter (fun ctx => {| cv_log_context := cv_log_context ctx;
                                   cv_streaming := b |})
                f (flows rt) |}.

Definition is_streaming (f : nat) (rt : Runtime) : bool :=
  cv_streaming (current rt f).

(** A caller writes into the dictionary that [get_context()] returned. *)
Definition mutate_copy (k : string) (v : value) (f : nat) (rt : Runtime)
  : Runtime :=
  let '(l, rt1) := get_context f rt in
  setitem l k v rt1.

(** A task created by flow [f]: it runs in a copy of the context of [f]. *)
Definition spawn_task (f : nat) (rt : Runtime) : Runtime :=
  {| heap := heap rt; flows := flows rt ++ [current rt f] |}.

(** A new thread: it starts from an empty context. *)
Definition spawn_thread (rt : Runtime) : Runtime :=
  {| heap := heap rt; flows := flows rt ++ [default_ctx] |}.

Definition step (f : nat) (a : action) (rt : Runtime) : Runtime :=
  match a with
  | ASetContext kwargs => set_context kwargs f rt
  | ASetContextDict data => set_context_dict data f rt
  | ARemoveContext keys => remove_context keys f rt
  | AClearContext => clear_context f rt
  | ASetStreaming b => set_streaming b f rt
  | AMutateCopy k v => mutate_copy k v f rt
  | ASpawnTask => spawn_task f rt
  | ASpawnThread => spawn_thread rt
  end.

(** An interleaving: which flow acts, and how, in order. *)
Definition run (trace : list (nat * action)) (rt : Runtime) : Runtime :=
  fold_left (fun rt fa => step (fst fa) (snd fa) rt) trace rt.

(** What flow [f] can observe of the ambient context: the content of
    its dictionary and its streaming flag. *)
Definition observe (rt : Runtime) (f : nat) : option FlowContext :=
  ctx ← flows rt !! f;
  Some {| _log_context := deref rt (cv_log_context ctx);
          _streaming := cv_streaming ctx |}.

(** Every address held by a context is allocated. *)
Definition wf (rt : Runtime) : Prop :=
  forall f ctx l,
    flows rt !! f = Some ctx -> cv_log_context ctx = Some l ->
    l < length (heap rt).

(** The dictionary that flow [f] reads as its context. *)
Definition stored (rt : Runtime) (f : nat) : dict value :=
  match deref rt (cv_log_context (current rt f)) with
  | Some (kv :: d) => kv :: d
  | Some [] | None => []
  end.

End Flows.

Definition example_runtime : Flows.Runtime :=
  {| Flows.heap := [[("request_id", VStr "r-1")]];
     Flows.flows := [ {| Flows.cv_log_context := Some 0%nat;
                         Flows.cv_streaming := false |} ] |}.

(** ** config.py: reading the configuration from the environment *)

Section Config.
(** [str.upper], [str.lower] and [str.strip] follow the Unicode tables,
    and [int] accepts more than plain decimal numerals ([None] is its
    [ValueError]); the code is modelled over any functions in their
    place. *)
Variable str_upper str_lower str_strip : string -> string.
Variable int_of_str : string -> option Z.

(** [_parse_bool(val, default)] *)
Definition _parse_bool (val : option string) (default : bool) : bool :=
  match val with
  | None => default
  | Some s => str_in (str_lower (str_strip s)) ["1"; "true"; "yes"; "y"; "on"]
  end.

(** [_get_env(name, default)]; the environment is [os.environ]. *)
Definition _get_env (environ : gmap string string) (name default : string)
  : string :=
  match environ !! name with
  | None | Some EmptyString => default
  | Some v => v
  end.

(** [load_config()] *)
Definition load_config (environ : gmap string string) : option LogConfig :=
  let level := str_upper (_get_env environ "LOG_LEVEL" "INFO") in
  let level :=
    if negb (str_in level ["DEBUG"; "INFO"; "WARNING"; "ERROR"; "CRITICAL"])
    then "INFO" else level in
  let console_enabled := _parse_bool (environ !! "LOG_CONSOLE") true in
  let console_format := str_lower (_get_env environ "LOG_CONSOLE_FORMAT" "text") in
  let console_format :=
    if negb (str_in console_format ["text"; "json"])
    then "text" else console_format in
  let text_file_enabled := _parse_bool (environ !! "LOG_FILE_TEXT") true in
  let text_file_path := _get_env environ "LOG_FILE_TEXT_PATH" "logs/app.log" in
  let json_file_enabled := _parse_bool (environ !! "LOG_FILE_JSON") true in
  let json_file_path :=
    _get_env environ "LOG_FILE_JSON_PATH" "logs/app.json.log" in
  let rotation_when := _get_env environ "LOG_ROTATION_WHEN" "midnight" in
  rotation_interval ← int_of_str (_get_env environ "LOG_ROTATION_INTERVAL" "1");
  rotation_backup ← int_of_str (_get_env environ "LOG_ROTATION_BACKUP" "7");
  let rotation_utc := _parse_bool (environ !! "LOG_ROTATION_UTC") false in
  let sanitize_extra := _parse_bool (environ !! "LOG_SANITIZE_EXTRA") true in
  let stream_safe := _parse_bool (environ !! "STREAM_SAFE") true in
  let stream_debug := _parse_bool (environ !! "STREAM_DEBUG") false in
  let logger_name := _get_env environ "LOG_NAME" "app" in
  let datefmt := _get_env environ "LOG_DATEFMT" "%Y-%m-%d %H:%M:%S" in
  let text_fmt :=
    _get_env environ "LOG_TEXT_FMT"
      "[%(asctime)s] [%(levelname)s] %(message)s" in
  let json_ts_key := _get_env environ "LOG_JSON_TS_KEY" "ts" in
  Some {| level := level;
          logger_name := logger_name;
          console_enabled := console_enabled;
          console_format := console_format;
          text_file_enabled := text_file_enabled;
          text_file_path := text_file_path;
          json_file_enabled := json_file_enabled;
          json_file_path := json_file_path;
          rotation_when := rotation_when;
          rotation_interval := rotation_interval;
          rotation_backup_count := rotation_backup;
          rotation_utc := rotation_utc;
          sanitize_extra := sanitize_extra;
          stream_safe := stream_safe;
          stream_debug := stream_debug;
          datefmt := datefmt;
          text_fmt := text_fmt;
          json_ts_key := json_ts_key |}.

End Config.

(** The variables that [load_config] reads through [_get_env], and those
    it reads through [_parse_bool]. *)
Definition text_settings : list string :=
  [ "LOG_LEVEL"; "LOG_CONSOLE_FORMAT"; "LOG_FILE_TEXT_PATH";
    "LOG_FILE_JSON_PATH"; "LOG_ROTATION_WHEN"; "LOG_ROTATION_INTERVAL";
    "LOG_ROTATION_BACKUP"; "LOG_NAME"; "LOG_DATEFMT"; "LOG_TEXT_FMT";
    "LOG_JSON_TS_KEY" ].

Definition bool_settings : list string :=
  [ "LOG_CONSOLE"; "LOG_FILE_TEXT"; "LOG_FILE_JSON"; "LOG_ROTATION_UTC";
    "LOG_SANITIZE_EXTRA"; "STREAM_SAFE"; "STREAM_DEBUG" ].

(** What [str.strip] and [int] do on ASCII text and on plain decimal
    numerals, for the closed examples, next to [ascii_upper] and
    [ascii_lower]. *)
Definition is_space (c : ascii) : bool :=
  let n := nat_of_ascii c in
  ((9 <=? n)%nat && (n <=? 13)%nat) || ((28 <=? n)%nat && (n <=? 32)%nat).

Fixpoint lstrip (s : string) : string :=
  match s with
  | EmptyString => EmptyString
  | String c s' => if is_space c then lstrip s' else s
  end.

Fixpoint rstrip (s : string) : string :=
  match s with
  | EmptyString => EmptyString
  | String c s' =>
      match rstrip s' with
      | EmptyString => if is_space c then EmptyString else String c EmptyString
      | r => String c r
      end
  end.

Definition ascii_strip (s : string) : string := rstrip (lstrip s).

Definition decimal_int (s : string) : option Z :=
  match NilEmpty.uint_of_string s with
  | Some Decimal.Nil | None => None
  | Some u => Some (Z.of_uint u)
  end.

(** ** main.py: the webhook signature *)

(** [s.split(sep)] for a separator of one character *)
Fixpoint split_on (sep : ascii) (s : string) : list string :=
  match s with
  | EmptyString => [EmptyString]
  | String c s' =>
      if Ascii.eqb c sep then EmptyString :: split_on sep s'
      else match split_on sep s' with
           | x :: xs => String c x :: xs
           | [] => [String c EmptyString]
           end
  end.

Fixpoint str_forall (p : ascii -> bool) (s : string) : bool :=
  match s with
  | EmptyString => true
  | String c s' => p c && str_forall p s'
  end.

(** A [str] of ASCII characters only: every byte of its UTF-8 form is
    below 128. *)
Definition isascii (s : string) : bool :=
  str_forall (fun c => (nat_of_ascii c <? 128)%nat) s.

(** [hmac.compare_digest(a, b)] on two [str]: [None] is the [TypeError]
    for a non-ASCII argument. *)
Definition compare_digest (a b : string) : option bool :=
  if isascii a && isascii b then Some (String.eqb a b) else None.

(** The characters of [hexdigest()] *)
Definition is_hex_char (c : ascii) : bool :=
  str_has c "0123456789abcdef".

Section Signature.
(** [hmac.new(key, msg=body, digestmod=hashlib.sha256).hexdigest()] *)
Variable hmac_sha256_hexdigest : string -> string -> string.
(** [os.getenv("WEBHOOK_SECRET")] when the module was loaded *)
Variable WEBHOOK_SECRET : option string.

(** [verify_signature(body, signature)]; [None] when it raises: the
    [AttributeError] of [WEBHOOK_SECRET.encode()] without a secret, or
    the [TypeError] of [compare_digest]. *)
Definition verify_signature (body : string) (signature : option string)
  : option bool :=
  match signature with
  | None | Some EmptyString => Some false
  | Some signature =>
      match split_on "=" signature with
      | [sha_name; received] =>
          if negb (String.eqb sha_name "sha256") then Some false
          else
            secret ← WEBHOOK_SECRET;
            compare_digest (hmac_sha256_hexdigest secret body) received
      | _ => Some false
      end
  end.
End Signature.

(** A stand-in for the digest in the closed examples; it has the shape
    of a hexadecimal digest, not its value. *)
Definition example_digest (key msg : string) : string :=
  if String.eqb key "s3cret" then "0a1b2c" else "ffee00".

(** ** main.py: the webhook handler *)

(** The exceptions that reach the handler, by the name of their class:
    [HTTPException] with its status code; [Error] for any other subclass
    of [Exception]; [BaseError] for a [BaseException] outside
    [Exception], such as the [asyncio.CancelledError] that an [await]
    raises when the task of the request is cancelled. *)
Inductive exn :=
| HTTPException (status_code : Z)
| Error (class : string)
| BaseError (class : string).

(** [isinstance(e, Exception)] *)
Definition is_Exception (e : exn) : bool :=
  match e with
  | HTTPException _ | Error _ => true
  | BaseError _ => false
  end.

(** What the handler does, in order: [Log] is a call of a method of
    [log] that returned, with its arguments and the context at the time
    of the call (what the call writes, if anything, is in the sinks);
    the other events are what the handler does to the outside. *)
Inductive Event :=
| Log (lvl : Z) (msg : string) (exc_info : option string)
    (extra : option (dict value)) (c : FlowContext)
| TelegramPost (text : string)
| Popen (script cwd : string)
| ThreadStart.

(** What the handler reads of a request: [request.client.host] (when
    there is a client), the headers [X-Hub-Signature-256] and
    [X-GitHub-Event], the raw body, and the result of [request.json()],
    which is an exception when the body is not JSON. *)
Record Request := {
  req_client_host : option string;
  req_signature : option string;
  req_event : option string;
  req_body : string;
  req_json : exn + value
}.

(** The state that a call of the handler threads: the context variables
    of the task that serves the request, what the log sinks hold, and
    the events so far, latest last. *)
Record St := {
  st_ctx : FlowContext;
  st_world : World;
  st_events : list Event
}.

(** A computation that returns or raises. *)
Definition M (A : Type) : Type := St -> (A + exn) * St.

Definition ret {A} (a : A) : M A := fun st => (inl a, st).

Definition raise {A} (e : exn) : M A := fun st => (inr e, st).

Definition bind {A B} (m : M A) (k : A -> M B) : M B :=
  fun st =>
    match m st with
    | (inl a, st1) => k a st1
    | (inr e, st1) => (inr e, st1)
    end.

#[global] Instance M_ret : MRet M := @ret.
#[global] Instance M_bind : MBind M := fun A B k m => bind m k.

(** A call of context.py *)
Definition in_context (f : FlowContext -> FlowContext) : M unit :=
  fun st => (inl tt, {| st_ctx := f (st_ctx st); st_world := st_world st;
                        st_events := st_events st |}).

Definition emit (ev : Event) : M unit :=
  fun st => (inl tt, {| st_ctx := st_ctx st; st_world := st_world st;
                        st_events := st_events st ++ [ev] |}).

(** [try: body / except Exception: handler / finally: final].  The
    handler runs for an [Exception] only; an exception of another kind
    goes on to the [finally] clause and then to the caller. *)
Definition try_except_finally {A} (body : M A) (handler : exn -> M A)
    (final : M unit) : M A :=
  fun st =>
    let '(r1, st1) := body st in
    let '(r2, st2) := match r1 with
                      | inl a => (inl a, st1)
                      | inr e => if is_Exception e then handler e st1
                                 else (inr e, st1)
                      end in
    match final st2 with
    | (inl _, st3) => (r2, st3)
    | (inr e, st3) => (inr e, st3)
    end.

(** [bool(v)]: a float is false when it is zero. *)
Definition truthy (v : value) : bool :=
  match v with
  | VNone => false
  | VBool b => b
  | VInt z => negb (z =? 0)
  | VStr s => negb (String.eqb s "")
  | VList l => match l with [] => false | _ => true end
  | VDict d => match d with [] => false | _ => true end
  | VObj _ => true
  | VFloat f =>
      match f with
      | Ffinite _ 0%N (Fixed frac) | Ffinite _ 0%N (Scientific (Some frac) _) =>
          match Decimal.nzhead frac with Decimal.Nil => false | _ => true end
      | Ffinite _ 0%N (Scientific None _) => false
      | _ => true
      end
  end.

(** [v == s] for a [str] [s] *)
Definition eq_str (v : value) (s : string) : bool :=
  match v with
  | VStr s' => String.eqb s' s
  | _ => false
  end.

Section Deploy.
Variable formatTime : Z -> string -> string.
(** The time of the logging call at a line of main.py *)
Variable clock : Z -> Z.
(** The text that [traceback] renders for the active exception *)
Variable traceback : exn -> string.
Variable hmac_sha256_hexdigest : string -> string -> string.
(** [str(Path(a) / b)] *)
Variable path_div : string -> string -> string.
(** [Path(p).exists()] *)
Variable path_exists : string -> bool.
(** [subprocess.Popen([script], cwd=cwd, ...)]: the exception it raises,
    if any *)
Variable popen : string -> string -> option exn.
(** [client.post(url, data=...)] for a text: the exception it raises,
    if any *)
Variable telegram_post : string -> option exn.

(** The module globals, read from the environment on import *)
Variable WEBHOOK_SECRET : option string.
Variable PROJECTS_ROOT : string.
Variable TG_TOKEN TG_CHAT_ID : option string.
(** [log], the logger of the package, and the state of [logging] *)
Variable log : SafeLogger.
Variable loggers : gmap string Logger.
Variable anc : Ancestry.

(** A call of a method of [log], made at a line of main.py.  The
    record names the place that [findCaller] finds, the first frame
    outside [logging]: the method of the wrapper in logger.py, at its
    line there.  A [KeyError] of [makeRecord] reaches the caller. *)
Definition log_call
    (method : Ancestry -> gmap string Logger -> CallSite -> FlowContext ->
              World -> option World)
    (ev : FlowContext -> Event) (wrapper : string) (wrapper_line : Z)
    (line : Z) : M unit :=
  fun st =>
    match method anc loggers
            {| cs_module := "logger"; cs_funcName := wrapper;
               cs_lineno := wrapper_line; cs_created := clock line |}
            (st_ctx st) (st_world st) with
    | Some w =>
        (inl tt, {| st_ctx := st_ctx st; st_world := w;
                    st_events := st_events st ++ [ev (st_ctx st)] |})
    | None => (inr (Error "KeyError"), st)
    end.

Definition log_info (msg : string) (extra : option (dict value)) :=
  log_call (info formatTime log msg extra) (Log 20 msg None extra) "info" 41.

Definition log_warning (msg : string) (extra : option (dict value)) :=
  log_call (warning formatTime log msg extra) (Log 30 msg None extra)
    "warning" 44.

Definition log_error (msg : string) (extra : option (dict value)) :=
  log_call (error formatTime log msg extra) (Log 40 msg None extra) "error" 47.

(** [log.exception(msg)] while [e] is being handled *)
Definition log_exception (msg : string) (e : exn) :=
  log_call (exception formatTime log msg (traceback e) None)
    (Log 40 msg (Some (traceback e)) None) "exception" 53.

Definition unset (o : option string) : bool :=
  match o with
  | None | Some EmptyString => true
  | Some _ => false
  end.

(** [send_tg(message)] *)
Definition send_tg (message : string) : M unit :=
  if unset TG_TOKEN || unset TG_CHAT_ID then
    log_warning "Telegram отключён (нет токена)" None 31
  else
    match telegram_post message with
    | Some e => raise e
    | None => emit (TelegramPost message)
    end.

(** [payload.get("ref")] and
    [payload.get("repository", {}).get("name")]: only a [dict] has
    [get]. *)
Definition payload_ref (payload : value) : M value :=
  match payload with
  | VDict d => ret (default VNone (dict_get d "ref"))
  | _ => raise (Error "AttributeError")
  end.

Definition payload_repo (payload : value) : M value :=
  match payload with
  | VDict d =>
      match dict_get d "repository" with
      | None => ret VNone
      | Some (VDict repository) => ret (default VNone (dict_get repository "name"))
      | Some _ => raise (Error "AttributeError")
      end
  | _ => raise (Error "AttributeError")
  end.

(** The body of the [try] statement of [deploy] *)
Definition deploy_try (request : Request) : M (dict value) :=
  valid ← (match verify_signature hmac_sha256_hexdigest WEBHOOK_SECRET
                       (req_body request) (req_signature request) with
               | Some b => ret b
               | None => raise (Error (match WEBHOOK_SECRET with
                                       | None => "AttributeError"
                                       | Some _ => "TypeError"
                                       end))
               end);
  if negb valid then
    log_warning "Неверная подпись webhook" None 94;;
    send_tg "❌ DeployService: неверная подпись webhook";;
    raise (HTTPException 403)
  else
    let event := req_event request in
    in_context (set_context [("github_event", opt_str event)]);;
    log_info "Получен webhook" None 102;;
    if eq_str (opt_str event) "ping" then
      log_info "Ping от GitHub" None 105;;
      ret [("status", VStr "pong")]
    else if negb (eq_str (opt_str event) "push") then
      log_info "Событие проигнорировано" None 109;;
      ret [("status", VStr "ignored")]
    else
      payload ← (match req_json request with
                     | inl e => raise e
                     | inr v => ret v
                     end);
      ref ← payload_ref payload;
      repo ← payload_repo payload;
      in_context (set_context [("repo", repo); ("ref", ref)]);;
      log_info "Webhook push обработка" None 119;;
      if negb (eq_str ref "refs/heads/main") then
        log_info "Не main ветка — деплой пропущен" None 122;;
        ret [("status", VStr "ignored")]
      else if negb (truthy repo) then
        log_error "Имя репозитория отсутствует" None 126;;
        send_tg "❌ DeployService: repo не найден";;
        raise (HTTPException 400)
      else
        match repo with
        | VStr repo_name =>
            let project_dir := path_div PROJECTS_ROOT repo_name in
            let deploy_script := path_div project_dir "deploy.sh" in
            if negb (path_exists deploy_script) then
              log_error "deploy.sh не найден"
                (Some [("deploy_path", VStr deploy_script)]) 134;;
              send_tg ("❌ <b>DEPLOY FAILED</b>" +:+ str1 newline
                       +:+ "Проект: " +:+ repo_name +:+ str1 newline
                       +:+ "deploy.sh не найден");;
              raise (HTTPException 404)
            else
              log_info "Запуск deploy.sh"
                (Some [("deploy_path", VStr deploy_script)]) 147;;
              match popen deploy_script project_dir with
              | Some e => raise e
              | None =>
                  emit (Popen deploy_script project_dir);;
                  emit ThreadStart;;
                  log_info "Deploy успешно запущен" None 173;;
                  ret [("status", VStr "deploy started"); ("repo", repo)]
              end
        | _ => raise (Error "TypeError")
        end.

(** [deploy(request)], from the point where the body of the request
    has been read.  The thread that [deploy] starts logs the output of
    the script on its own, in a context of its own; what it writes is
    not part of the result. *)
Definition deploy (request : Request) : M (dict value) :=
  in_context (set_context [("service", VStr "deploy-service");
                           ("client_ip", opt_str (req_client_host request))]);;
  try_except_finally
    (deploy_try request)
    (fun e =>
       log_exception "Ошибка обработки webhook" e 178;;
       raise e)
    (in_context clear_context).

(** The conditions under which [deploy] starts [script] in [cwd]:
    the signature is valid, the event is a push to the main branch of a
    repository with a name, and the script of that repository exists. *)
Definition start_allowed (request : Request) (script cwd : string) : Prop :=
  verify_signature hmac_sha256_hexdigest WEBHOOK_SECRET
    (req_body request) (req_signature request) = Some true
  /\ req_event request = Some "push"
  /\ exists payload repository repo_name,
       req_json request = inr (VDict payload)
       /\ dict_get payload "ref" = Some (VStr "refs/heads/main")
       /\ dict_get payload "repository" = Some (VDict repository)
       /\ dict_get repository "name" = Some (VStr repo_name)
       /\ repo_name <> ""
       /\ cwd = path_div PROJECTS_ROOT repo_name
       /\ script = path_div cwd "deploy.sh"
       /\ path_exists script = true.

End Deploy.

(** A signed push to the main branch, and a handler whose script
    exists, for the closed examples. *)
Definition example_push : Request :=
  {| req_client_host := Some "10.0.0.1";
     req_signature := Some "sha256=0a1b2c";
     req_event := Some "push";
     req_body := "{}";
     req_json := inr (VDict [("ref", VStr "refs/heads/main");
                             ("repository", VDict [("name", VStr "shop")])]) |}.

Definition example_traceback (e : exn) : string :=
  match e with
  | HTTPException _ => "fastapi.exceptions.HTTPException"
  | Error class => class
  | BaseError class => class
  end.

Definition example_path_div (a b : string) : string := a +:+ "/" +:+ b.

Definition example_deploy (request : Request) : M (dict value) :=
  deploy fixed_time (fun line => line) example_traceback example_digest
    example_path_div (fun _ => true) (fun _ _ => None) (fun _ => None)
    (Some "s3cret") "/var/www" None None
    {| _logger := "app"; _sanitize_extra_enabled := true |} ∅ root_only
    request.

Definition example_st : St :=
  {| st_ctx := default_context; st_world := empty_world; st_events := [] |}.

(** * Properties *)

(** ** Lemmas on dictionaries *)

Section DictFacts.
Context {V : Type}.
Implicit Types (d : dict V) (k : string) (v : V).

Lemma dict_get_set d k v x :
  dict_get (dict_set d k v) x = if String.eqb k x then Some v else dict_get d x.
Proof.
  induction d as [|[k' v'] d IH]; simpl.
  - reflexivity.
  - destruct (String.eqb_spec k' k) as [->|Hne]; simpl.
    + destruct (String.eqb k x); reflexivity.
    + rewrite IH. destruct (String.eqb_spec k' x) as [->|Hx].
      * destruct (String.eqb_spec k x) as [->|]; [congruence|reflexivity].
      * reflexivity.
Qed.

Lemma dict_get_set_eq d k v : dict_get (dict_set d k v) k = Some v.
Proof. rewrite dict_get_set, String.eqb_refl. reflexivity. Qed.

Lemma dict_get_set_ne d k v x :
  k <> x -> dict_get (dict_set d k v) x = dict_get d x.
Proof.
  intros Hne. rewrite dict_get_set.
  destruct (String.eqb_spec k x); [contradiction|reflexivity].
Qed.

Lemma dict_get_update items : forall d x,
  dict_get (dict_update d items) x =
    match last_write items x with
    | Some w => Some w
    | None => dict_get d x
    end.
Proof.
  unfold dict_update.
  induction items as [|[k v] items IH]; intros d x; simpl.
  - reflexivity.
  - rewrite IH. destruct (last_write items x); [reflexivity|].
    rewrite dict_get_set. destruct (String.eqb k x); reflexivity.
Qed.

Lemma dict_get_In d k v : dict_get d k = Some v -> (k, v) ∈ d.
Proof.
  induction d as [|[k' v'] d IH]; simpl; [discriminate|].
  destruct (String.eqb_spec k' k) as [->|_].
  - intros [= ->]. left.
  - intros H. right. auto.
Qed.

Lemma dict_get_None d k : dict_get d k = None <-> k ∉ dict_keys d.
Proof.
  unfold dict_keys.
  induction d as [|[k' v'] d IH]; simpl.
  - split; [intros _; apply not_elem_of_nil|reflexivity].
  - rewrite not_elem_of_cons.
    destruct (String.eqb_spec k' k) as [->|Hne]; split.
    + discriminate.
    + intros [H _]. congruence.
    + intros H. split; [congruence|]. apply IH, H.
    + intros [_ H]. apply IH, H.
Qed.

Lemma dict_has_true d k : dict_has d k = true <-> k ∈ dict_keys d.
Proof.
  unfold dict_has. destruct (dict_get d k) eqn:E; split; intros H.
  - apply dict_get_In in E. apply list_elem_of_fmap. exists (k, v). auto.
  - reflexivity.
  - discriminate.
  - apply dict_get_None in E. contradiction.
Qed.

Lemma dict_keys_set d k v :
  dict_keys (dict_set d k v) =
    if dict_has d k then dict_keys d else dict_keys d ++ [k].
Proof.
  unfold dict_has, dict_keys. induction d as [|[k' v'] d IH]; csimpl.
  - reflexivity.
  - destruct (String.eqb_spec k' k) as [->|Hne]; csimpl.
    + reflexivity.
    + rewrite IH. destruct (dict_get d k); reflexivity.
Qed.

Lemma dict_wf_set d k v : dict_wf d -> dict_wf (dict_set d k v).
Proof.
  unfold dict_wf. intros Hwf. rewrite dict_keys_set.
  destruct (dict_has d k) eqn:E; [exact Hwf|].
  apply NoDup_app. split; [exact Hwf|]. split.
  - intros x Hx Hin. apply list_elem_of_singleton in Hin as ->.
    apply dict_has_true in Hx. congruence.
  - apply NoDup_singleton.
Qed.

Lemma dict_wf_update items : forall d, dict_wf d -> dict_wf (dict_update d items).
Proof.
  unfold dict_update. induction items as [|[k v] items IH]; intros d Hwf; simpl.
  - exact Hwf.
  - apply IH, dict_wf_set, Hwf.
Qed.
End DictFacts.

Section LastWrite.
Context {V : Type}.
Implicit Types (items : list (string * V)) (k : string) (v : V).

Lemma last_write_None items k : k ∉ items.*1 -> last_write items k = None.
Proof.
  induction items as [|[k' v'] items IH]; csimpl; intros Hk.
  - reflexivity.
  - apply not_elem_of_cons in Hk as [Hne Hk]. rewrite (IH Hk).
    destruct (String.eqb_spec k' k); congruence.
Qed.

Lemma last_write_Some items k v :
  last_write items k = Some v -> (k, v) ∈ items.
Proof.
  induction items as [|[k' v'] items IH]; simpl; [discriminate|].
  destruct (last_write items k) as [w|].
  - intros [= ->]. right. auto.
  - destruct (String.eqb_spec k' k) as [->|_]; [|discriminate].
    intros [= ->]. left.
Qed.

(** Writing the items of a mapping under renamed keys: where the
    renaming does not merge the key of a binding with another key of the
    mapping, that binding is the last write to its new name. *)
Lemma last_write_rename (g : string -> string) (d : dict V) k v :
  dict_wf d -> (k, v) ∈ d ->
  (forall k', k' ∈ dict_keys d -> g k' = g k -> k' = k) ->
  last_write (map (fun kv => (g (fst kv), snd kv)) d) (g k) = Some v.
Proof.
  unfold dict_wf, dict_keys.
  induction d as [|[k0 v0] d IH]; csimpl; intros Hwf Hin Hinj.
  - apply elem_of_nil in Hin as [].
  - apply NoDup_cons in Hwf as [Hk0 Hwf].
    apply elem_of_cons in Hin as [[= <- <-]|Hin].
    + rewrite last_write_None, String.eqb_refl; [reflexivity|].
      intros Hx. apply list_elem_of_fmap in Hx as [[k1 v1] [Hg Hk1]].
      simpl in Hg.
      apply list_elem_of_In, in_map_iff in Hk1 as [[k2 v2] [[= <- <-] Hk2]].
      simpl in Hg. apply list_elem_of_In in Hk2.
      assert (k2 ∈ d.*1) as Hk2'.
      { apply list_elem_of_fmap. exists (k2, v2). done. }
      assert (k2 = k) as <-; [|done].
      apply Hinj; [right; exact Hk2'|congruence].
    + rewrite IH; auto. intros k' Hk'. apply Hinj. right. exact Hk'.
Qed.
End LastWrite.

(** ** Facts on the reserved names *)

Lemma str_in_true k l : str_in k l = true <-> k ∈ l.
Proof.
  unfold str_in. rewrite existsb_exists. split.
  - intros [x [Hin Hx]]. apply String.eqb_eq in Hx as ->.
    apply list_elem_of_In. exact Hin.
  - intros Hin. exists k. split; [apply list_elem_of_In, Hin|apply String.eqb_refl].
Qed.

Lemma str_in_false k l : str_in k l = false <-> k ∉ l.
Proof.
  rewrite <- str_in_true. destruct (str_in k l); split; congruence.
Qed.

(** No reserved name followed by [_extra] is itself reserved. *)
Lemma reserved_extra_not_reserved k :
  str_in k _STANDARD_KEYS = true ->
  str_in (k +:+ "_extra") _STANDARD_KEYS = false.
Proof.
  intros Hk. apply str_in_true in Hk.
  unfold _STANDARD_KEYS, LogRecord_dict_keys in Hk. simpl in Hk.
  repeat (apply elem_of_cons in Hk as [->|Hk]; [vm_compute; reflexivity|]).
  apply elem_of_nil in Hk as [].
Qed.

Lemma sanitized_key_not_reserved k :
  str_in (sanitized_key k) _STANDARD_KEYS = false.
Proof.
  unfold sanitized_key. destruct (str_in k _STANDARD_KEYS) eqn:E.
  - apply reserved_extra_not_reserved, E.
  - exact E.
Qed.

(** ** Sanitization *)

Lemma sanitize_fold d : forall acc,
  fold_left sanitize_step d acc = dict_update acc (sanitize_writes d).
Proof.
  unfold dict_update, sanitize_writes.
  induction d as [|[k v] d IH]; intros acc; [reflexivity|].
  cbn [map fold_left fst snd]. rewrite IH. f_equal.
  unfold sanitize_step, sanitized_key.
  destruct (str_in k _STANDARD_KEYS); reflexivity.
Qed.

Lemma sanitize_extra_cons enabled kv d :
  _sanitize_extra enabled (Some (kv :: d)) =
    Some (if negb enabled then kv :: d
          else dict_update [] (sanitize_writes (kv :: d))).
Proof.
  unfold _sanitize_extra. destruct enabled; simpl negb; cbv iota.
  - rewrite sanitize_fold. reflexivity.
  - reflexivity.
Qed.

Lemma sanitize_writes_keys d x :
  x ∈ (sanitize_writes d).*1 -> exists k, k ∈ dict_keys d /\ x = sanitized_key k.
Proof.
  unfold sanitize_writes, dict_keys. intros Hx.
  apply list_elem_of_fmap in Hx as [[k1 v1] [-> Hin]].
  apply list_elem_of_In, in_map_iff in Hin as [[k v] [[= <- <-] Hin]].
  exists k. split; [|reflexivity].
  apply list_elem_of_fmap. exists (k, v). split; [reflexivity|].
  apply list_elem_of_In, Hin.
Qed.

(** After sanitization no key of the mapping is a reserved name. *)
Lemma sanitize_extra_no_reserved extra san k :
  _sanitize_extra true (Some extra) = Some san ->
  str_in k _STANDARD_KEYS = true -> dict_get san k = None.
Proof.
  destruct extra as [|kv d]; [discriminate|].
  rewrite sanitize_extra_cons. cbn [negb]. intros Heq Hk.
  remember (sanitize_writes (kv :: d)) as ws eqn:Hws.
  assert (san = dict_update [] ws) as -> by congruence.
  rewrite dict_get_update.
  destruct (last_write ws k) as [w|] eqn:E; [|reflexivity].
  apply last_write_Some in E.
  assert (k ∈ ws.*1) as Hin.
  { apply list_elem_of_fmap. exists (k, w). auto. }
  subst ws. apply sanitize_writes_keys in Hin as [k0 [_ ->]].
  rewrite sanitized_key_not_reserved in Hk. discriminate.
Qed.

(** Where no two keys of the mapping get the same name, every binding
    survives under its sanitized name. *)
Lemma sanitize_extra_collision_free extra k v :
  dict_wf extra -> dict_get extra k = Some v ->
  (forall k', k' ∈ dict_keys extra -> sanitized_key k' = sanitized_key k -> k' = k) ->
  exists san, _sanitize_extra true (Some extra) = Some san /\
              dict_get san (sanitized_key k) = Some v.
Proof.
  intros Hwf Hget Hinj.
  destruct extra as [|kv d]; [discriminate|].
  rewrite sanitize_extra_cons. eexists. split; [reflexivity|].
  cbn [negb]. rewrite dict_get_update.
  unfold sanitize_writes.
  rewrite (last_write_rename sanitized_key (kv :: d) k v); auto.
  apply dict_get_In, Hget.
Qed.

(** C1: with the key [name_extra] already in the mapping, the renamed
    reserved key [name] is written to the same name and one of the two
    values is lost.  With [name] first, the sanitized mapping binds
    [name_extra] to 2, not to the value 1 that the reserved key carried;
    with [name_extra] first, the value of that non-reserved key changes
    from 2 to 1.  Either way two keys go in and one comes out. *)
Theorem sanitize_extra_rename_collides :
  str_in "name" _STANDARD_KEYS = true
  /\ str_in "name_extra" _STANDARD_KEYS = false
  /\ _sanitize_extra true (Some [("name", VInt 1); ("name_extra", VInt 2)])
     = Some [("name_extra", VInt 2)]
  /\ _sanitize_extra true (Some [("name_extra", VInt 2); ("name", VInt 1)])
     = Some [("name_extra", VInt 1)].
Proof. repeat split; vm_compute; reflexivity. Qed.

(** ** The ambient context of one flow *)

Lemma set_context_fold kwargs : forall ctx,
  fold_left set_context_step kwargs ctx = dict_update ctx (not_None_items kwargs).
Proof.
  unfold dict_update, not_None_items.
  induction kwargs as [|[k v] kwargs IH]; intros ctx; [reflexivity|].
  cbn [fold_left set_context_step List.filter snd]. rewrite IH.
  destruct (is_None v); reflexivity.
Qed.

Lemma last_write_not_None kwargs k :
  dict_wf kwargs ->
  last_write (not_None_items kwargs) k =
    match dict_get kwargs k with
    | Some v => if is_None v then None else Some v
    | None => None
    end.
Proof.
  unfold dict_wf, dict_keys, not_None_items.
  induction kwargs as [|[k' v'] d IH]; csimpl; intros Hwf; [reflexivity|].
  apply NoDup_cons in Hwf as [Hk' Hwf].
  apply dict_get_None in Hk'.
  cbn [List.filter snd].
  destruct (String.eqb_spec k' k) as [->|Hne].
  - rewrite Hk' in IH.
    destruct (is_None v'); cbn [negb]; cbn [last_write]; rewrite (IH Hwf).
    + reflexivity.
    + rewrite String.eqb_refl. reflexivity.
  - destruct (is_None v'); cbn [negb]; cbn [last_write]; rewrite (IH Hwf).
    + reflexivity.
    + destruct (String.eqb_spec k' k); [contradiction|].
      destruct (dict_get d k) as [w|]; [destruct (is_None w)|]; reflexivity.
Qed.

Lemma get_context_Some d c' :
  get_context {| _log_context := Some d; _streaming := c' |} = d.
Proof. destruct d; reflexivity. Qed.

Lemma get_context_set_context kwargs c k :
  dict_wf kwargs ->
  dict_get (get_context (set_context kwargs c)) k =
    match dict_get kwargs k with
    | Some v => if is_None v then dict_get (get_context c) k else Some v
    | None => dict_get (get_context c) k
    end.
Proof.
  intros Hwf. unfold set_context. rewrite get_context_Some, set_context_fold.
  rewrite dict_get_update, last_write_not_None by exact Hwf.
  destruct (dict_get kwargs k) as [v|]; [destruct (is_None v)|]; reflexivity.
Qed.

(** C7: a merge leaves the observable binding of every key whose supplied
    value is [None] as it was (absent stays absent, present keeps its
    value); a key supplied with another value is bound to that value, and
    a key that the call does not mention is untouched. *)
Theorem set_context_ignores_None (c : FlowContext) (kwargs : dict value)
    (k : string) :
  dict_wf kwargs ->
  (dict_get kwargs k = Some VNone ->
     dict_get (get_context (set_context kwargs c)) k = dict_get (get_context c) k)
  /\ (forall v, dict_get kwargs k = Some v -> v <> VNone ->
        dict_get (get_context (set_context kwargs c)) k = Some v)
  /\ (dict_get kwargs k = None ->
        dict_get (get_context (set_context kwargs c)) k = dict_get (get_context c) k)
  /\ is_streaming (set_context kwargs c) = is_streaming c.
Proof.
  intros Hwf. rewrite get_context_set_context by exact Hwf.
  repeat split.
  - intros ->. reflexivity.
  - intros v -> Hv. destruct v; try reflexivity. contradiction.
  - intros ->. reflexivity.
Qed.

Lemma set_context_ignores_None_witness :
  let c := {| _log_context := Some [("service", VStr "deploy")];
              _streaming := false |} in
  let kwargs := [("client_ip", VNone); ("service", VNone); ("ref", VStr "main")] in
  get_context (set_context kwargs c)
    = [("service", VStr "deploy"); ("ref", VStr "main")]
  /\ dict_get (get_context (set_context kwargs c)) "client_ip"
       = dict_get (get_context c) "client_ip"
  /\ dict_get (get_context (set_context kwargs c)) "service"
       = dict_get (get_context c) "service".
Proof.
  intros c kwargs.
  assert (dict_wf kwargs) as Hwf.
  { solve_dict_wf. }
  split; [reflexivity|]. split.
  - exact (proj1 (set_context_ignores_None c kwargs "client_ip" Hwf) eq_refl).
  - exact (proj1 (set_context_ignores_None c kwargs "service" Hwf) eq_refl).
Defined.

(** ** Lemmas on the loops of the formatters *)

Lemma fold_left_pointwise {A B} (f g : A -> B -> A) (l : list B) : forall a,
  (forall a b, f a b = g a b) -> fold_left f l a = fold_left g l a.
Proof.
  induction l as [|b l IH]; intros a Hfg; [reflexivity|].
  cbn [fold_left]. rewrite Hfg. apply IH, Hfg.
Qed.

Lemma key_step_get skip f g data k x :
  dict_get (key_step skip f g data k) x =
    if String.eqb x k && negb (skip x)
    then match f x with
         | Some v => Some (g v)
         | None => dict_get data x
         end
    else dict_get data x.
Proof.
  unfold key_step. destruct (String.eqb_spec x k) as [->|Hne]; cbn [andb].
  - destruct (skip k); cbn [negb]; [reflexivity|].
    destruct (f k); [apply dict_get_set_eq|reflexivity].
  - destruct (skip k); [reflexivity|].
    destruct (f k); [|reflexivity].
    apply dict_get_set_ne. congruence.
Qed.

Lemma key_step_fold_get skip f g keys : forall data x,
  dict_get (fold_left (key_step skip f g) keys data) x =
    if str_in x keys && negb (skip x)
    then match f x with
         | Some v => Some (g v)
         | None => dict_get data x
         end
    else dict_get data x.
Proof.
  induction keys as [|k keys IH]; intros data x; [reflexivity|].
  cbn [fold_left]. rewrite IH, key_step_get.
  assert (str_in x (k :: keys) = String.eqb x k || str_in x keys) as ->
    by reflexivity.
  destruct (str_in x keys), (String.eqb x k), (skip x), (f x); reflexivity.
Qed.

(** [json_add_context]: a key already in [data] keeps its value; a new
    key gets the fallback-encoded value of its binding in the context. *)
Lemma json_add_context_get ctx : forall data x,
  dict_get (json_add_context ctx data) x =
    match dict_get data x with
    | Some b => Some b
    | None => _safe_json_value <$> dict_get ctx x
    end.
Proof.
  unfold json_add_context.
  induction ctx as [|[k v] ctx IH]; intros data x; cbn [fold_left fst snd].
  - destruct (dict_get data x); reflexivity.
  - rewrite IH. unfold dict_has. cbn [dict_get].
    destruct (dict_get data k) eqn:Hk.
    + destruct (dict_get data x) eqn:Hx; [reflexivity|].
      destruct (String.eqb_spec k x) as [->|_]; [congruence|reflexivity].
    + rewrite dict_get_set.
      destruct (String.eqb_spec k x) as [->|_].
      * rewrite Hk. reflexivity.
      * reflexivity.
Qed.

(** [text_extras]: the fields of the record come first; the context
    fills in only the keys they leave free. *)
Lemma text_extras_get (ctx : dict value) : forall (extras : dict value) x,
  dict_get (fold_left (fun (e : dict value) kv => dict_setdefault e (fst kv) (snd kv))
              ctx extras) x =
    match dict_get extras x with
    | Some b => Some b
    | None => dict_get ctx x
    end.
Proof.
  induction ctx as [|[k v] ctx IH]; intros extras x; cbn [fold_left fst snd].
  - destruct (dict_get extras x); reflexivity.
  - rewrite IH. unfold dict_setdefault, dict_has. cbn [dict_get].
    destruct (dict_get extras k) eqn:Hk.
    + destruct (dict_get extras x) eqn:Hx; [reflexivity|].
      destruct (String.eqb_spec k x) as [->|_]; [congruence|reflexivity].
    + rewrite dict_get_set.
      destruct (String.eqb_spec k x) as [->|_].
      * rewrite Hk. reflexivity.
      * reflexivity.
Qed.

(** A name outside the constructor's attributes is looked up among the
    dynamic entries. *)
Lemma record_attr_dynamic r k :
  str_in k LogRecord_dict_keys = false ->
  record_attr r k = dict_get (rec_dynamic r) k.
Proof.
  intros Hk. unfold record_attr. rewrite Hk.
  assert (forall s, s ∈ LogRecord_dict_keys -> String.eqb k s = false) as Hne.
  { intros s Hs. destruct (String.eqb_spec k s) as [->|]; [|reflexivity].
    apply str_in_true in Hs. congruence. }
  rewrite !Hne; [reflexivity|..];
    apply str_in_true; vm_compute; reflexivity.
Qed.

Lemma str_in_app x l1 l2 : str_in x (l1 ++ l2) = str_in x l1 || str_in x l2.
Proof. unfold str_in. apply existsb_app. Qed.

Lemma str_in_keys {V} (d : dict V) x : str_in x (dict_keys d) = dict_has d x.
Proof.
  destruct (dict_has d x) eqn:E.
  - apply str_in_true, dict_has_true, E.
  - apply str_in_false. intros H. apply dict_has_true in H. congruence.
Qed.

(** The walk of the JSON formatter over the record writes exactly its
    dynamic entries other than [message]. *)
Lemma json_add_record_get r data x :
  dict_get (json_add_record r data) x =
    if str_in x _standard_logrecord_keys || String.eqb x "message"
    then dict_get data x
    else match dict_get (rec_dynamic r) x with
         | Some v => Some (_safe_json_value v)
         | None => dict_get data x
         end.
Proof.
  unfold json_add_record.
  change (fold_left _ (record_dict_keys r) data) with
    (fold_left (key_step
       (fun k => str_in k _standard_logrecord_keys || str_in k ["message"])
       (record_attr r) _safe_json_value) (record_dict_keys r) data).
  rewrite key_step_fold_get. unfold record_dict_keys.
  rewrite str_in_app, str_in_keys.
  assert (str_in x ["message"] = String.eqb x "message") as ->.
  { unfold str_in. cbn [existsb]. apply orb_false_r. }
  unfold _standard_logrecord_keys.
  destruct (str_in x LogRecord_dict_keys) eqn:Hstd; cbn [orb negb andb].
  - reflexivity.
  - destruct (String.eqb x "message"); cbn [negb].
    + rewrite andb_false_r. reflexivity.
    + rewrite andb_true_r, record_attr_dynamic by exact Hstd.
      unfold dict_has.
      destruct (dict_get (rec_dynamic r) x); reflexivity.
Qed.

(** The comprehension of the text formatter keeps exactly the dynamic
    entries other than [message] and [asctime]. *)
Lemma text_record_extras_get r x :
  dict_get (text_record_extras r) x =
    if str_in x _standard_logrecord_keys || str_in x ["message"; "asctime"]
    then None
    else dict_get (rec_dynamic r) x.
Proof.
  unfold text_record_extras.
  rewrite (fold_left_pointwise _ (key_step
       (fun k => str_in k _standard_logrecord_keys
                 || str_in k ["message"; "asctime"])
       (record_attr r) (fun v => v))).
  2:{ intros extras k. unfold key_step.
      destruct (str_in k _standard_logrecord_keys),
        (str_in k ["message"; "asctime"]); reflexivity. }
  rewrite key_step_fold_get. unfold record_dict_keys.
  rewrite str_in_app, str_in_keys. cbn [dict_get].
  unfold _standard_logrecord_keys.
  destruct (str_in x LogRecord_dict_keys) eqn:Hstd; cbn [orb negb andb].
  - reflexivity.
  - destruct (str_in x ["message"; "asctime"]); cbn [negb].
    + rewrite andb_false_r. reflexivity.
    + rewrite andb_true_r, record_attr_dynamic by exact Hstd.
      unfold dict_has.
      destruct (dict_get (rec_dynamic r) x); reflexivity.
Qed.

(** ** Lemmas on [makeRecord] *)

Lemma dict_set_fresh {V} (d : dict V) k v :
  dict_has d k = false -> dict_set d k v = d ++ [(k, v)].
Proof.
  unfold dict_has. induction d as [|[k' v'] d IH]; cbn [dict_get dict_set app].
  - reflexivity.
  - destruct (String.eqb k' k); [discriminate|].
    intros H. rewrite IH by exact H. reflexivity.
Qed.

Lemma standard_keys_split k :
  str_in k _STANDARD_KEYS =
    str_in k LogRecord_dict_keys || str_in k ["message"; "asctime"].
Proof.
  unfold _STANDARD_KEYS. rewrite str_in_app.
  destruct (str_in k LogRecord_dict_keys) eqn:Hstd; [reflexivity|].
  cbn [orb]. unfold str_in. cbn [existsb].
  assert (String.eqb k "exc_info" = false) as ->.
  { destruct (String.eqb_spec k "exc_info") as [->|]; [|reflexivity].
    vm_compute in Hstd. discriminate. }
  assert (String.eqb k "stack_info" = false) as ->.
  { destruct (String.eqb_spec k "stack_info") as [->|]; [|reflexivity].
    vm_compute in Hstd. discriminate. }
  reflexivity.
Qed.

(** The record that the loop over [extra] yields, when it does not raise:
    the items are appended to the dynamic entries, and none of their keys
    is reserved or repeated. *)
Lemma makeRecord_extra_Some items : forall rv r,
  makeRecord_extra items rv = Some r ->
  r = with_dynamic rv (rec_dynamic rv ++ items)
  /\ (forall k, k ∈ items.*1 ->
        str_in k _STANDARD_KEYS = false /\ dict_has (rec_dynamic rv) k = false)
  /\ NoDup items.*1.
Proof.
  induction items as [|[key v] items IH]; intros rv r; cbn [makeRecord_extra].
  - intros [= <-]. rewrite app_nil_r. split; [destruct rv; reflexivity|].
    split; [|apply NoDup_nil_2].
    intros k Hk. apply elem_of_nil in Hk as [].
  - destruct (str_in key ["message"; "asctime"] || record_has rv key) eqn:Hchk;
      [discriminate|].
    apply orb_false_iff in Hchk as [Hmsg Hhas].
    unfold record_has in Hhas. apply orb_false_iff in Hhas as [Hstd Hdyn].
    intros Hrec. apply IH in Hrec as (-> & Hkeys & Hnd).
    unfold set_dynamic, with_dynamic in *. cbn [rec_dynamic] in *.
    rewrite dict_set_fresh in * by exact Hdyn.
    split; [rewrite <- app_assoc; reflexivity|]. split.
    + intros k Hk. csimpl in Hk. apply elem_of_cons in Hk as [->|Hk].
      * rewrite standard_keys_split, Hstd, Hmsg. auto.
      * destruct (Hkeys k Hk) as [Hres Hfree]. split; [exact Hres|].
        unfold dict_has in *. destruct (dict_get (rec_dynamic rv) k) eqn:E;
          [|reflexivity].
        exfalso. apply dict_get_In in E.
        assert (dict_get (rec_dynamic rv ++ [(key, v)]) k <> None) as Hn.
        { apply not_eq_None_Some. unfold is_Some.
          destruct (dict_get (rec_dynamic rv ++ [(key, v)]) k) eqn:E2; [eauto|].
          apply dict_get_None in E2. exfalso. apply E2.
          unfold dict_keys. rewrite fmap_app. apply elem_of_app. left.
          apply list_elem_of_fmap. exists (k, v0). auto. }
        destruct (dict_get (rec_dynamic rv ++ [(key, v)]) k); congruence.
    + csimpl. apply NoDup_cons. split; [|exact Hnd].
      intros Hin. destruct (Hkeys key Hin) as [_ Hfree].
      unfold dict_has in Hfree.
      assert (dict_get (rec_dynamic rv ++ [(key, v)]) key <> None) as Hn.
      { intros E2. apply dict_get_None in E2. apply E2.
        unfold dict_keys. rewrite fmap_app. apply elem_of_app. right. left. }
      destruct (dict_get (rec_dynamic rv ++ [(key, v)]) key); congruence.
Qed.

(** A record made with extra fields carries exactly those fields. *)
Lemma makeRecord_Some name lvl site msg exc extra r :
  makeRecord name lvl site msg exc (Some extra) = Some r ->
  rec_dynamic r = extra
  /\ rec_exc_info r = exc
  /\ dict_wf extra
  /\ (forall k, k ∈ dict_keys extra -> str_in k _STANDARD_KEYS = false).
Proof.
  unfold makeRecord. intros H.
  apply makeRecord_extra_Some in H as (-> & Hkeys & Hnd).
  cbn. repeat split; auto. intros k Hk. apply Hkeys, Hk.
Qed.

Lemma makeRecord_extra_ok items : forall rv,
  NoDup items.*1 ->
  (forall k, k ∈ items.*1 ->
     str_in k _STANDARD_KEYS = false /\ dict_has (rec_dynamic rv) k = false) ->
  makeRecord_extra items rv = Some (with_dynamic rv (rec_dynamic rv ++ items)).
Proof.
  induction items as [|[key v] items IH]; intros rv Hnd Hkeys;
    cbn [makeRecord_extra].
  - rewrite app_nil_r. destruct rv; reflexivity.
  - csimpl in Hnd. apply NoDup_cons in Hnd as [Hkey Hnd].
    destruct (Hkeys key) as [Hres Hfree]; [left|].
    rewrite standard_keys_split in Hres. apply orb_false_iff in Hres as [Hstd Hmsg].
    unfold record_has. rewrite Hmsg, Hstd, Hfree. cbn [orb].
    rewrite IH.
    + unfold set_dynamic, with_dynamic. cbn [rec_dynamic].
      rewrite dict_set_fresh by exact Hfree.
      rewrite <- app_assoc. reflexivity.
    + exact Hnd.
    + intros k Hk. destruct (Hkeys k) as [Hres' Hfree']; [right; exact Hk|].
      split; [exact Hres'|].
      unfold set_dynamic, with_dynamic. cbn [rec_dynamic].
      unfold dict_has. rewrite dict_get_set.
      destruct (String.eqb_spec key k) as [->|_]; [contradiction|].
      exact Hfree'.
Qed.

(** Sanitized extra fields never make [makeRecord] raise. *)
Lemma makeRecord_sanitized name lvl site msg exc extra san :
  _sanitize_extra true extra = Some san ->
  exists r, makeRecord name lvl site msg exc (Some san) = Some r
            /\ rec_dynamic r = san /\ rec_exc_info r = exc.
Proof.
  destruct extra as [[|kv d]|]; [discriminate| |discriminate].
  rewrite sanitize_extra_cons. cbn [negb]. intros Hsan.
  remember (sanitize_writes (kv :: d)) as ws eqn:Hws.
  assert (san = dict_update [] ws) as -> by congruence.
  unfold makeRecord. rewrite makeRecord_extra_ok.
  - eexists. split; [reflexivity|]. split; reflexivity.
  - apply (dict_wf_update ws []). apply NoDup_nil_2.
  - intros k Hk. split; [|reflexivity].
    assert (dict_get (dict_update [] ws) k <> None) as Hget.
    { intros E. apply dict_get_None in E. contradiction. }
    rewrite dict_get_update in Hget. cbn [dict_get] in Hget.
    destruct (last_write ws k) as [w|] eqn:E; [|congruence].
    apply last_write_Some in E.
    assert (k ∈ ws.*1) as Hin.
    { apply list_elem_of_fmap. exists (k, w). auto. }
    subst ws. apply sanitize_writes_keys in Hin as [k0 [_ ->]].
    apply sanitized_key_not_reserved.
Qed.

(** ** Serialization fallback *)

Lemma opt_all_is_Some {A} (l : list (option A)) :
  is_Some (opt_all l) <-> Forall is_Some l.
Proof.
  induction l as [|[x|] l IH]; cbn [opt_all].
  - split; [intros _; apply Forall_nil_2|eauto].
  - split.
    + intros H. apply Forall_cons. split; [eauto|].
      apply IH. destruct (opt_all l); [eauto|]. destruct H as [? [=]].
    + intros H. apply Forall_cons in H as [_ H]. apply IH in H as [xs ->]. eauto.
  - split.
    + intros [? [=]].
    + intros H. apply Forall_cons in H as [[? [=]] _].
Qed.

Lemma json_dumps_is_Some v : is_Some (json_dumps v) <-> json_encodable v = true.
Proof.
  induction v as [| [|] | z | s | l IH | d IH | o | f] using value_ind';
    cbn [json_dumps json_encodable]; try (split; eauto; fail).
  - assert (is_Some (opt_all (map json_dumps l)) <-> forallb json_encodable l = true)
      as Hall.
    { rewrite opt_all_is_Some, forallb_forall, Forall_map.
      rewrite List.Forall_forall.
      split; intros H x Hx.
      - apply (proj1 (proj1 (List.Forall_forall _ _) IH x Hx)), H, Hx.
      - apply (proj2 (proj1 (List.Forall_forall _ _) IH x Hx)), H, Hx. }
    destruct (opt_all (map json_dumps l)).
    + split; [intros _; apply Hall; eauto|eauto].
    + split; [intros [? [=]]|]. intros H. apply Hall in H as [? [=]].
  - set (f := fun kv : string * value =>
               match json_dumps (snd kv) with
               | Some j => Some (json_quote (fst kv) +:+ ": " +:+ j)
               | None => None
               end).
    assert (is_Some (opt_all (map f d))
            <-> forallb (fun kv => json_encodable (snd kv)) d = true) as Hall.
    { rewrite opt_all_is_Some, forallb_forall, Forall_map.
      rewrite List.Forall_forall.
      split; intros H x Hx.
      - apply (proj1 (List.Forall_forall _ _) IH x Hx).
        specialize (H x Hx). unfold f in H.
        destruct (json_dumps (snd x)); [eauto|]. destruct H as [? [=]].
      - apply (proj1 (List.Forall_forall _ _) IH x Hx) in H; [|exact Hx].
        unfold f. destruct H as [j ->]. eauto. }
    destruct (opt_all (map f d)).
    + split; [intros _; apply Hall; eauto|eauto].
    + split; [intros [? [=]]|]. intros H. apply Hall in H as [? [=]].
  - split; [intros [? [=]]|discriminate].
Qed.

Lemma json_dumps_None v : json_dumps v = None <-> json_encodable v = false.
Proof.
  pose proof (json_dumps_is_Some v) as H.
  destruct (json_dumps v), (json_encodable v); split; try congruence.
  - intros _. assert (is_Some (Some s)) as Hs by eauto.
    apply H in Hs. discriminate.
  - intros _. assert (is_Some (@None string)) as [? [=]]. apply H. reflexivity.
Qed.

Lemma safe_json_value_encodable v : json_encodable (_safe_json_value v) = true.
Proof.
  unfold _safe_json_value. destruct (json_dumps v) eqn:E.
  - apply json_dumps_is_Some. rewrite E. eauto.
  - destruct (py_str v); reflexivity.
Qed.

Lemma all_encodable_set d k v :
  all_encodable d -> json_encodable v = true -> all_encodable (dict_set d k v).
Proof.
  unfold all_encodable. intros Hd Hv.
  induction d as [|[k' v'] d IH]; cbn [dict_set].
  - apply Forall_cons. split; [exact Hv|apply Forall_nil_2].
  - apply Forall_cons in Hd as [Hv' Hd].
    destruct (String.eqb k' k); apply Forall_cons; split; auto.
Qed.

Lemma all_encodable_fold {B} (step : dict value -> B -> dict value) l :
  (forall d b, all_encodable d -> all_encodable (step d b)) ->
  forall d, all_encodable d -> all_encodable (fold_left step l d).
Proof.
  intros Hstep. induction l as [|b l IH]; intros d Hd; cbn [fold_left].
  - exact Hd.
  - apply IH, Hstep, Hd.
Qed.

Lemma json_data_encodable ft ts_key dfmt c r :
  all_encodable (json_data ft ts_key dfmt c r).
Proof.
  unfold json_data, json_add_exc, json_add_record, json_add_context, json_base,
    dict_update.
  assert (all_encodable []) as Hnil by apply Forall_nil_2.
  cbn [fold_left fst snd].
  set (base := dict_set _ "line" _).
  assert (all_encodable base) as Hbase.
  { subst base. repeat apply all_encodable_set; auto. }
  clearbody base.
  set (d1 := fold_left _ (get_context c) base).
  assert (all_encodable d1) as H1.
  { subst d1. apply all_encodable_fold; [|exact Hbase].
    intros d [k v] Hd. cbn [fst snd]. destruct (dict_has d k); [exact Hd|].
    apply all_encodable_set; [exact Hd|apply safe_json_value_encodable]. }
  clearbody d1.
  set (d2 := fold_left _ (record_dict_keys r) d1).
  assert (all_encodable d2) as H2.
  { subst d2. apply all_encodable_fold; [|exact H1].
    intros d k Hd. destruct (_ || _); [exact Hd|].
    destruct (record_attr r k); [|exact Hd].
    apply all_encodable_set; [exact Hd|apply safe_json_value_encodable]. }
  clearbody d2.
  destruct (rec_exc_info r); [|exact H2].
  apply all_encodable_set; auto.
Qed.

(** [JsonFormatter.format] always returns a line. *)
Lemma JsonFormatter_format_total ft ts_key dfmt c r :
  exists line, JsonFormatter_format ft ts_key dfmt c r = Some line.
Proof.
  unfold JsonFormatter_format. apply json_dumps_is_Some.
  cbn [json_encodable]. apply forallb_forall.
  intros kv Hkv.
  apply (proj1 (List.Forall_forall _ _) (json_data_encodable ft ts_key dfmt c r)).
  exact Hkv.
Qed.

(** C6: a value that [json.dumps] accepts is kept as it is; one that it
    rejects becomes its [str], or the fixed text when [str] raises too; the
    result is always encodable, so that [JsonFormatter.format] returns a
    line for every record and context instead of raising. *)
Theorem safe_json_value_fallback (v : value) :
  (json_encodable v = true -> _safe_json_value v = v)
  /\ (json_encodable v = false -> forall s, py_str v = Some s ->
        _safe_json_value v = VStr s)
  /\ (json_encodable v = false -> py_str v = None ->
        _safe_json_value v = VStr "<not serializable>")
  /\ json_encodable (_safe_json_value v) = true
  /\ (forall ft ts_key dfmt c r,
        exists line, JsonFormatter_format ft ts_key dfmt c r = Some line).
Proof.
  unfold _safe_json_value. repeat split.
  - intros H. apply json_dumps_is_Some in H as [j ->]. reflexivity.
  - intros H s Hs. apply json_dumps_None in H. rewrite H, Hs. reflexivity.
  - intros H Hs. apply json_dumps_None in H. rewrite H, Hs. reflexivity.
  - apply safe_json_value_encodable.
  - intros. apply JsonFormatter_format_total.
Qed.

Lemma safe_json_value_fallback_witness :
  _safe_json_value (VList [VInt 1; VStr "a"]) = VList [VInt 1; VStr "a"]
  /\ _safe_json_value (VObj (PyObj (Some "<Request>") None)) = VStr "<Request>"
  /\ _safe_json_value (VObj (PyObj None None)) = VStr "<not serializable>".
Proof.
  split; [|split].
  - exact (proj1 (safe_json_value_fallback (VList [VInt 1; VStr "a"])) eq_refl).
  - exact (proj1 (proj2 (safe_json_value_fallback
             (VObj (PyObj (Some "<Request>") None)))) eq_refl _ eq_refl).
  - exact (proj1 (proj2 (proj2 (safe_json_value_fallback
             (VObj (PyObj None None))))) eq_refl eq_refl).
Defined.

(** ** Lemmas on strings *)

Lemma append_cons c s t : String c s +:+ t = String c (s +:+ t).
Proof. reflexivity. Qed.

Lemma append_nil_l s : EmptyString +:+ s = s.
Proof. reflexivity. Qed.

Lemma append_assoc s t u : (s +:+ t) +:+ u = s +:+ (t +:+ u).
Proof.
  induction s as [|c s IH]; [reflexivity|].
  rewrite !append_cons, IH. reflexivity.
Qed.

Lemma append_nil_r s : s +:+ EmptyString = s.
Proof.
  induction s as [|c s IH]; [reflexivity|].
  rewrite append_cons, IH. reflexivity.
Qed.

(** An element of a joined list is a part of the joined text. *)
Lemma concat_contains sep x l :
  x ∈ l -> exists pre post, String.concat sep l = pre +:+ x +:+ post.
Proof.
  induction l as [|y l IH]; intros Hin.
  - apply elem_of_nil in Hin as [].
  - apply elem_of_cons in Hin as [->|Hin].
    + exists EmptyString. destruct l as [|z l].
      * exists EmptyString. cbn [String.concat].
        rewrite append_nil_l, append_nil_r. reflexivity.
      * exists (sep +:+ String.concat sep (z :: l)). reflexivity.
    + destruct (IH Hin) as (pre & post & E).
      destruct l as [|z l]; [apply elem_of_nil in Hin as []|].
      exists (y +:+ sep +:+ pre), post.
      change (String.concat sep (y :: z :: l))
        with (y +:+ sep +:+ String.concat sep (z :: l)).
      rewrite E, !append_assoc. reflexivity.
Qed.

Lemma insert_sorted_elem k x l : x ∈ insert_sorted k l <-> x = k \/ x ∈ l.
Proof.
  induction l as [|y l IH]; cbn [insert_sorted].
  - rewrite list_elem_of_singleton, elem_of_nil. tauto.
  - destruct (String.leb k y).
    + rewrite elem_of_cons. tauto.
    + rewrite !elem_of_cons, IH. tauto.
Qed.

(** Sorting keeps the keys. *)
Lemma sorted_elem x l : x ∈ sorted l <-> x ∈ l.
Proof.
  unfold sorted. induction l as [|y l IH]; cbn [fold_right].
  - tauto.
  - rewrite insert_sorted_elem, elem_of_cons, IH. tauto.
Qed.

Lemma opt_all_map_elem {A B} (f : A -> option B) l ys x y :
  opt_all (map f l) = Some ys -> x ∈ l -> f x = Some y -> y ∈ ys.
Proof.
  revert ys. induction l as [|a l IH]; intros ys Hall Hin Hf.
  - apply elem_of_nil in Hin as [].
  - cbn [map opt_all] in Hall.
    destruct (f a) as [b|] eqn:Ha; [|discriminate].
    destruct (opt_all (map f l)) as [bs|] eqn:Hl; [|discriminate].
    injection Hall as <-.
    apply elem_of_cons in Hin as [->|Hin].
    + rewrite Hf in Ha. injection Ha as ->. left.
    + right. apply (IH bs); auto.
Qed.

(** ** Lemmas on the formatters *)

Lemma Formatter_format_dynamic ft fmt dfmt r o r' k :
  Formatter_format ft fmt dfmt r = (o, r') ->
  str_in k ["message"; "asctime"] = false ->
  dict_get (rec_dynamic r') k = dict_get (rec_dynamic r) k.
Proof.
  unfold Formatter_format. intros H Hk.
  unfold str_in in Hk. cbn [existsb] in Hk.
  apply orb_false_iff in Hk as [Hmsg Hk]. apply orb_false_iff in Hk as [Hasc _].
  set (r1 := set_dynamic r "message" (VStr (getMessage r))) in H.
  set (r2 := if usesTime fmt then _ else r1) in H.
  assert (dict_get (rec_dynamic r2) k = dict_get (rec_dynamic r) k) as H2.
  { subst r2 r1. destruct (usesTime fmt); unfold set_dynamic, with_dynamic;
      cbn [rec_dynamic]; rewrite ?dict_get_set.
    - rewrite String.eqb_sym, Hasc, String.eqb_sym, Hmsg. reflexivity.
    - rewrite String.eqb_sym, Hmsg. reflexivity. }
  destruct (percent_format fmt (record_attr r2)).
  - injection H as _ <-.
    destruct (rec_exc_info r2); [|exact H2].
    destruct (nonempty (rec_exc_text r2)); exact H2.
  - injection H as _ <-. exact H2.
Qed.

(** ** Field precedence *)

Lemma not_reserved_split k :
  str_in k _STANDARD_KEYS = false ->
  str_in k _standard_logrecord_keys = false
  /\ str_in k ["message"; "asctime"] = false
  /\ String.eqb k "message" = false.
Proof.
  rewrite standard_keys_split. intros H.
  apply orb_false_iff in H as [Hstd Hmsg].
  split; [exact Hstd|]. split; [exact Hmsg|].
  unfold str_in in Hmsg. cbn [existsb] in Hmsg.
  apply orb_false_iff in Hmsg as [Hmsg _]. exact Hmsg.
Qed.

(** C2: for a key bound both in the ambient context and in the extra
    fields of the record, the JSON formatter binds the key to the extra
    value (as the serialization fallback renders it), unless the key is
    [exc] on a record that carries exception information; the text
    formatter binds it to the extra value and renders that value in the
    tail. *)
Theorem extra_wins_over_context (ft : Z -> string -> string)
    name lvl site msg exc extra r c k u v :
  makeRecord name lvl site msg exc (Some extra) = Some r ->
  dict_get (get_context c) k = Some u ->
  dict_get extra k = Some v ->
  (exc = None \/ k <> "exc" ->
     forall ts_key dfmt,
       dict_get (json_data ft ts_key dfmt c r) k = Some (_safe_json_value v))
  /\ (forall fmt dfmt base r',
        Formatter_format ft fmt dfmt r = (Some base, r') ->
        dict_get (text_extras (get_context c) r') k = Some v
        /\ forall s, py_str v = Some s ->
             text_field (text_extras (get_context c) r') k = Some (k +:+ "=" +:+ s)
             /\ forall line,
                  fst (TextFormatter_format ft fmt dfmt c r) = Some line ->
                  exists pre post,
                    line = base +:+ " | " +:+ pre +:+ (k +:+ "=" +:+ s) +:+ post).
Proof.
  intros Hrec Hctx Hextra.
  apply makeRecord_Some in Hrec as (Hdyn & Hexc & Hwf & Hkeys).
  assert (str_in k _STANDARD_KEYS = false) as Hk.
  { apply Hkeys. apply dict_has_true. unfold dict_has. rewrite Hextra. reflexivity. }
  apply not_reserved_split in Hk as (Hstd & Hma & Hmsg).
  split.
  - intros Hnoexc ts_key dfmt. unfold json_data.
    assert (dict_get (json_add_record r
              (json_add_context (get_context c) (json_base ft ts_key dfmt r))) k
            = Some (_safe_json_value v)) as Hrecget.
    { rewrite json_add_record_get, Hstd, Hmsg, Hdyn, Hextra. reflexivity. }
    unfold json_add_exc. rewrite Hexc.
    destruct exc as [ei|]; [|exact Hrecget].
    destruct Hnoexc as [[=]|Hne].
    rewrite dict_get_set_ne by congruence. exact Hrecget.
  - intros fmt dfmt base r' Hfmt.
    assert (dict_get (text_extras (get_context c) r') k = Some v) as Hget.
    { unfold text_extras. rewrite text_extras_get, text_record_extras_get.
      rewrite Hstd, Hma. cbn [orb].
      rewrite (Formatter_format_dynamic _ _ _ _ _ _ _ Hfmt Hma), Hdyn, Hextra.
      reflexivity. }
    split; [exact Hget|]. intros s Hs.
    assert (text_field (text_extras (get_context c) r') k = Some (k +:+ "=" +:+ s))
      as Hfield.
    { unfold text_field. rewrite Hget, Hs. reflexivity. }
    split; [exact Hfield|]. intros line.
    unfold TextFormatter_format. rewrite Hfmt.
    destruct (text_extras (get_context c) r') as [|kv extras] eqn:Hex;
      [discriminate|].
    unfold text_tail.
    destruct (opt_all _) as [fields|] eqn:Hall; cbn [fst]; [|discriminate].
    intros [= <-].
    destruct (concat_contains " " (k +:+ "=" +:+ s) fields) as (pre & post & E).
    { apply (opt_all_map_elem _ _ _ k _ Hall); [|exact Hfield].
      apply sorted_elem, dict_has_true. unfold dict_has. rewrite Hget.
      reflexivity. }
    exists pre, post. rewrite E. reflexivity.
Qed.

Lemma extra_wins_over_context_witness :
  let c := set_context [("a", VInt 1)] default_context in
  exists r,
    makeRecord "app" 20 example_site "hello" None (Some [("a", VInt 2)]) = Some r
    /\ dict_get (json_data fixed_time "ts" "%H:%M" c r) "a" = Some (VInt 2)
    /\ json_data fixed_time "ts" "%H:%M" c r
       = [ ("ts", VStr "2026-01-01 00:00:00"); ("level", VStr "INFO");
           ("logger", VStr "app"); ("message", VStr "hello");
           ("module", VStr "main"); ("func", VStr "deploy");
           ("line", VInt 101); ("a", VInt 2) ]
    /\ fst (TextFormatter_format fixed_time (text_fmt default_config) "%H:%M" c r)
       = Some "[2026-01-01 00:00:00] [INFO] hello | a=2".
Proof.
  intros c. eexists. split; [vm_compute; reflexivity|]. split; [|split].
  2:{ vm_compute. reflexivity. }
  - apply (proj1 (extra_wins_over_context fixed_time "app" 20 example_site
             "hello" None [("a", VInt 2)] _ c "a" (VInt 1) (VInt 2)
             eq_refl eq_refl eq_refl)).
    left. reflexivity.
  - vm_compute. reflexivity.
Defined.

(** C2, as a universal statement about the JSON formatter, fails at the
    key [exc] of a record with exception information: the traceback text
    replaces the extra value and the ambient value alike. *)
Lemma extra_wins_over_context_counterexample :
  ~ (forall (ft : Z -> string -> string) name lvl site msg exc extra r c k u v
            ts_key dfmt,
       makeRecord name lvl site msg exc (Some extra) = Some r ->
       dict_get (get_context c) k = Some u ->
       dict_get extra k = Some v ->
       dict_get (json_data ft ts_key dfmt c r) k = Some (_safe_json_value v)).
Proof.
  intros H.
  pose (c := set_context [("exc", VInt 1)] default_context).
  destruct (makeRecord "app" 40 example_site "boom"
              (Some "Traceback (most recent call last): ...")
              (Some [("exc", VInt 2)])) as [r|] eqn:Hr; [|discriminate].
  specialize (H fixed_time _ _ _ _ _ _ r c "exc" (VInt 1) (VInt 2) "ts" "%H:%M"
                Hr eq_refl eq_refl).
  vm_compute in Hr. injection Hr as <-. vm_compute in H. discriminate.
Qed.

(** ** Configuration *)

Lemma addHandler_fold hs : forall lg,
  fold_left addHandler hs lg =
    {| lg_level := lg_level lg; lg_propagate := lg_propagate lg;
       lg_handlers := lg_handlers lg ++ hs |}.
Proof.
  induction hs as [|h hs IH]; intros lg; cbn [fold_left].
  - rewrite app_nil_r. destruct lg; reflexivity.
  - rewrite IH. unfold addHandler. cbn. rewrite <- app_assoc. reflexivity.
Qed.

(** With a known level, [build_handlers] succeeds exactly on the
    settings of [handlers_constructible], and then makes one handler for
    every sink that is on. *)
Lemma build_handlers_Some cfg lvl :
  _checkLevel (level cfg) = Some lvl ->
  build_handlers cfg =
    if handlers_constructible cfg then
      Some ((if console_enabled cfg then [console_handler cfg lvl] else [])
            ++ (if text_file_enabled cfg then [text_file_handler cfg lvl] else [])
            ++ (if json_file_enabled cfg then [json_file_handler cfg lvl] else []))
    else None.
Proof.
  intros Hlvl.
  unfold build_handlers, handlers_constructible, new_TextFormatter,
    new_JsonFormatter, new_TimedRotatingFileHandler.
  rewrite Hlvl.
  destruct (validation_search (PercentStyle_fmt (text_fmt cfg)));
    [|reflexivity].
  destruct (console_enabled cfg), (text_file_enabled cfg),
    (json_file_enabled cfg), (rotation_when_valid (rotation_when cfg));
    reflexivity.
Qed.

Lemma build_handlers_inv cfg lvl hs :
  _checkLevel (level cfg) = Some lvl ->
  build_handlers cfg = Some hs ->
  hs = (if console_enabled cfg then [console_handler cfg lvl] else [])
       ++ (if text_file_enabled cfg then [text_file_handler cfg lvl] else [])
       ++ (if json_file_enabled cfg then [json_file_handler cfg lvl] else []).
Proof.
  intros Hlvl. rewrite (build_handlers_Some cfg lvl Hlvl).
  destruct (handlers_constructible cfg); congruence.
Qed.

(** What a successful [configure_logging] leaves: the level and the
    propagation flag are set, and handlers are attached only to a logger
    that had none. *)
Lemma configure_logging_Some cfg loggers loggers1 sl :
  configure_logging cfg loggers = Some (loggers1, sl) ->
  exists lvl hs,
    _checkLevel (level cfg) = Some lvl
    /\ (lg_handlers (getLogger (logger_name cfg) loggers) = [] ->
        build_handlers cfg = Some hs)
    /\ sl = {| _logger := logger_name cfg;
               _sanitize_extra_enabled := sanitize_extra cfg |}
    /\ loggers1 =
         <[logger_name cfg :=
             {| lg_level := lvl; lg_propagate := false;
                lg_handlers :=
                  match lg_handlers (getLogger (logger_name cfg) loggers) with
                  | [] => hs
                  | old => old
                  end |}]> loggers.
Proof.
  unfold configure_logging.
  destruct (_checkLevel (level cfg)) as [lvl|] eqn:Hlvl; [|discriminate].
  cbn [mbind option_bind lg_handlers].
  destruct (lg_handlers (getLogger (logger_name cfg) loggers)) as [|h old].
  - destruct (build_handlers cfg) as [hs|]; [|discriminate].
    cbn [mbind option_bind]. intros [= <- <-]. exists lvl, hs.
    split; [reflexivity|]. split; [reflexivity|]. split; [reflexivity|].
    rewrite addHandler_fold. reflexivity.
  - cbn [mbind option_bind]. intros [= <- <-]. exists lvl, [].
    split; [reflexivity|]. split; [discriminate|]. split; reflexivity.
Qed.

(** [configure_logging] succeeds when the level name is known and, for
    a logger that has no handlers yet, the handlers can be
    constructed. *)
Lemma configure_logging_total cfg loggers :
  is_Some (_checkLevel (level cfg)) ->
  (lg_handlers (getLogger (logger_name cfg) loggers) = [] ->
   handlers_constructible cfg = true) ->
  is_Some (configure_logging cfg loggers).
Proof.
  intros [lvl Hlvl] Hok. unfold configure_logging. rewrite Hlvl.
  cbn [mbind option_bind lg_handlers].
  destruct (lg_handlers (getLogger (logger_name cfg) loggers)).
  - rewrite (build_handlers_Some cfg lvl Hlvl), Hok by reflexivity.
    cbn [mbind option_bind]. eauto.
  - cbn [mbind option_bind]. eauto.
Qed.

Lemma getLogger_insert name lg (loggers : gmap string Logger) :
  getLogger name (<[name := lg]> loggers) = lg.
Proof. unfold getLogger. rewrite lookup_insert_eq. reflexivity. Qed.

(** C5: a second call of [configure_logging] with the same
    configuration changes nothing: it returns the registry that the
    first call left, so the logger has the same number of handlers after
    two calls as after one.  On a logger without handlers the first call
    attaches exactly the handlers that [build_handlers] makes.  The first
    call succeeds when the level name is known and, if the logger has no
    handlers yet, [build_handlers] can construct them: the text format
    holds a field that the validation of [logging.Formatter] accepts and,
    with a file sink on, the rotation unit is one that
    [TimedRotatingFileHandler] knows.  The log files are taken to open. *)
Theorem configure_logging_idempotent (cfg : LogConfig)
    (loggers : gmap string Logger) :
  (is_Some (_checkLevel (level cfg)) ->
   (lg_handlers (getLogger (logger_name cfg) loggers) = [] ->
    validation_search (PercentStyle_fmt (text_fmt cfg)) = true
    /\ (text_file_enabled cfg || json_file_enabled cfg = true ->
        rotation_when_valid (rotation_when cfg) = true)) ->
   is_Some (configure_logging cfg loggers))
  /\ forall loggers1 sl1,
       configure_logging cfg loggers = Some (loggers1, sl1) ->
       configure_logging cfg loggers1 = Some (loggers1, sl1)
       /\ (forall loggers2 sl2,
             configure_logging cfg loggers1 = Some (loggers2, sl2) ->
             length (lg_handlers (getLogger (logger_name cfg) loggers2))
             = length (lg_handlers (getLogger (logger_name cfg) loggers1)))
       /\ (lg_handlers (getLogger (logger_name cfg) loggers) = [] ->
           build_handlers cfg
           = Some (lg_handlers (getLogger (logger_name cfg) loggers1))).
Proof.
  split.
  { intros Hlvl Hok. apply configure_logging_total; [exact Hlvl|].
    intros Hnone. destruct (Hok Hnone) as [Hfmt Hwhen].
    unfold handlers_constructible. rewrite Hfmt. cbn [andb].
    destruct (text_file_enabled cfg || json_file_enabled cfg);
      [rewrite Hwhen by reflexivity|]; reflexivity. }
  intros loggers1 sl1 H1.
  apply configure_logging_Some in H1 as (lvl & hs & Hlvl & Hhs & -> & ->).
  set (lg1 := {| lg_level := lvl; lg_propagate := false; lg_handlers := _ |}).
  assert (configure_logging cfg (<[logger_name cfg := lg1]> loggers)
          = Some (<[logger_name cfg := lg1]> loggers,
                  {| _logger := logger_name cfg;
                     _sanitize_extra_enabled := sanitize_extra cfg |})) as H2.
  { unfold configure_logging. rewrite Hlvl, getLogger_insert.
    cbn [mbind option_bind lg_handlers].
    assert (forall lg', lg' = lg1 ->
              Some (<[logger_name cfg := lg']> (<[logger_name cfg := lg1]> loggers),
                    {| _logger := logger_name cfg;
                       _sanitize_extra_enabled := sanitize_extra cfg |})
              = Some (<[logger_name cfg := lg1]> loggers,
                      {| _logger := logger_name cfg;
                         _sanitize_extra_enabled := sanitize_extra cfg |})) as Hins.
    { intros lg' ->. rewrite insert_insert_eq. reflexivity. }
    subst lg1. cbn [lg_handlers].
    destruct (lg_handlers (getLogger (logger_name cfg) loggers)) as [|h old].
    - rewrite (Hhs eq_refl).
      destruct hs as [|h hs]; cbn [mbind option_bind].
      + apply Hins. reflexivity.
      + apply Hins. reflexivity.
    - cbn [mbind option_bind]. apply Hins. reflexivity. }
  split; [exact H2|]. split.
  - intros loggers2 sl2 H3. rewrite H2 in H3. injection H3 as <- <-. reflexivity.
  - intros Hnone. rewrite getLogger_insert. subst lg1. cbn [lg_handlers].
    rewrite Hnone. exact (Hhs Hnone).
Qed.

Lemma configure_logging_idempotent_witness :
  exists loggers1 sl1,
    configure_logging default_config ∅ = Some (loggers1, sl1)
    /\ configure_logging default_config loggers1 = Some (loggers1, sl1)
    /\ length (lg_handlers (getLogger "app" loggers1)) = 3%nat.
Proof.
  destruct (proj1 (configure_logging_idempotent default_config ∅))
    as [[loggers1 sl1] H1];
    [vm_compute; eauto|intros _; split; [|intros _]; vm_compute; reflexivity|].
  exists loggers1, sl1. split; [exact H1|].
  destruct (proj2 (configure_logging_idempotent default_config ∅) _ _ H1)
    as (H2 & _ & H3).
  split; [exact H2|].
  specialize (H3 eq_refl).
  assert (option_map (@length Handler) (build_handlers default_config)
          = Some 3%nat) as Hb by (vm_compute; reflexivity).
  rewrite H3 in Hb. injection Hb as Hb. exact Hb.
Defined.

(** ** Streaming suppression *)

Lemma callHandlers_fold ft hs c r w :
  callHandlers ft hs c r w = fold_left (handle_step ft c) hs (r, w).
Proof. reflexivity. Qed.

Lemma file_emit_stdout ft path h c r w :
  stdout (snd (FileHandler_emit ft path h c r w)) = stdout w.
Proof.
  unfold FileHandler_emit.
  destruct (Handler_format ft h c r) as [[line|] r']; reflexivity.
Qed.

Lemma callHandlers_streaming ft c hs : forall rw,
  is_streaming c = true -> all_stream_safe hs ->
  fold_left (handle_step ft c) hs rw
    = fold_left (handle_step ft c)
        (List.filter (fun h => negb (is_console h)) hs) rw
  /\ stdout (snd (fold_left (handle_step ft c) hs rw)) = stdout (snd rw).
Proof.
  intros rw Hs Hall. revert rw.
  induction Hall as [|h hs Hh Hall IH]; intros rw; [split; reflexivity|].
  cbn [fold_left List.filter]. unfold is_console at 1.
  destruct (h_kind h) as [ss|path wh i b u] eqn:Hk; cbn [negb].
  - assert (handle_step ft c rw h = rw) as ->.
    { unfold handle_step, Handler_emit. rewrite Hk, (Hh ss eq_refl), Hs.
      cbn [andb]. destruct (h_level h <=? rec_levelno (fst rw));
        destruct rw; reflexivity. }
    apply IH.
  - cbn [fold_left]. destruct (IH (handle_step ft c rw h)) as [IH1 IH2].
    split; [exact IH1|]. rewrite IH2.
    unfold handle_step, Handler_emit. rewrite Hk.
    destruct (h_level h <=? rec_levelno (fst rw)); [|reflexivity].
    apply file_emit_stdout.
Qed.

(** C4: a console handler whose stream-safe flag is on writes nothing
    while the flow is streaming and leaves record and sinks as they were;
    with the flag off or outside streaming its emission is that of the
    plain stream handler, which writes the formatted line; a file handler
    emits the same whatever the streaming flag says and writes the
    formatted line to its path.  Over a list of handlers, a streaming flow
    leaves standard output untouched and the file handlers run as if the
    console handlers were not there. *)
Theorem console_stream_safe (ft : Z -> string -> string) (c : FlowContext)
    (r : LogRecord) (w : World) :
  (forall h, h_kind h = StreamSafeConsoleHandler true -> is_streaming c = true ->
     Handler_emit ft h c r w = (r, w))
  /\ (forall h ss, h_kind h = StreamSafeConsoleHandler ss ->
        ss = false \/ is_streaming c = false ->
        Handler_emit ft h c r w = StreamHandler_emit ft h c r w
        /\ forall line r', Handler_format ft h c r = (Some line, r') ->
             Handler_emit ft h c r w
             = (r', write_stdout (line +:+ str1 newline) w))
  /\ (forall h path wh i b u,
        h_kind h = TimedRotatingFileHandler path wh i b u ->
        (forall s, Handler_emit ft h (set_streaming s c) r w
                   = Handler_emit ft h c r w)
        /\ forall line r', Handler_format ft h c r = (Some line, r') ->
             Handler_emit ft h c r w
             = (r', write_file path (line +:+ str1 newline) w))
  /\ (forall hs, is_streaming c = true -> all_stream_safe hs ->
        callHandlers ft hs c r w
        = callHandlers ft (List.filter (fun h => negb (is_console h)) hs) c r w
        /\ stdout (snd (callHandlers ft hs c r w)) = stdout w).
Proof.
  split; [|split; [|split]].
  - intros h Hk Hs. unfold Handler_emit. rewrite Hk, Hs. reflexivity.
  - intros h ss Hk Hoff.
    assert (Handler_emit ft h c r w = StreamHandler_emit ft h c r w) as E.
    { unfold Handler_emit. rewrite Hk.
      destruct Hoff as [->| ->]; [reflexivity|].
      rewrite andb_false_r. reflexivity. }
    split; [exact E|]. intros line r' Hf. rewrite E.
    unfold StreamHandler_emit. rewrite Hf. reflexivity.
  - intros h path wh i b u Hk. split.
    + intros s. unfold Handler_emit. rewrite Hk. reflexivity.
    + intros line r' Hf. unfold Handler_emit. rewrite Hk.
      unfold FileHandler_emit. rewrite Hf. reflexivity.
  - intros hs Hs Hall. rewrite !callHandlers_fold.
    apply (callHandlers_streaming ft c hs (r, w) Hs Hall).
Qed.

Lemma console_stream_safe_witness :
  let streaming := set_streaming true default_context in
  Handler_emit fixed_time (console_handler default_config 20) streaming
    example_record empty_world = (example_record, empty_world)
  /\ stdout (snd (Handler_emit fixed_time (console_handler default_config 20)
                    default_context example_record empty_world))
     = ["[2026-01-01 00:00:00] [INFO] hello" +:+ str1 newline]
  /\ files (snd (Handler_emit fixed_time (text_file_handler default_config 20)
                   streaming example_record empty_world)) !! "logs/app.log"
     = Some ["[2026-01-01 00:00:00] [INFO] hello" +:+ str1 newline]
  /\ (exists loggers sl w',
        configure_logging default_config ∅ = Some (loggers, sl)
        /\ info fixed_time sl "hello" None root_only loggers example_site
             streaming empty_world = Some w'
        /\ stdout w' = []
        /\ files w' !! "logs/app.log"
           = Some ["[2026-01-01 00:00:00] [INFO] hello" +:+ str1 newline]
        /\ length (default [] (files w' !! "logs/app.json.log")) = 1%nat).
Proof.
  intros streaming.
  pose proof (console_stream_safe fixed_time streaming example_record empty_world)
    as (Hdrop & _ & Hfile & _).
  pose proof (console_stream_safe fixed_time default_context example_record
                empty_world) as (_ & Hnormal & _ & _).
  split; [exact (Hdrop (console_handler default_config 20) eq_refl eq_refl)|].
  split.
  { destruct (Hnormal (console_handler default_config 20) true eq_refl
                (or_intror eq_refl)) as [_ Hline].
    rewrite (Hline "[2026-01-01 00:00:00] [INFO] hello"
               (snd (Handler_format fixed_time (console_handler default_config 20)
                       default_context example_record)));
      [reflexivity|vm_compute; reflexivity]. }
  split.
  { destruct (Hfile (text_file_handler default_config 20) _ _ _ _ _ eq_refl)
      as [_ Hline].
    rewrite (Hline "[2026-01-01 00:00:00] [INFO] hello"
               (snd (Handler_format fixed_time (text_file_handler default_config 20)
                       streaming example_record)));
      [vm_compute; reflexivity|vm_compute; reflexivity]. }
  eexists _, _, _. split; [vm_compute; reflexivity|].
  split; [vm_compute; reflexivity|].
  split; [reflexivity|]. split; vm_compute; reflexivity.
Defined.

(** ** The concrete scenario *)

Lemma file_handlers_stdout ft c hs : forall rw,
  Forall (fun h => is_console h = false) hs ->
  stdout (snd (fold_left (handle_step ft c) hs rw)) = stdout (snd rw).
Proof.
  intros rw Hall. revert rw.
  induction Hall as [|h hs Hh Hall IH]; intros rw; [reflexivity|].
  cbn [fold_left]. rewrite IH. unfold handle_step, Handler_emit.
  unfold is_console in Hh.
  destruct (h_kind h); [discriminate|].
  destruct (h_level h <=? rec_levelno (fst rw)); [|reflexivity].
  apply file_emit_stdout.
Qed.

Lemma sanitize_level_key b :
  _sanitize_extra b (Some [("level", VStr "x")]) = Some [("level", VStr "x")].
Proof. destruct b; vm_compute; reflexivity. Qed.

(** The text formatter on the fresh record of the scenario. *)
Lemma text_format_level_key ft dfmt c name site :
  get_context c = [] ->
  exists r',
    TextFormatter_format ft "[%(asctime)s] [%(levelname)s] %(message)s" dfmt c
      {| rec_name := name; rec_msg := "hello";
         rec_levelname := "INFO"; rec_levelno := 20;
         rec_module := cs_module site; rec_funcName := cs_funcName site;
         rec_lineno := cs_lineno site; rec_created := cs_created site;
         rec_exc_info := None; rec_exc_text := None;
         rec_dynamic := [("level", VStr "x")] |}
    = (Some ("[" +:+ ft (cs_created site) dfmt +:+ "] [INFO] hello | level=x"), r').
Proof.
  intros Hctx. eexists. unfold TextFormatter_format.
  set (rec0 := {| rec_name := name; rec_dynamic := _ |}).
  assert (Formatter_format ft "[%(asctime)s] [%(levelname)s] %(message)s" dfmt rec0
          = (Some ("[" +:+ ft (cs_created site) dfmt +:+ "] [INFO] hello"),
             set_dynamic (set_dynamic rec0 "message" (VStr "hello")) "asctime"
               (VStr (ft (cs_created site) dfmt)))) as ->.
  { vm_compute. reflexivity. }
  rewrite Hctx.
  assert (text_extras [] (set_dynamic (set_dynamic rec0 "message" (VStr "hello"))
                            "asctime" (VStr (ft (cs_created site) dfmt)))
          = [("level", VStr "x")]) as ->.
  { vm_compute. reflexivity. }
  assert (text_tail [("level", VStr "x")] = Some " | level=x") as ->
    by (vm_compute; reflexivity).
  rewrite !append_cons, append_nil_l, append_assoc. reflexivity.
Qed.

(** C3: in the scenario the console line is
    [[<ts>] [INFO] hello | level=x]: the key [level] is not an attribute
    name of [LogRecord], so sanitization leaves it as it is. *)
Theorem info_level_extra_console (ft : Z -> string -> string)
    cfg loggers loggers1 sl anc site c w :
  level cfg = "INFO" -> console_enabled cfg = true ->
  console_format cfg = "text" -> stream_safe cfg = true ->
  text_fmt cfg = "[%(asctime)s] [%(levelname)s] %(message)s" ->
  lg_handlers (getLogger (logger_name cfg) loggers) = [] ->
  configure_logging cfg loggers = Some (loggers1, sl) ->
  get_context c = [] -> is_streaming c = false ->
  exists w',
    info ft sl "hello" (Some [("level", VStr "x")]) anc loggers1 site c w = Some w'
    /\ stdout w' =
         stdout w ++ [("[" +:+ ft (cs_created site) (datefmt cfg)
                          +:+ "] [INFO] hello | level=x") +:+ str1 newline].
Proof.
  intros Hlevel Hcon Hfmt Hsafe Htext Hfresh Hcfg Hctx Hstream.
  apply configure_logging_Some in Hcfg as (lvl & hs & Hlvl & Hhs & -> & ->).
  rewrite Hlevel in Hlvl. vm_compute in Hlvl. injection Hlvl as <-.
  apply (build_handlers_inv cfg 20) in Hhs;
    [|rewrite Hlevel; vm_compute; reflexivity|exact Hfresh].
  rewrite Hcon in Hhs. subst hs. rewrite Hfresh.
  unfold info, SafeLogger_log. cbn [_logger _sanitize_extra_enabled].
  rewrite getLogger_insert, sanitize_level_key.
  unfold Logger_log, isEnabledFor, getEffectiveLevel, handlers_reached.
  cbn [lg_level lg_propagate lg_handlers Z.eqb Z.leb Z.compare Pos.compare
       Pos.compare_cont].
  rewrite app_nil_r.
  assert (makeRecord (logger_name cfg) 20 site "hello" None
            (Some [("level", VStr "x")])
          = Some {| rec_name := logger_name cfg; rec_msg := "hello";
                    rec_levelname := "INFO"; rec_levelno := 20;
                    rec_module := cs_module site;
                    rec_funcName := cs_funcName site;
                    rec_lineno := cs_lineno site;
                    rec_created := cs_created site;
                    rec_exc_info := None; rec_exc_text := None;
                    rec_dynamic := [("level", VStr "x")] |}) as ->.
  { vm_compute. reflexivity. }
  eexists. split; [reflexivity|].
  rewrite callHandlers_fold. cbn [app fold_left].
  rewrite file_handlers_stdout.
  2:{ destruct (text_file_enabled cfg), (json_file_enabled cfg);
        repeat constructor. }
  unfold handle_step at 1. cbn [fst snd console_handler h_level rec_levelno].
  cbn [Z.leb Z.compare Pos.compare Pos.compare_cont].
  unfold Handler_emit. cbn [console_handler h_kind].
  rewrite Hsafe, Hstream. cbn [andb].
  unfold StreamHandler_emit, Handler_format. cbn [console_handler h_formatter].
  rewrite Hfmt, Htext.
  assert (String.eqb "text" "json" = false) as -> by reflexivity.
  assert (PercentStyle_fmt "[%(asctime)s] [%(levelname)s] %(message)s"
          = "[%(asctime)s] [%(levelname)s] %(message)s") as -> by reflexivity.
  destruct (text_format_level_key ft (datefmt cfg) c (logger_name cfg) site Hctx)
    as [r' ->].
  reflexivity.
Qed.

(** The scenario, evaluated. *)
Lemma scenario_runs :
  exists loggers sl w',
    configure_logging default_config ∅ = Some (loggers, sl)
    /\ info fixed_time sl "hello" (Some [("level", VStr "x")]) root_only loggers
         example_site default_context empty_world = Some w'
    /\ stdout w' = ["[2026-01-01 00:00:00] [INFO] hello | level=x" +:+ str1 newline].
Proof.
  eexists _, _, _. split; [vm_compute; reflexivity|].
  split; vm_compute; reflexivity.
Qed.

Lemma info_level_extra_console_witness :
  exists loggers sl w',
    configure_logging default_config ∅ = Some (loggers, sl)
    /\ info fixed_time sl "hello" (Some [("level", VStr "x")]) root_only loggers
         example_site default_context empty_world = Some w'
    /\ stdout w' = ["[2026-01-01 00:00:00] [INFO] hello | level=x" +:+ str1 newline].
Proof.
  destruct (configure_logging default_config ∅) as [[loggers sl]|] eqn:Hcfg;
    [|vm_compute in Hcfg; discriminate].
  assert (lg_handlers (getLogger (logger_name default_config)
                         (∅ : gmap string Logger)) = []) as Hfresh
    by (vm_compute; reflexivity).
  destruct (info_level_extra_console fixed_time default_config ∅ loggers sl
              root_only example_site default_context empty_world
              eq_refl eq_refl eq_refl eq_refl eq_refl Hfresh Hcfg
              eq_refl eq_refl) as (w' & Hinfo & Hout).
  exists loggers, sl, w'. split; [reflexivity|]. split; [exact Hinfo|exact Hout].
Defined.

(** C3 as stated fails: with the configuration of the scenario, the call
    [info("hello", extra={"level": "x"})] outside streaming does not put
    [level_extra=x] on the console line. *)
Lemma info_level_extra_console_counterexample :
  ~ (forall loggers sl w',
       configure_logging default_config ∅ = Some (loggers, sl) ->
       info fixed_time sl "hello" (Some [("level", VStr "x")]) root_only loggers
         example_site default_context empty_world = Some w' ->
       stdout w' =
         ["[" +:+ fixed_time (cs_created example_site) (datefmt default_config)
              +:+ "] [INFO] hello | level_extra=x" +:+ str1 newline]).
Proof.
  intros H.
  destruct scenario_runs as (loggers & sl & w' & Hcfg & Hinfo & Hout).
  specialize (H loggers sl w' Hcfg Hinfo). rewrite Hout in H.
  vm_compute in H. discriminate.
Qed.

(** ** Extra keys that are names of the JSON output *)

(** Sanitization leaves alone a key that is not reserved and that no
    reserved key of the mapping is renamed to. *)
Lemma sanitize_extra_keeps extra k v :
  dict_wf extra -> dict_get extra k = Some v ->
  str_in k _STANDARD_KEYS = false ->
  (forall r, str_in r _STANDARD_KEYS = true -> r +:+ "_extra" <> k) ->
  exists san, _sanitize_extra true (Some extra) = Some san
              /\ dict_get san k = Some v.
Proof.
  intros Hwf Hget Hk Hfree.
  assert (sanitized_key k = k) as Hsk by (unfold sanitized_key; rewrite Hk; reflexivity).
  destruct (sanitize_extra_collision_free extra k v Hwf Hget) as (san & Hsan & Hv).
  - intros k' _ Hsame. rewrite Hsk in Hsame. unfold sanitized_key in Hsame.
    destruct (str_in k' _STANDARD_KEYS) eqn:Hk'; [|exact Hsame].
    exfalso. apply (Hfree k' Hk'). exact Hsame.
  - exists san. rewrite Hsk in Hv. auto.
Qed.

(** A key of the sanitized extra fields reaches the JSON object with the
    caller's value, over the base field and the context, unless it is
    [exc] on a record with exception information. *)
Lemma json_data_extra_key ft ts_key dfmt c name lvl site msg exc san k v :
  dict_get san k = Some v ->
  (exists extra, _sanitize_extra true extra = Some san) ->
  exc = None \/ k <> "exc" ->
  exists r, makeRecord name lvl site msg exc (Some san) = Some r
            /\ dict_get (json_data ft ts_key dfmt c r) k
               = Some (_safe_json_value v).
Proof.
  intros Hget [extra Hsan] Hexc.
  destruct (makeRecord_sanitized name lvl site msg exc extra san Hsan)
    as (r & Hr & Hdyn & Hei).
  exists r. split; [exact Hr|].
  apply makeRecord_Some in Hr as (_ & _ & _ & Hkeys).
  assert (str_in k _STANDARD_KEYS = false) as Hk.
  { apply Hkeys, dict_has_true. unfold dict_has. rewrite Hget. reflexivity. }
  apply not_reserved_split in Hk as (Hstd & _ & Hmsg).
  unfold json_data, json_add_exc. rewrite Hei.
  assert (dict_get (json_add_record r
            (json_add_context (get_context c) (json_base ft ts_key dfmt r))) k
          = Some (_safe_json_value v)) as Hrec.
  { rewrite json_add_record_get, Hstd, Hmsg, Hdyn, Hget. reflexivity. }
  destruct exc as [ei|]; [|exact Hrec].
  destruct Hexc as [[=]|Hne].
  rewrite dict_get_set_ne by congruence. exact Hrec.
Qed.

Lemma no_reserved_renamed_to k :
  forallb (fun r => negb (String.eqb (r +:+ "_extra") k)) _STANDARD_KEYS = true ->
  forall r, str_in r _STANDARD_KEYS = true -> r +:+ "_extra" <> k.
Proof.
  intros Hall r Hr E. apply str_in_true, list_elem_of_In in Hr.
  rewrite forallb_forall in Hall. specialize (Hall r Hr).
  rewrite E, String.eqb_refl in Hall. discriminate.
Qed.

(** C9: with sanitization on, an extra key [level], [logger], [func] or
    [line] is not renamed, and the JSON object binds it to the caller's
    value (through the serialization fallback) instead of the base field;
    the same holds for the configured timestamp key when that key is not a
    reserved name, is not a reserved name followed by [_extra], and is not
    [exc] on a record with exception information.  Sanitizing an absent
    or empty mapping gives [None]. *)
Theorem json_output_keys_not_sanitized (ft : Z -> string -> string)
    ts_key dfmt c name lvl site msg exc extra k v :
  dict_wf extra -> dict_get extra k = Some v ->
  (k ∈ ["level"; "logger"; "func"; "line"]
   \/ (k = ts_key
       /\ str_in ts_key _STANDARD_KEYS = false
       /\ (forall r, str_in r _STANDARD_KEYS = true -> r +:+ "_extra" <> ts_key)
       /\ (exc = None \/ ts_key <> "exc"))) ->
  (exists san r,
     _sanitize_extra true (Some extra) = Some san
     /\ dict_get san k = Some v
     /\ makeRecord name lvl site msg exc (Some san) = Some r
     /\ dict_get (json_data ft ts_key dfmt c r) k = Some (_safe_json_value v))
  /\ _sanitize_extra true None = None
  /\ _sanitize_extra true (Some []) = None.
Proof.
  intros Hwf Hget Hk. split; [|split; reflexivity].
  assert (str_in k _STANDARD_KEYS = false
          /\ (forall r, str_in r _STANDARD_KEYS = true -> r +:+ "_extra" <> k)
          /\ (exc = None \/ k <> "exc")) as (Hnr & Hfree & Hexc).
  { destruct Hk as [Hin|(-> & H1 & H2 & H3)]; [|auto].
    repeat (apply elem_of_cons in Hin as [->|Hin];
            [split; [vm_compute; reflexivity|];
             split; [apply no_reserved_renamed_to; vm_compute; reflexivity|];
             right; discriminate|]).
    apply elem_of_nil in Hin as []. }
  destruct (sanitize_extra_keeps extra k v Hwf Hget Hnr Hfree) as (san & Hsan & Hv).
  destruct (json_data_extra_key ft ts_key dfmt c name lvl site msg exc san k v Hv)
    as (r & Hr & Hdata); [eauto|exact Hexc|].
  exists san, r. auto.
Qed.

Lemma json_output_keys_not_sanitized_witness :
  (exists san r,
     _sanitize_extra true (Some [("level", VStr "x"); ("name", VInt 1)]) = Some san
     /\ dict_get san "level" = Some (VStr "x")
     /\ makeRecord "app" 20 example_site "hello" None (Some san) = Some r
     /\ dict_get (json_data fixed_time "ts" "%H:%M" default_context r) "level"
        = Some (VStr "x"))
  /\ (exists san r,
        _sanitize_extra true (Some [("ts", VInt 7)]) = Some san
        /\ dict_get san "ts" = Some (VInt 7)
        /\ makeRecord "app" 20 example_site "hello" None (Some san) = Some r
        /\ dict_get (json_data fixed_time "ts" "%H:%M" default_context r) "ts"
           = Some (VInt 7)).
Proof.
  split.
  2:{ assert (dict_wf [("ts", VInt 7)]) as Hwf by solve_dict_wf.
      assert (forall r, str_in r _STANDARD_KEYS = true -> r +:+ "_extra" <> "ts")
        as Hfree by (apply no_reserved_renamed_to; vm_compute; reflexivity).
      exact (proj1 (json_output_keys_not_sanitized fixed_time "ts" "%H:%M"
                      default_context "app" 20 example_site "hello" None
                      [("ts", VInt 7)] "ts" (VInt 7) Hwf eq_refl
                      (or_intror (conj eq_refl
                         (conj eq_refl (conj Hfree (or_introl eq_refl))))))). }
  assert (dict_wf [("level", VStr "x"); ("name", VInt 1)]) as Hwf
    by solve_dict_wf.
  assert ("level" ∈ ["level"; "logger"; "func"; "line"]) as Hin by left.
  exact (proj1 (json_output_keys_not_sanitized fixed_time "ts" "%H:%M"
                  default_context "app" 20 example_site "hello" None
                  [("level", VStr "x"); ("name", VInt 1)] "level" (VStr "x")
                  Hwf eq_refl
                  (or_introl Hin))).
Defined.

(** C9 as stated fails for a timestamp key that is itself a reserved
    name: with [created] as the configured key, the extra key [created] is
    renamed. *)
Lemma json_output_keys_not_sanitized_counterexample :
  ~ (forall ts_key extra v san,
       dict_get extra ts_key = Some v ->
       _sanitize_extra true (Some extra) = Some san ->
       dict_get san ts_key = Some v)
  /\ _sanitize_extra true (Some [("created", VInt 5)])
     = Some [("created_extra", VInt 5)]
  /\ (exists r,
        makeRecord "app" 20 example_site "hello" None
          (Some [("created_extra", VInt 5)]) = Some r
        /\ dict_get (json_data fixed_time "created" "%H:%M" default_context r)
             "created" = Some (VStr "2026-01-01 00:00:00")).
Proof.
  split; [|split].
  - intros H.
    specialize (H "created" [("created", VInt 5)] (VInt 5)
                  [("created_extra", VInt 5)] eq_refl eq_refl).
    vm_compute in H. discriminate.
  - vm_compute. reflexivity.
  - eexists. split; vm_compute; reflexivity.
Qed.

(** ** The JSON line *)









Lemma opt_all_map_Forall2 {A B} (f : A -> option B) l ys :
  opt_all (map f l) = Some ys -> Forall2 (fun x y => f x = Some y) l ys.
Proof.
  revert ys. induction l as [|a l IH]; intros ys; cbn [map opt_all].
  - intros [= <-]. constructor.
  - destruct (f a) as [b|] eqn:Ha; [|discriminate].
    destruct (opt_all (map f l)) as [bs|]; [|discriminate].
    intros [= <-]. constructor; auto.
Qed.

















(** ** Isolation of flows *)

(** *** Closed forms of the calls on the heap *)

Section FlowFacts.
Local Open Scope nat_scope.
Import Flows.

Lemma get_context_alloc f rt : Flows.get_context f rt = alloc (stored rt f) rt.
Proof.
  unfold Flows.get_context, stored.
  destruct (deref rt _) as [[|kv d]|]; reflexivity.
Qed.

Lemma alter_last {A} (g : A -> A) (l : list A) (x : A) :
  alter g (length l) (l ++ [x]) = l ++ [g x].
Proof. induction l as [|y l IH]; [reflexivity|]. csimpl. rewrite IH. reflexivity. Qed.

Lemma fold_setitem l kwargs : forall rt,
  fold_left (fun rt kv =>
               if is_None (snd kv) then rt else setitem l (fst kv) (snd kv) rt)
    kwargs rt
  = {| heap := alter (fun d => fold_left set_context_step kwargs d) l (heap rt);
       flows := flows rt |}.
Proof.
  induction kwargs as [|[k v] kwargs IH]; intros rt; cbn [fold_left fst snd].
  - rewrite list_alter_id by reflexivity. destruct rt; reflexivity.
  - rewrite IH.
    assert (forall d, set_context_step d (k, v)
                      = if is_None v then d else dict_set d k v) as Hstep
      by reflexivity.
    destruct (is_None v) eqn:Hv.
    + f_equal. apply list_alter_ext; [|reflexivity].
      intros d _. rewrite Hstep. reflexivity.
    + unfold setitem. cbn [heap flows]. rewrite list_alter_alter_eq.
      f_equal. apply list_alter_ext; [|reflexivity].
      intros d _. cbn [compose]. rewrite Hstep. reflexivity.
Qed.

Lemma fold_popitem l keys : forall rt,
  fold_left (fun rt k => popitem l k rt) keys rt
  = {| heap := alter (fun d => fold_left dict_pop keys d) l (heap rt);
       flows := flows rt |}.
Proof.
  induction keys as [|k keys IH]; intros rt; cbn [fold_left].
  - rewrite list_alter_id by reflexivity. destruct rt; reflexivity.
  - rewrite IH. unfold popitem. cbn [heap flows].
    rewrite list_alter_alter_eq. reflexivity.
Qed.

Lemma set_context_closed kwargs f rt :
  Flows.set_context kwargs f rt
  = {| heap := heap rt ++ [fold_left set_context_step kwargs (stored rt f)];
       flows := alter (rebind (length (heap rt))) f (flows rt) |}.
Proof.
  unfold Flows.set_context. rewrite get_context_alloc. unfold alloc.
  rewrite fold_setitem. unfold log_context_set. cbn [heap flows].
  rewrite alter_last. reflexivity.
Qed.

Lemma remove_context_closed k keys f rt :
  Flows.remove_context (k :: keys) f rt
  = {| heap := heap rt ++ [fold_left dict_pop (k :: keys) (stored rt f)];
       flows := alter (rebind (length (heap rt))) f (flows rt) |}.
Proof.
  unfold Flows.remove_context. rewrite get_context_alloc. unfold alloc.
  rewrite fold_popitem. unfold log_context_set. cbn [heap flows].
  rewrite alter_last. reflexivity.
Qed.

Lemma mutate_copy_closed k v f rt :
  mutate_copy k v f rt
  = {| heap := heap rt ++ [dict_set (stored rt f) k v]; flows := flows rt |}.
Proof.
  unfold mutate_copy. rewrite get_context_alloc. unfold alloc, setitem.
  cbn [heap flows]. rewrite alter_last. reflexivity.
Qed.

(** No action touches a dictionary object that exists already: the heap
    only grows. *)
Lemma step_heap_grows f a rt : exists new, heap (step f a rt) = heap rt ++ new.
Proof.
  destruct a as [kw|data|keys| |b|k v| |]; cbn [step].
  - rewrite set_context_closed. eexists. reflexivity.
  - eexists. reflexivity.
  - destruct keys as [|k keys].
    + exists []. cbn. rewrite app_nil_r. reflexivity.
    + rewrite remove_context_closed. eexists. reflexivity.
  - eexists. reflexivity.
  - exists []. cbn. rewrite app_nil_r. reflexivity.
  - rewrite mutate_copy_closed. eexists. reflexivity.
  - exists []. cbn. rewrite app_nil_r. reflexivity.
  - exists []. cbn. rewrite app_nil_r. reflexivity.
Qed.

(** An action of flow [f] leaves the context of every other running
    flow bound as it was. *)
Lemma step_flows_other f a rt g :
  g <> f -> g < length (flows rt) ->
  flows (step f a rt) !! g = flows rt !! g.
Proof.
  intros Hne Hg.
  destruct a as [kw|data|keys| |b|k v| |]; cbn [step].
  - rewrite set_context_closed. cbn [flows].
    apply list_lookup_alter_ne. congruence.
  - cbn. apply list_lookup_alter_ne. congruence.
  - destruct keys as [|k keys]; [reflexivity|].
    rewrite remove_context_closed. cbn [flows].
    apply list_lookup_alter_ne. congruence.
  - cbn. apply list_lookup_alter_ne. congruence.
  - cbn. apply list_lookup_alter_ne. congruence.
  - rewrite mutate_copy_closed. reflexivity.
  - cbn. apply lookup_app_l, Hg.
  - cbn. apply lookup_app_l, Hg.
Qed.

Lemma step_flows_length f a rt :
  length (flows rt) <= length (flows (step f a rt)).
Proof.
  destruct a as [kw|data|keys| |b|k v| |]; cbn [step].
  - rewrite set_context_closed. cbn [flows]. rewrite length_alter. lia.
  - cbn. rewrite length_alter. lia.
  - destruct keys as [|k keys]; [cbn; lia|].
    rewrite remove_context_closed. cbn [flows]. rewrite length_alter. lia.
  - cbn. rewrite length_alter. lia.
  - cbn. rewrite length_alter. lia.
  - rewrite mutate_copy_closed. cbn [flows]. lia.
  - cbn. rewrite length_app. lia.
  - cbn. rewrite length_app. lia.
Qed.

End FlowFacts.

Section FlowIsolation.
Local Open Scope nat_scope.
(* The functions of one flow alone keep their names outside [Flows]. *)
Local Abbreviation var_get_context := get_context (only parsing).
Import Flows.

Lemma wf_rebind h fl f x :
  wf {| heap := h; flows := fl |} ->
  wf {| heap := h ++ [x]; flows := alter (rebind (length h)) f fl |}.
Proof.
  intros Hwf g ctx l. cbn [heap flows]. rewrite length_app. cbn [length].
  rewrite list_lookup_alter. destruct (decide (f = g)) as [->|Hne].
  - destruct (fl !! g) as [ctx0|]; [|discriminate].
    intros [= <-]. cbn. intros [= <-]. lia.
  - intros Hg Hl. specialize (Hwf g ctx l Hg Hl). cbn in Hwf. lia.
Qed.

Lemma wf_heap_grow h fl new :
  wf {| heap := h; flows := fl |} -> wf {| heap := h ++ new; flows := fl |}.
Proof.
  intros Hwf g ctx l Hg Hl. specialize (Hwf g ctx l Hg Hl).
  cbn in *. rewrite length_app. lia.
Qed.

Lemma wf_spawn rt ctx :
  wf rt ->
  (forall l, cv_log_context ctx = Some l -> l < length (heap rt)) ->
  wf {| heap := heap rt; flows := flows rt ++ [ctx] |}.
Proof.
  intros Hwf Hctx g ctx' l. cbn [heap flows]. intros Hg Hl.
  apply lookup_app_Some in Hg as [Hg|[_ Hg]].
  - apply (Hwf g ctx' l Hg Hl).
  - apply list_lookup_singleton_Some in Hg as [_ <-]. apply Hctx, Hl.
Qed.

Lemma wf_current rt f l :
  wf rt -> cv_log_context (current rt f) = Some l -> l < length (heap rt).
Proof.
  intros Hwf. unfold current.
  destruct (flows rt !! f) as [ctx|] eqn:Hf; cbn [default].
  - apply (Hwf f ctx l Hf).
  - discriminate.
Qed.

(** The invariant holds after every action. *)
Lemma step_wf f a rt : wf rt -> wf (step f a rt).
Proof.
  intros Hwf. destruct rt as [h fl].
  destruct a as [kw|data|keys| |b|k v| |]; cbn [step].
  - rewrite set_context_closed. apply wf_rebind, Hwf.
  - apply (wf_rebind h fl f), Hwf.
  - destruct keys as [|k keys]; [exact Hwf|].
    rewrite remove_context_closed. apply wf_rebind, Hwf.
  - apply (wf_rebind h fl f), Hwf.
  - intros g ctx l. cbn [set_streaming heap flows].
    rewrite list_lookup_alter. destruct (decide (f = g)) as [->|Hne].
    + destruct (fl !! g) as [ctx0|] eqn:Hg; [|discriminate].
      intros [= <-]. cbn. intros Hl. apply (Hwf g ctx0 l Hg Hl).
    + intros Hg Hl. apply (Hwf g ctx l Hg Hl).
  - rewrite mutate_copy_closed. apply wf_heap_grow, Hwf.
  - apply (wf_spawn _ _ Hwf). intros l. apply wf_current, Hwf.
  - apply (wf_spawn _ _ Hwf). discriminate.
Qed.

Lemma deref_grow rt rt' new ctx g :
  wf rt -> flows rt !! g = Some ctx -> heap rt' = heap rt ++ new ->
  deref rt' (cv_log_context ctx) = deref rt (cv_log_context ctx).
Proof.
  intros Hwf Hg Hheap. unfold deref.
  destruct (cv_log_context ctx) as [l|] eqn:Hl; [|reflexivity].
  cbn. rewrite Hheap. apply lookup_app_l, (Hwf g ctx l Hg Hl).
Qed.

(** One action of flow [f] changes nothing that another running flow
    observes. *)
Lemma step_isolated f a rt g :
  wf rt -> g <> f -> g < length (flows rt) ->
  observe (step f a rt) g = observe rt g.
Proof.
  intros Hwf Hne Hg. unfold observe.
  rewrite (step_flows_other f a rt g Hne Hg).
  destruct (flows rt !! g) as [ctx|] eqn:Hctx; [|reflexivity]. cbn.
  destruct (step_heap_grows f a rt) as [new Hnew].
  rewrite (deref_grow rt (step f a rt) new ctx g Hwf Hctx Hnew). reflexivity.
Qed.

(** Nor does any interleaving of actions of the other flows. *)
Lemma run_isolated trace g : forall rt,
  wf rt -> g < length (flows rt) ->
  Forall (fun fa => fst fa <> g) trace ->
  observe (run trace rt) g = observe rt g.
Proof.
  induction trace as [|[f a] trace IH]; intros rt Hwf Hg Hall; [reflexivity|].
  apply Forall_cons in Hall as [Hf Hall]. cbn [fst] in Hf.
  cbn [run fold_left fst snd].
  change (fold_left _ trace (step f a rt)) with (run trace (step f a rt)).
  rewrite IH.
  - apply step_isolated; auto.
  - apply step_wf, Hwf.
  - pose proof (step_flows_length f a rt). lia.
  - exact Hall.
Qed.

Lemma stored_observe rt f ctx :
  flows rt !! f = Some ctx ->
  stored rt f
  = var_get_context {| _log_context := deref rt (cv_log_context ctx);
                   _streaming := cv_streaming ctx |}.
Proof.
  intros Hf. unfold stored, current, var_get_context. rewrite Hf.
  cbn [default _log_context]. reflexivity.
Qed.

(** For the acting flow, an action on the heap is the action on its own
    context variables. *)
Lemma step_refines f a rt ctx :
  wf rt -> flows rt !! f = Some ctx ->
  observe (step f a rt) f
  = Some (on_flow a {| _log_context := deref rt (cv_log_context ctx);
                       _streaming := cv_streaming ctx |}).
Proof.
  intros Hwf Hf. pose proof (stored_observe rt f ctx Hf) as Hst.
  assert (forall x fl',
            fl' !! f = Some (rebind (length (heap rt)) ctx) ->
            observe {| heap := heap rt ++ [x]; flows := fl' |} f
            = Some {| _log_context := Some x;
                      _streaming := cv_streaming ctx |}) as Hnew.
  { intros x fl' Hfl. unfold observe. cbn [flows]. rewrite Hfl. cbn.
    rewrite list_lookup_middle by reflexivity. reflexivity. }
  assert (alter (rebind (length (heap rt))) f (flows rt) !! f
          = Some (rebind (length (heap rt)) ctx)) as Halt.
  { rewrite list_lookup_alter_eq, Hf. reflexivity. }
  destruct a as [kw|data|keys| |b|k v| |]; cbn [step on_flow].
  - rewrite set_context_closed, (Hnew _ _ Halt), Hst. reflexivity.
  - unfold Flows.set_context_dict, alloc, log_context_set. cbn [heap flows].
    rewrite (Hnew _ _ Halt). reflexivity.
  - destruct keys as [|k keys].
    + unfold observe. cbn. rewrite Hf. reflexivity.
    + rewrite remove_context_closed, (Hnew _ _ Halt), Hst. reflexivity.
  - unfold Flows.clear_context, alloc, log_context_set. cbn [heap flows].
    rewrite (Hnew _ _ Halt). reflexivity.
  - unfold observe, Flows.set_streaming. cbn [flows].
    rewrite list_lookup_alter_eq, Hf. reflexivity.
  - rewrite mutate_copy_closed. unfold observe. cbn [flows]. rewrite Hf. cbn.
    rewrite (deref_grow rt _ [dict_set (stored rt f) k v] ctx f Hwf Hf);
      reflexivity.
  - unfold observe, spawn_task. cbn [flows].
    rewrite (lookup_app_l_Some _ _ _ _ Hf). reflexivity.
  - unfold observe, spawn_thread. cbn [flows].
    rewrite (lookup_app_l_Some _ _ _ _ Hf). reflexivity.
Qed.

(** A new task starts with what its creator observes. *)
Lemma spawn_task_inherits f rt :
  f < length (flows rt) ->
  observe (spawn_task f rt) (length (flows rt)) = observe rt f.
Proof.
  intros Hf. apply lookup_lt_is_Some_2 in Hf as [ctx Hctx].
  unfold observe, spawn_task, current. cbn [flows]. rewrite Hctx. cbn [default].
  rewrite list_lookup_middle by reflexivity. reflexivity.
Qed.

Lemma spawn_task_keeps f rt g :
  g < length (flows rt) -> observe (spawn_task f rt) g = observe rt g.
Proof.
  intros Hg. unfold observe, spawn_task. cbn [flows].
  rewrite lookup_app_l by exact Hg. reflexivity.
Qed.

(** Two tasks created by the same flow, the first of which then acts:
    the second task and the creator observe what the creator observed. *)
Lemma sibling_isolated rt p a :
  wf rt -> p < length (flows rt) ->
  let child := length (flows rt) in
  let sibling := S (length (flows rt)) in
  let rt2 := spawn_task p (spawn_task p rt) in
  observe (step child a rt2) sibling = observe rt p
  /\ observe (step child a rt2) p = observe rt p
  /\ observe (step child a rt2) child = on_flow a <$> observe rt p.
Proof.
  intros Hwf Hp child sibling rt2.
  assert (wf (spawn_task p rt)) as Hwf1 by apply (step_wf p ASpawnTask rt Hwf).
  assert (wf rt2) as Hwf2 by apply (step_wf p ASpawnTask _ Hwf1).
  assert (length (flows (spawn_task p rt)) = sibling) as Hlen1.
  { unfold spawn_task. cbn [flows]. rewrite length_app. cbn. subst sibling. lia. }
  assert (length (flows rt2) = S sibling) as Hlen2.
  { subst rt2. unfold spawn_task at 1. cbn [flows]. rewrite length_app, Hlen1.
    cbn. lia. }
  assert (observe rt2 sibling = observe rt p) as Hsib.
  { subst rt2. rewrite <- Hlen1.
    rewrite spawn_task_inherits by (rewrite Hlen1; subst sibling; lia).
    apply spawn_task_keeps, Hp. }
  assert (observe rt2 child = observe rt p) as Hchild.
  { subst rt2. rewrite spawn_task_keeps by (rewrite Hlen1; subst sibling child; lia).
    apply spawn_task_inherits, Hp. }
  assert (observe rt2 p = observe rt p) as Hpar.
  { subst rt2. rewrite spawn_task_keeps by (rewrite Hlen1; subst sibling; lia).
    apply spawn_task_keeps, Hp. }
  split; [|split].
  - rewrite step_isolated; [exact Hsib|exact Hwf2|subst sibling child; lia|lia].
  - rewrite step_isolated; [exact Hpar|exact Hwf2|subst child; lia|lia].
  - rewrite <- Hchild.
    destruct (flows rt2 !! child) as [ctx|] eqn:Hctx.
    + rewrite (step_refines child a rt2 ctx Hwf2 Hctx).
      unfold observe. rewrite Hctx. reflexivity.
    + apply lookup_ge_None in Hctx. subst child sibling. lia.
Qed.
End FlowIsolation.

(** C10: in every interleaving of the calls of context.py, the ambient
    context that a running flow observes (the content of its dictionary
    and its streaming flag) is changed by no action of another flow; and
    when a flow creates two tasks and the first then acts, the second task
    and the creator still observe what the creator had, while the first
    task observes its own change. *)
Theorem flows_never_interfere (rt : Flows.Runtime) (g : nat) :
  Flows.wf rt -> (g < length (Flows.flows rt))%nat ->
  (forall trace,
     Forall (fun fa => fst fa <> g) trace ->
     Flows.observe (Flows.run trace rt) g = Flows.observe rt g
     /\ Flows.is_streaming g (Flows.run trace rt) = Flows.is_streaming g rt)
  /\ (forall a,
        let child := length (Flows.flows rt) in
        let sibling := S (length (Flows.flows rt)) in
        let rt2 := Flows.spawn_task g (Flows.spawn_task g rt) in
        Flows.observe (Flows.step child a rt2) sibling = Flows.observe rt g
        /\ Flows.observe (Flows.step child a rt2) g = Flows.observe rt g
        /\ Flows.observe (Flows.step child a rt2) child
           = on_flow a <$> Flows.observe rt g).
Proof.
  intros Hwf Hg. split.
  - intros trace Hall.
    pose proof (run_isolated trace g rt Hwf Hg Hall) as Hobs.
    split; [exact Hobs|].
    unfold Flows.observe in Hobs. unfold Flows.is_streaming, Flows.current.
    destruct (Flows.flows (Flows.run trace rt) !! g) as [c1|],
      (Flows.flows rt !! g) as [c0|]; cbn in Hobs |- *; congruence.
  - intros a. apply (sibling_isolated rt g a Hwf Hg).
Qed.

Lemma example_runtime_wf : Flows.wf example_runtime.
Proof.
  intros f ctx l Hf Hl. destruct f as [|f]; [|destruct f; discriminate].
  cbn in Hf. injection Hf as <-. cbn in Hl. injection Hl as <-. cbn. lia.
Qed.

Lemma flows_never_interfere_witness :
  let trace := [ (7%nat, ASpawnThread);
                 (1%nat, ASetContext [("user", VStr "u")]);
                 (1%nat, ASetStreaming true) ] in
  let rt2 := Flows.spawn_task 0 (Flows.spawn_task 0 example_runtime) in
  Flows.observe (Flows.run trace example_runtime) 0
    = Some {| _log_context := Some [("request_id", VStr "r-1")];
              _streaming := false |}
  /\ Flows.observe (Flows.step 1 (ASetContext [("user", VStr "u")]) rt2) 2
     = Some {| _log_context := Some [("request_id", VStr "r-1")];
               _streaming := false |}
  /\ Flows.observe (Flows.step 1 (ASetContext [("user", VStr "u")]) rt2) 1
     = Some {| _log_context := Some [("request_id", VStr "r-1");
                                     ("user", VStr "u")];
               _streaming := false |}.
Proof.
  intros trace rt2.
  assert (0 < length (Flows.flows example_runtime))%nat as Hg by (cbn; lia).
  destruct (flows_never_interfere example_runtime 0 example_runtime_wf Hg)
    as [Htrace Hsib].
  split.
  - rewrite (proj1 (Htrace trace ltac:(repeat constructor; discriminate))).
    reflexivity.
  - destruct (Hsib (ASetContext [("user", VStr "u")])) as (H2 & _ & H1).
    split.
    + exact (eq_trans H2 eq_refl).
    + exact (eq_trans H1 eq_refl).
Defined.

(** ** context.py: removal, request id and merging *)

Section DictPop.
Context {V : Type}.
Implicit Types d : dict V.

Lemma dict_get_pop_ne d k x :
  k <> x -> dict_get (dict_pop d k) x = dict_get d x.
Proof.
  intros Hne. induction d as [|[k' v'] d IH]; cbn [dict_pop dict_get].
  - reflexivity.
  - destruct (String.eqb_spec k' k) as [->|Hk]; cbn [dict_get].
    + destruct (String.eqb_spec k x); [contradiction|reflexivity].
    + rewrite IH. reflexivity.
Qed.

Lemma dict_keys_pop_subseteq d k x :
  x ∈ dict_keys (dict_pop d k) -> x ∈ dict_keys d.
Proof.
  unfold dict_keys. induction d as [|[k' v'] d IH]; csimpl; [auto|].
  destruct (String.eqb_spec k' k) as [->|Hk]; csimpl.
  - intros H. right. exact H.
  - intros [->|H]%elem_of_cons; [left|right; auto].
Qed.

Lemma dict_wf_pop d k : dict_wf d -> dict_wf (dict_pop d k).
Proof.
  unfold dict_wf, dict_keys. induction d as [|[k' v'] d IH]; csimpl; [auto|].
  intros [Hnin Hnd]%NoDup_cons.
  destruct (String.eqb_spec k' k) as [->|Hk]; csimpl; [exact Hnd|].
  apply NoDup_cons. split; [|auto].
  intros Hin. apply Hnin. exact (dict_keys_pop_subseteq d k k' Hin).
Qed.

Lemma dict_get_pop_eq d k : dict_wf d -> dict_get (dict_pop d k) k = None.
Proof.
  unfold dict_wf, dict_keys. induction d as [|[k' v'] d IH]; csimpl; [auto|].
  intros [Hnin Hnd]%NoDup_cons.
  destruct (String.eqb_spec k' k) as [->|Hk]; cbn [dict_get].
  - apply dict_get_None. exact Hnin.
  - destruct (String.eqb_spec k' k); [contradiction|auto].
Qed.

Lemma dict_get_pop_all keys : forall d x,
  dict_wf d ->
  dict_get (fold_left dict_pop keys d) x =
    if str_in x keys then None else dict_get d x.
Proof.
  induction keys as [|k keys IH]; intros d x Hwf; cbn [fold_left].
  - reflexivity.
  - rewrite IH by (apply dict_wf_pop, Hwf).
    unfold str_in. cbn [existsb]. fold (str_in x keys).
    destruct (str_in x keys); [rewrite orb_true_r; reflexivity|].
    rewrite orb_false_r. destruct (String.eqb_spec x k) as [->|Hne].
    + apply dict_get_pop_eq, Hwf.
    + apply dict_get_pop_ne. congruence.
Qed.

Lemma dict_wf_pop_all keys : forall d,
  dict_wf d -> dict_wf (fold_left dict_pop keys d).
Proof.
  induction keys as [|k keys IH]; intros d Hwf; cbn [fold_left]; [exact Hwf|].
  apply IH, dict_wf_pop, Hwf.
Qed.

Lemma dict_set_same d k v : dict_get d k = Some v -> dict_set d k v = d.
Proof.
  induction d as [|[k' v'] d IH]; cbn [dict_get dict_set]; [discriminate|].
  destruct (String.eqb_spec k' k) as [->|Hk].
  - intros [= ->]. reflexivity.
  - intros H. rewrite (IH H). reflexivity.
Qed.
End DictPop.

(** After [remove_context] every named key is absent from the flow's
    context and every other key keeps its value; without arguments the
    call does not touch the context variable at all.  The streaming flag
    is never affected. *)
Lemma remove_context_lookup keys c k :
  dict_wf (get_context c) ->
  dict_get (get_context (remove_context keys c)) k =
    (if str_in k keys then None else dict_get (get_context c) k)
  /\ dict_wf (get_context (remove_context keys c))
  /\ is_streaming (remove_context keys c) = is_streaming c
  /\ remove_context [] c = c.
Proof.
  intros Hwf. destruct keys as [|k0 keys].
  - repeat split; auto.
  - unfold remove_context. rewrite get_context_Some. repeat split.
    + apply dict_get_pop_all, Hwf.
    + apply dict_wf_pop_all, Hwf.
Qed.

Lemma remove_context_lookup_witness :
  dict_get (get_context (remove_context ["a"; "zz"]
     (set_context [("a", VInt 1); ("b", VInt 2)] default_context))) "a" = None
  /\ dict_get (get_context (remove_context ["a"; "zz"]
     (set_context [("a", VInt 1); ("b", VInt 2)] default_context))) "b"
     = Some (VInt 2).
Proof.
  split.
  - exact (proj1 (remove_context_lookup ["a"; "zz"]
      (set_context [("a", VInt 1); ("b", VInt 2)] default_context) "a"
      ltac:(solve_dict_wf))).
  - exact (proj1 (remove_context_lookup ["a"; "zz"]
      (set_context [("a", VInt 1); ("b", VInt 2)] default_context) "b"
      ltac:(solve_dict_wf))).
Defined.

(** [set_request_id] followed by [get_request_id] gives back the value
    that was set ([None] clears it), and no other key of the context is
    touched. *)
Lemma request_id_round_trip (request_id : option string) c k :
  dict_wf (get_context c) ->
  k <> "request_id" ->
  get_request_id (set_request_id request_id c) = VStr <$> request_id
  /\ dict_get (get_context (set_request_id request_id c)) k
     = dict_get (get_context c) k.
Proof.
  intros Hwf Hne. unfold get_request_id.
  destruct request_id as [r|]; cbn [set_request_id fmap option_fmap option_map].
  - rewrite !get_context_set_context by solve_dict_wf.
    cbn [dict_get]. rewrite String.eqb_refl. cbn [is_None].
    destruct (String.eqb_spec "request_id" k); [congruence|]. auto.
  - unfold remove_context. rewrite get_context_Some.
    rewrite !dict_get_pop_all by exact Hwf.
    split; [reflexivity|].
    assert (Hk : String.eqb k "request_id" = false) by (apply String.eqb_neq, Hne).
    unfold str_in. cbn [existsb]. rewrite Hk. reflexivity.
Qed.

Lemma request_id_round_trip_witness :
  get_request_id (set_request_id None
     (set_context [("request_id", VStr "r-1"); ("user", VStr "u")]
        default_context)) = None
  /\ dict_get (get_context (set_request_id None
     (set_context [("request_id", VStr "r-1"); ("user", VStr "u")]
        default_context))) "user" = Some (VStr "u").
Proof.
  exact (request_id_round_trip None
    (set_context [("request_id", VStr "r-1"); ("user", VStr "u")]
       default_context) "user" ltac:(solve_dict_wf) ltac:(discriminate)).
Defined.

Lemma dict_get_elem {V} (d : dict V) k v :
  dict_wf d -> (k, v) ∈ d -> dict_get d k = Some v.
Proof.
  unfold dict_wf, dict_keys. induction d as [|[k' v'] d IH]; csimpl.
  - intros _ H. inversion H.
  - intros [Hnin Hnd]%NoDup_cons [[= -> ->]|Hin]%elem_of_cons.
    + rewrite String.eqb_refl. reflexivity.
    + destruct (String.eqb_spec k' k) as [->|_]; [|auto].
      exfalso. apply Hnin. apply list_elem_of_fmap. exists (k, v). auto.
Qed.

Lemma set_context_step_fixed kwargs : forall ctx,
  (forall k v, (k, v) ∈ kwargs -> is_None v = false -> dict_get ctx k = Some v) ->
  fold_left set_context_step kwargs ctx = ctx.
Proof.
  induction kwargs as [|[k v] kwargs IH]; intros ctx H; [reflexivity|].
  cbn [fold_left set_context_step].
  assert (Hstep : (if is_None v then ctx else dict_set ctx k v) = ctx).
  { destruct (is_None v) eqn:E; [reflexivity|].
    apply dict_set_same, H; [left|exact E]. }
  rewrite Hstep. apply IH. intros k' v' Hin. apply H. right. exact Hin.
Qed.

(** Merging the same keyword arguments a second time changes nothing:
    [set_context] is idempotent, order of the keys included. *)
Lemma set_context_idempotent kwargs c :
  dict_wf kwargs ->
  set_context kwargs (set_context kwargs c) = set_context kwargs c.
Proof.
  intros Hwf. unfold set_context at 1. rewrite set_context_step_fixed.
  - unfold set_context. rewrite get_context_Some. reflexivity.
  - intros k v Hin Hv.
    rewrite get_context_set_context by exact Hwf.
    rewrite (dict_get_elem kwargs k v Hwf Hin), Hv. reflexivity.
Qed.

Lemma set_context_idempotent_witness :
  set_context [("a", VInt 1); ("b", VNone)]
    (set_context [("a", VInt 1); ("b", VNone)]
       (set_context [("b", VInt 2)] default_context))
  = set_context [("a", VInt 1); ("b", VNone)]
      (set_context [("b", VInt 2)] default_context).
Proof.
  apply set_context_idempotent. solve_dict_wf.
Defined.

Lemma Forall_dict_set {V} (P : string * V -> Prop) (d : dict V) k v :
  (forall k', P (k', v)) -> Forall P d -> Forall P (dict_set d k v).
Proof.
  intros Hv. induction d as [|[k' v'] d IH]; cbn [dict_set]; intros H.
  - apply Forall_cons. split; [apply Hv|apply Forall_nil; exact I].
  - apply Forall_cons in H as [H1 H2].
    destruct (String.eqb k' k); apply Forall_cons; split; auto.
Qed.

Lemma Forall_dict_pop {V} (P : string * V -> Prop) (d : dict V) k :
  Forall P d -> Forall P (dict_pop d k).
Proof.
  induction d as [|[k' v'] d IH]; cbn [dict_pop]; intros H; [exact H|].
  apply Forall_cons in H as [H1 H2].
  destruct (String.eqb k' k); [exact H2|].
  apply Forall_cons; split; auto.
Qed.

(** A context that is only ever changed through [set_context],
    [remove_context], [clear_context] and [set_streaming] never holds a
    [None] value and never holds a key twice; [set_context_dict], which
    stores its argument as it is, is the one way to put a [None] in. *)
Lemma context_never_holds_None a c :
  (forall data, a <> ASetContextDict data) ->
  dict_wf (get_context c) ->
  Forall (fun kv => is_None (snd kv) = false) (get_context c) ->
  dict_wf (get_context (on_flow a c))
  /\ Forall (fun kv => is_None (snd kv) = false) (get_context (on_flow a c)).
Proof.
  intros Ha Hwf Hnn.
  destruct a as [kwargs|data|keys| |b|k v| |]; cbn [on_flow]; auto.
  - unfold set_context. rewrite get_context_Some.
    revert Hwf Hnn. generalize (get_context c). clear.
    induction kwargs as [|[k v] kwargs IH]; intros d Hwf Hnn; [auto|].
    cbn [fold_left set_context_step].
    destruct (is_None v) eqn:E; [auto|].
    apply IH; [apply dict_wf_set, Hwf|].
    apply Forall_dict_set; [intros; exact E|exact Hnn].
  - destruct (Ha data eq_refl).
  - destruct keys as [|k0 keys]; [auto|].
    unfold remove_context. rewrite get_context_Some.
    split; [apply dict_wf_pop_all, Hwf|].
    revert Hnn. generalize (get_context c). clear.
    induction (k0 :: keys) as [|k keys' IH]; intros d Hnn; [exact Hnn|].
    cbn [fold_left]. apply IH, Forall_dict_pop, Hnn.
  - split; [apply NoDup_nil; exact I|apply Forall_nil; exact I].
Qed.

Lemma context_never_holds_None_witness :
  dict_wf (get_context
    (on_flow (ASetContext [("a", VNone); ("b", VInt 1)]) default_context))
  /\ Forall (fun kv => is_None (snd kv) = false)
       (get_context
         (on_flow (ASetContext [("a", VNone); ("b", VInt 1)]) default_context)).
Proof.
  apply context_never_holds_None.
  - intros data. discriminate.
  - solve_dict_wf.
  - apply Forall_nil. exact I.
Defined.

(** ** logger.py: when a call raises, and when it does nothing *)

(** With sanitization on, the mapping that the wrapper hands to the
    logger never makes [makeRecord] raise its [KeyError]: whatever the
    keys of [extra] are, reserved names included, the record is built,
    and its extra attributes are the sanitized mapping. *)
Lemma sanitized_extra_makes_record name lvl site msg exc_info extra :
  exists record,
    makeRecord name lvl site msg exc_info (_sanitize_extra true extra)
    = Some record
    /\ rec_dynamic record = default [] (_sanitize_extra true extra).
Proof.
  destruct (_sanitize_extra true extra) as [san|] eqn:E.
  - destruct (makeRecord_sanitized name lvl site msg exc_info extra san E)
      as (r & Hr & Hd & _). exists r. split; [exact Hr|exact Hd].
  - cbn [makeRecord]. eexists. split; reflexivity.
Qed.

Lemma existsb_reserved (keys : list string) :
  existsb (fun k => str_in k _STANDARD_KEYS) keys = false ->
  forall k, k ∈ keys -> str_in k _STANDARD_KEYS = false.
Proof.
  intros H k Hin. destruct (str_in k _STANDARD_KEYS) eqn:E; [|reflexivity].
  assert (existsb (fun k => str_in k _STANDARD_KEYS) keys = true); [|congruence].
  apply existsb_exists. exists k. split; [apply list_elem_of_In, Hin|exact E].
Qed.

(** With sanitization off, a call at one of the levels of the wrapper's
    methods raises exactly when that level is enabled and some key of
    [extra] is a reserved name. *)
Lemma unsanitized_call_raises formatTime name lvl msg exc_info extra
    anc loggers site c w :
  0 < lvl ->
  dict_wf extra ->
  SafeLogger_log formatTime
    {| _logger := name; _sanitize_extra_enabled := false |}
    lvl msg exc_info (Some extra) anc loggers site c w = None
  <-> isEnabledFor anc (getLogger name loggers) lvl = true
      /\ exists k, k ∈ dict_keys extra /\ str_in k _STANDARD_KEYS = true.
Proof.
  intros _ Hwf. unfold SafeLogger_log, Logger_log.
  cbn [_logger _sanitize_extra_enabled].
  destruct (isEnabledFor _ _ _); [|split; [discriminate|intros [? _]; discriminate]].
  destruct extra as [|kv d].
  - cbn [_sanitize_extra makeRecord]. split; [discriminate|].
    intros (_ & k & Hk & _). inversion Hk.
  - rewrite sanitize_extra_cons. cbn [negb].
    destruct (makeRecord name lvl site msg exc_info (Some (kv :: d)))
      as [r|] eqn:E.
    + split; [discriminate|]. intros (_ & k & Hk & Hres).
      apply makeRecord_Some in E as (_ & _ & _ & Hall).
      rewrite (Hall k Hk) in Hres. discriminate.
    + split; [|reflexivity]. intros _. split; [reflexivity|].
      destruct (existsb (fun k => str_in k _STANDARD_KEYS)
                  (dict_keys (kv :: d))) eqn:Hex.
      * apply existsb_exists in Hex as (k & Hin & Hres).
        exists k. split; [apply list_elem_of_In, Hin|exact Hres].
      * exfalso. cbn [makeRecord] in E.
        rewrite makeRecord_extra_ok in E; [discriminate|exact Hwf|].
        intros k Hk. split; [|reflexivity].
        exact (existsb_reserved _ Hex k Hk).
Qed.

Lemma unsanitized_call_raises_witness :
  error fixed_time {| _logger := "app"; _sanitize_extra_enabled := false |}
    "boom" (Some [("user", VStr "u"); ("module", VStr "m")])
    root_only ∅ example_site default_context empty_world = None.
Proof.
  apply (proj2 (unsanitized_call_raises fixed_time "app" 40 "boom" None
                  [("user", VStr "u"); ("module", VStr "m")]
                  root_only ∅ example_site default_context empty_world
                  ltac:(lia) ltac:(solve_dict_wf))).
  split; [reflexivity|].
  exists "module". split; [|reflexivity].
  right. left.
Defined.

(** A call below the configured level does nothing and never raises:
    the world is unchanged, even with sanitization off and a reserved
    key in [extra]. *)
Lemma call_below_level_is_silent formatTime cfg loggers loggers1 sl lvl l
    msg exc_info extra anc site c w :
  configure_logging cfg loggers = Some (loggers1, sl) ->
  _checkLevel (level cfg) = Some lvl ->
  0 < l < lvl ->
  SafeLogger_log formatTime sl l msg exc_info extra anc loggers1 site c w
  = Some w.
Proof.
  intros Hcfg Hlvl Hl.
  apply configure_logging_Some in Hcfg as (lvl' & hs & Hlvl' & _ & -> & ->).
  assert (lvl' = lvl) as -> by congruence.
  unfold SafeLogger_log, Logger_log. cbn [_logger].
  rewrite getLogger_insert. unfold isEnabledFor, getEffectiveLevel.
  cbn [lg_level].
  destruct (Z.eqb_spec lvl 0) as [->|_]; [lia|].
  destruct (Z.leb_spec lvl l); [lia|reflexivity].
Qed.

Lemma call_below_level_is_silent_witness :
  debug fixed_time {| _logger := "app"; _sanitize_extra_enabled := false |}
    "noise" (Some [("module", VStr "m")]) root_only
    (<["app" := {| lg_level := 20; lg_propagate := false;
                   lg_handlers := [console_handler default_config 20;
                                   text_file_handler default_config 20;
                                   json_file_handler default_config 20] |}]> ∅)
    example_site default_context empty_world
  = Some empty_world.
Proof.
  assert (H : configure_logging
                {| level := "INFO"; logger_name := "app";
                   console_enabled := true; console_format := "text";
                   text_file_enabled := true; text_file_path := "logs/app.log";
                   json_file_enabled := true;
                   json_file_path := "logs/app.json.log";
                   rotation_when := "midnight"; rotation_interval := 1;
                   rotation_backup_count := 7; rotation_utc := false;
                   sanitize_extra := false; stream_safe := true;
                   stream_debug := false;
                   datefmt := "%Y-%m-%d %H:%M:%S";
                   text_fmt := "[%(asctime)s] [%(levelname)s] %(message)s";
                   json_ts_key := "ts" |} (∅ : gmap string Logger)
              = Some (<["app" := {| lg_level := 20; lg_propagate := false;
                   lg_handlers := [console_handler default_config 20;
                                   text_file_handler default_config 20;
                                   json_file_handler default_config 20] |}]> ∅,
                      {| _logger := "app"; _sanitize_extra_enabled := false |}))
    by reflexivity.
  exact (call_below_level_is_silent fixed_time _ _ _ _ 20 10 "noise" None
           (Some [("module", VStr "m")]) root_only example_site
           default_context empty_world H eq_refl ltac:(lia)).
Defined.

(** ** logger.py: the shape of a sanitized mapping *)

Lemma last_write_is_Some {V} (items : list (string * V)) k :
  k ∈ items.*1 -> is_Some (last_write items k).
Proof.
  induction items as [|[k' v'] items IH]; csimpl; intros Hk.
  - inversion Hk.
  - destruct (last_write items k) as [w|] eqn:E; [eexists; reflexivity|].
    apply elem_of_cons in Hk as [->|Hk].
    + rewrite String.eqb_refl. eexists; reflexivity.
    + destruct (IH Hk) as [? [=]].
Qed.

Lemma dict_set_length {V} (d : dict V) k v :
  (length d <= length (dict_set d k v) <= S (length d))%nat.
Proof.
  induction d as [|[k' v'] d IH]; cbn [dict_set length]; [lia|].
  destruct (String.eqb k' k); cbn [length]; lia.
Qed.

Lemma dict_update_length {V} (items : list (string * V)) : forall d,
  (length d <= length (dict_update d items) <= length d + length items)%nat.
Proof.
  unfold dict_update.
  induction items as [|[k v] items IH]; intros d; cbn [fold_left length fst snd].
  - lia.
  - pose proof (IH (dict_set d k v)). pose proof (dict_set_length d k v). lia.
Qed.

Lemma sanitize_fresh d : forall acc,
  NoDup (dict_keys acc ++ dict_keys d) ->
  (forall k, k ∈ dict_keys d -> str_in k _STANDARD_KEYS = false) ->
  fold_left sanitize_step d acc = acc ++ d.
Proof.
  unfold dict_keys.
  induction d as [|[k v] d IH]; intros acc Hnd Hres; cbn [fold_left].
  - rewrite app_nil_r. reflexivity.
  - cbn [sanitize_step]. rewrite (Hres k) by (csimpl; left).
    assert (Hk : dict_has acc k = false).
    { destruct (dict_has acc k) eqn:E; [|reflexivity].
      apply dict_has_true in E. apply NoDup_app in Hnd as (_ & Hdis & _).
      destruct (Hdis k E). csimpl. left. }
    rewrite (dict_set_fresh acc k v Hk), IH.
    + rewrite <- app_assoc. reflexivity.
    + rewrite fmap_app. csimpl. rewrite <- app_assoc. exact Hnd.
    + intros k' Hk'. apply Hres. csimpl. right. exact Hk'.
Qed.

(** What [_sanitize_extra] returns it returns unchanged when it is given
    it again: sanitizing is idempotent. *)
Lemma sanitize_extra_idempotent extra san :
  _sanitize_extra true extra = Some san ->
  _sanitize_extra true (Some san) = Some san.
Proof.
  intros H. destruct extra as [[|kv d]|]; try discriminate.
  pose proof (sanitize_extra_no_reserved (kv :: d) san) as Hres.
  specialize (fun k => Hres k H).
  rewrite sanitize_extra_cons in H. cbn [negb] in H.
  assert (Hs : san = dict_update [] (sanitize_writes (kv :: d))) by congruence.
  clear H.
  assert (Hwf : dict_wf san).
  { rewrite Hs. apply dict_wf_update. apply NoDup_nil. exact I. }
  assert (Hlen : (0 < length san)%nat).
  { rewrite Hs. destruct kv as [k v].
    pose proof (dict_update_length (sanitize_writes d) [(sanitized_key k, v)])
      as Hl.
    cbn [length] in Hl. exact (proj1 Hl). }
  clear Hs. destruct san as [|kv' san']; [cbn in Hlen; lia|].
  rewrite sanitize_extra_cons. cbn [negb]. f_equal.
  rewrite <- sanitize_fold. apply (sanitize_fresh (kv' :: san') []).
  - exact Hwf.
  - intros k Hk. destruct (str_in k _STANDARD_KEYS) eqn:E; [|reflexivity].
    specialize (Hres k E). apply dict_get_None in Hres. contradiction.
Qed.

Lemma sanitize_extra_idempotent_witness :
  _sanitize_extra true
    (Some [("name_extra", VInt 2); ("user", VStr "u")])
  = Some [("name_extra", VInt 2); ("user", VStr "u")].
Proof.
  exact (sanitize_extra_idempotent
           (Some [("name", VInt 1); ("name_extra", VInt 2); ("user", VStr "u")])
           [("name_extra", VInt 2); ("user", VStr "u")] eq_refl).
Defined.

(** The sanitized mapping is a mapping (no key twice) with at most as
    many entries as [extra]; every entry carries the value of some entry
    of [extra] under that entry's sanitized name, and the sanitized name
    of every key of [extra] is present.  So sanitizing never invents a
    key or a value, and an entry can only be lost to another entry of
    the same sanitized name. *)
Lemma sanitize_extra_shape extra san :
  _sanitize_extra true (Some extra) = Some san ->
  dict_wf san
  /\ (length san <= length extra)%nat
  /\ (forall k v, dict_get san k = Some v ->
        exists k0, (k0, v) ∈ extra /\ k = sanitized_key k0)
  /\ (forall k0, k0 ∈ dict_keys extra ->
        dict_has san (sanitized_key k0) = true).
Proof.
  intros H. destruct extra as [|kv d]; [discriminate|].
  rewrite sanitize_extra_cons in H. cbn [negb] in H.
  assert (Hs : san = dict_update [] (sanitize_writes (kv :: d))) by congruence.
  clear H. subst san. generalize (kv :: d). clear. intros extra.
  repeat split.
  - apply dict_wf_update. apply NoDup_nil. exact I.
  - pose proof (dict_update_length (sanitize_writes extra) []) as Hl.
    unfold sanitize_writes in Hl at 3. rewrite length_map in Hl.
    exact (proj2 Hl).
  - intros k v Hget. rewrite dict_get_update in Hget. cbn [dict_get] in Hget.
    destruct (last_write (sanitize_writes extra) k) as [w|] eqn:E;
      [|discriminate].
    injection Hget as ->. apply last_write_Some in E.
    unfold sanitize_writes in E. apply list_elem_of_fmap in E as ([k0 v0] & Heq & Hin).
    cbn [fst snd] in Heq. injection Heq as -> ->.
    exists k0. split; [exact Hin|reflexivity].
  - intros k0 Hk0. unfold dict_has. rewrite dict_get_update.
    destruct (last_write_is_Some (sanitize_writes extra) (sanitized_key k0))
      as [w ->]; [|reflexivity].
    unfold dict_keys in Hk0. apply list_elem_of_fmap in Hk0 as ([k1 v1] & -> & Hin).
    apply list_elem_of_fmap. exists (sanitized_key k1, v1). split; [reflexivity|].
    unfold sanitize_writes. apply list_elem_of_fmap. exists (k1, v1). auto.
Qed.

Lemma sanitize_extra_shape_witness :
  dict_wf [("name_extra", VInt 2); ("user", VStr "u")]
  /\ (length [("name_extra", VInt 2); ("user", VStr "u")]
      <= length [("name", VInt 1); ("name_extra", VInt 2); ("user", VStr "u")])%nat.
Proof.
  destruct (sanitize_extra_shape
              [("name", VInt 1); ("name_extra", VInt 2); ("user", VStr "u")]
              [("name_extra", VInt 2); ("user", VStr "u")] eq_refl)
    as (H1 & H2 & _).
  exact (conj H1 H2).
Defined.

(** ** logger.py and handlers.py: configuring *)

(** [configure_logging] on a logger that has handlers already keeps
    them as they are, whatever sinks and formats the new configuration
    asks for; it still sets the level and turns propagation off, and it
    touches no other logger of the registry. *)
Lemma configure_logging_keeps_handlers cfg loggers loggers1 sl :
  configure_logging cfg loggers = Some (loggers1, sl) ->
  lg_handlers (getLogger (logger_name cfg) loggers) <> [] ->
  lg_handlers (getLogger (logger_name cfg) loggers1)
    = lg_handlers (getLogger (logger_name cfg) loggers)
  /\ _checkLevel (level cfg)
     = Some (lg_level (getLogger (logger_name cfg) loggers1))
  /\ lg_propagate (getLogger (logger_name cfg) loggers1) = false
  /\ _sanitize_extra_enabled sl = sanitize_extra cfg
  /\ forall n, n <> logger_name cfg -> loggers1 !! n = loggers !! n.
Proof.
  intros Hcfg Hhs.
  apply configure_logging_Some in Hcfg as (lvl & hs & Hlvl & _ & -> & ->).
  rewrite getLogger_insert. cbn [lg_handlers lg_level lg_propagate].
  repeat split; [|exact Hlvl|].
  - destruct (lg_handlers (getLogger (logger_name cfg) loggers));
      [contradiction|reflexivity].
  - intros n Hn. apply lookup_insert_ne. congruence.
Qed.

Lemma configure_logging_keeps_handlers_witness :
  let old := <["app" := {| lg_level := 20; lg_propagate := false;
                 lg_handlers := [console_handler default_config 20] |}]>
               (∅ : gmap string Logger) in
  lg_handlers (getLogger "app"
     (<["app" := {| lg_level := 10; lg_propagate := false;
                    lg_handlers := [console_handler default_config 20] |}]> old))
  = lg_handlers (getLogger "app" old).
Proof.
  intros old.
  exact (proj1 (configure_logging_keeps_handlers
     {| level := "DEBUG"; logger_name := "app";
        console_enabled := false; console_format := "json";
        text_file_enabled := false; text_file_path := "x.log";
        json_file_enabled := false; json_file_path := "x.json.log";
        rotation_when := "H"; rotation_interval := 2;
        rotation_backup_count := 3; rotation_utc := true;
        sanitize_extra := false; stream_safe := false; stream_debug := true;
        datefmt := "%H:%M"; text_fmt := "%(message)s";
        json_ts_key := "time" |}
     old
     (<["app" := {| lg_level := 10; lg_propagate := false;
                    lg_handlers := [console_handler default_config 20] |}]> old)
     {| _logger := "app"; _sanitize_extra_enabled := false |}
     eq_refl ltac:(discriminate))).
Defined.

(** ** formatters.py: which source wins for a field *)

(** The value of a key in the dictionary that [JsonFormatter.format]
    serializes: the exception text for [exc], else the record's own
    non-standard attribute, else the base field, else the context. *)
Lemma json_data_get ft ts_key dfmt c r k :
  dict_get (json_data ft ts_key dfmt c r) k =
    let from_context :=
      match dict_get (json_base ft ts_key dfmt r) k with
      | Some b => Some b
      | None => _safe_json_value <$> dict_get (get_context c) k
      end in
    let from_record :=
      if str_in k _standard_logrecord_keys || String.eqb k "message"
      then from_context
      else match dict_get (rec_dynamic r) k with
           | Some v => Some (_safe_json_value v)
           | None => from_context
           end in
    match rec_exc_info r with
    | Some ei => if String.eqb "exc" k then Some (VStr ei) else from_record
    | None => from_record
    end.
Proof.
  unfold json_data, json_add_exc. cbv zeta.
  destruct (rec_exc_info r) as [ei|].
  - rewrite dict_get_set, json_add_record_get, json_add_context_get.
    reflexivity.
  - rewrite json_add_record_get, json_add_context_get. reflexivity.
Qed.

Lemma json_base_message ft ts_key dfmt r :
  dict_get (json_base ft ts_key dfmt r) "message" = Some (VStr (rec_msg r))
  /\ dict_get (json_base ft ts_key dfmt r) "module" = Some (VStr (rec_module r)).
Proof.
  unfold json_base. rewrite !dict_get_update. split; reflexivity.
Qed.

(** The [message] and [module] fields of a JSON line are always the
    record's: no extra field, no context key, no timestamp key and no
    exception can replace them. *)
Lemma json_message_module_fixed ft ts_key dfmt c r :
  dict_get (json_data ft ts_key dfmt c r) "message" = Some (VStr (rec_msg r))
  /\ dict_get (json_data ft ts_key dfmt c r) "module"
     = Some (VStr (rec_module r)).
Proof.
  rewrite !json_data_get. cbv zeta.
  destruct (json_base_message ft ts_key dfmt r) as [-> ->].
  destruct (rec_exc_info r); split; reflexivity.
Qed.

(** The ambient context cannot change a base field of the JSON line:
    for a key that the base fields hold, the line is the same under any
    two contexts. *)
Lemma json_context_keeps_base ft ts_key dfmt c c' r k :
  dict_has (json_base ft ts_key dfmt r) k = true ->
  dict_get (json_data ft ts_key dfmt c r) k
  = dict_get (json_data ft ts_key dfmt c' r) k.
Proof.
  unfold dict_has. intros Hb. rewrite !json_data_get. cbv zeta.
  destruct (dict_get (json_base ft ts_key dfmt r) k); [reflexivity|discriminate].
Qed.

Lemma json_context_keeps_base_witness :
  dict_get (json_data fixed_time "ts" "%H"
              (set_context [("level", VStr "ambient")] default_context)
              example_record) "level"
  = dict_get (json_data fixed_time "ts" "%H" default_context example_record)
      "level".
Proof.
  apply json_context_keeps_base. reflexivity.
Defined.

(** A context key that is no base field and that the record does not
    carry itself reaches the JSON line with its value made safe, also
    when its name is one of the reserved names other than [message]. *)
Lemma json_context_field ft ts_key dfmt c r k v :
  dict_get (get_context c) k = Some v ->
  dict_has (json_base ft ts_key dfmt r) k = false ->
  dict_get (rec_dynamic r) k = None ->
  k <> "exc" ->
  dict_get (json_data ft ts_key dfmt c r) k = Some (_safe_json_value v).
Proof.
  unfold dict_has. intros Hc Hb Hr Hk. rewrite json_data_get. cbv zeta.
  rewrite Hc, Hr.
  destruct (dict_get (json_base ft ts_key dfmt r) k); [discriminate|].
  assert (He : String.eqb "exc" k = false) by (apply String.eqb_neq; congruence).
  rewrite He. cbn [fmap option_fmap option_map].
  destruct (rec_exc_info r), (_ || _); reflexivity.
Qed.

Lemma json_context_field_witness :
  dict_get (json_data fixed_time "ts" "%H"
              (set_context [("levelname", VObj (PyObj (Some "lvl") None))]
                 default_context)
              example_record) "levelname"
  = Some (VStr "lvl").
Proof.
  exact (json_context_field fixed_time "ts" "%H"
           (set_context [("levelname", VObj (PyObj (Some "lvl") None))]
              default_context)
           example_record "levelname" (VObj (PyObj (Some "lvl") None))
           eq_refl eq_refl eq_refl ltac:(discriminate)).
Defined.

(** The fields of the tail of a text line: a key that the record
    carries beyond its standard attributes has the record's value, every
    other key has the value of the context, also when its name is a
    standard attribute, [message] or [asctime]. *)
Lemma text_extras_priority ctx r k :
  dict_get (text_extras ctx r) k =
    if str_in k _standard_logrecord_keys || str_in k ["message"; "asctime"]
    then dict_get ctx k
    else match dict_get (rec_dynamic r) k with
         | Some v => Some v
         | None => dict_get ctx k
         end.
Proof.
  unfold text_extras. rewrite text_extras_get, text_record_extras_get.
  destruct (_ || _); reflexivity.
Qed.

(** ** formatters.py: the text line *)

Lemma opt_all_None {A} (l : list (option A)) :
  opt_all l = None -> None ∈ l.
Proof.
  induction l as [|[x|] l IH]; cbn [opt_all]; [discriminate| |left].
  destruct (opt_all l); [discriminate|]. intros _. right. auto.
Qed.

(** [TextFormatter.format] raises exactly when the format string cannot
    be filled in or when [str] raises on the value of one of the fields of the
    tail. *)
Lemma text_format_fails_iff ft fmt dfmt c r :
  fst (TextFormatter_format ft fmt dfmt c r) = None
  <-> fst (Formatter_format ft fmt dfmt r) = None
      \/ exists k v,
           dict_get (text_extras (get_context c)
                       (snd (Formatter_format ft fmt dfmt r))) k = Some v
           /\ py_str v = None.
Proof.
  unfold TextFormatter_format.
  destruct (Formatter_format ft fmt dfmt r) as [[base|] r']; cbn [fst snd].
  2:{ split; auto. }
  remember (text_extras (get_context c) r') as extras eqn:E. clear E.
  destruct extras as [|kv extras'].
  { cbn [fst]. split; [discriminate|].
    intros [|(k & v & Hk & _)]; discriminate. }
  remember (kv :: extras') as extras eqn:E. clear E.
  unfold text_tail.
  destruct (opt_all (map (text_field extras) (sorted (dict_keys extras))))
    as [fields|] eqn:Hall; cbn [fst].
  - split; [discriminate|]. intros [|(k & v & Hk & Hv)]; [discriminate|].
    exfalso.
    assert (Hin : k ∈ sorted (dict_keys extras)).
    { apply sorted_elem. apply dict_has_true. unfold dict_has. rewrite Hk.
      reflexivity. }
    assert (Hsome : is_Some (opt_all (map (text_field extras)
                                        (sorted (dict_keys extras)))))
      by (rewrite Hall; eexists; reflexivity).
    apply opt_all_is_Some in Hsome. rewrite Forall_forall in Hsome.
    destruct (Hsome (text_field extras k)) as [f Hf].
    + apply list_elem_of_fmap. exists k. auto.
    + unfold text_field in Hf. rewrite Hk, Hv in Hf. discriminate.
  - split; [|reflexivity]. intros _. right.
    apply opt_all_None in Hall.
    apply list_elem_of_fmap in Hall as (k & Hf & Hin).
    apply sorted_elem, dict_has_true in Hin. unfold dict_has in Hin.
    unfold text_field in Hf.
    destruct (dict_get extras k) as [v|] eqn:Hd; [|discriminate].
    exists k, v. split; [exact Hd|].
    destruct (py_str v); [discriminate|reflexivity].
Qed.

Lemma insert_sorted_Permutation k l : insert_sorted k l ≡ₚ k :: l.
Proof.
  induction l as [|x l IH]; cbn [insert_sorted]; [reflexivity|].
  destruct (String.leb k x); [reflexivity|].
  rewrite IH. apply Permutation_swap.
Qed.

Lemma sorted_Permutation l : sorted l ≡ₚ l.
Proof.
  induction l as [|k l IH]; cbn [sorted fold_right]; [reflexivity|].
  rewrite insert_sorted_Permutation. fold (sorted l). rewrite IH. reflexivity.
Qed.

Lemma insert_sorted_Sorted k l :
  Sorted (fun a b => String.leb a b = true) l ->
  Sorted (fun a b => String.leb a b = true) (insert_sorted k l).
Proof.
  induction l as [|x l IH]; cbn [insert_sorted]; intros Hs.
  - repeat constructor.
  - destruct (String.leb k x) eqn:E.
    + constructor; [exact Hs|constructor; exact E].
    + apply Sorted_inv in Hs as [Hs Hhd]. constructor; [auto|].
      assert (Hxk : String.leb x k = true)
        by (destruct (String.leb_total x k); congruence).
      destruct l as [|y l]; cbn [insert_sorted].
      * constructor. exact Hxk.
      * destruct (String.leb k y); constructor; [exact Hxk|].
        apply HdRel_inv in Hhd. exact Hhd.
Qed.

Lemma sorted_Sorted l : Sorted (fun a b => String.leb a b = true) (sorted l).
Proof.
  induction l as [|k l IH]; cbn [sorted fold_right]; [constructor|].
  apply insert_sorted_Sorted, IH.
Qed.

(** The tail of a text line is the separator followed by one [k=v]
    field for every key, each key once, in ascending order of the keys,
    the fields joined by single spaces. *)
Lemma text_tail_sorted extras tail :
  text_tail extras = Some tail ->
  exists keys fields,
    tail = " | " +:+ String.concat " " fields
    /\ keys ≡ₚ dict_keys extras
    /\ Sorted (fun a b => String.leb a b = true) keys
    /\ Forall2 (fun k f => exists v s, dict_get extras k = Some v
                                     /\ py_str v = Some s
                                     /\ f = k +:+ "=" +:+ s) keys fields.
Proof.
  unfold text_tail.
  destruct (opt_all _) as [fields|] eqn:Hall; [|discriminate].
  intros [= <-]. exists (sorted (dict_keys extras)), fields.
  split; [reflexivity|]. split; [apply sorted_Permutation|].
  split; [apply sorted_Sorted|].
  apply opt_all_map_Forall2 in Hall.
  eapply Forall2_impl; [exact Hall|]. cbn beta. intros k f Hf.
  unfold text_field in Hf.
  destruct (dict_get extras k) as [v|] eqn:Hd; [|discriminate].
  destruct (py_str v) as [s|] eqn:Hs; [|discriminate].
  injection Hf as <-. exists v, s. auto.
Qed.

Lemma text_tail_sorted_witness :
  exists keys fields,
    " | a=x b=1" = " | " +:+ String.concat " " fields
    /\ keys ≡ₚ dict_keys [("b", VInt 1); ("a", VStr "x")]
    /\ Sorted (fun a b => String.leb a b = true) keys
    /\ Forall2 (fun k f => exists v s,
                  dict_get [("b", VInt 1); ("a", VStr "x")] k = Some v
                  /\ py_str v = Some s
                  /\ f = k +:+ "=" +:+ s) keys fields.
Proof.
  exact (text_tail_sorted [("b", VInt 1); ("a", VStr "x")] " | a=x b=1" eq_refl).
Defined.

Lemma dict_all_None {V} (d : dict V) :
  (forall k, dict_get d k = None) -> d = [].
Proof.
  destruct d as [|[k v] d]; [reflexivity|]. intros H. specialize (H k).
  cbn [dict_get] in H. rewrite String.eqb_refl in H. discriminate.
Qed.

(** Without extra fields and with an empty context the text line is the
    line of the standard formatter: no separator is appended. *)
Lemma text_line_without_fields ft fmt dfmt c r :
  rec_dynamic r = [] ->
  get_context c = [] ->
  TextFormatter_format ft fmt dfmt c r = Formatter_format ft fmt dfmt r.
Proof.
  intros Hr Hc. unfold TextFormatter_format.
  destruct (Formatter_format ft fmt dfmt r) as [[base|] r'] eqn:E;
    [|reflexivity].
  rewrite Hc. rewrite (dict_all_None (text_extras [] r')); [reflexivity|].
  intros k. rewrite text_extras_priority. cbn [dict_get].
  destruct (str_in k _standard_logrecord_keys) eqn:E1; [reflexivity|].
  destruct (str_in k ["message"; "asctime"]) eqn:E2; [reflexivity|].
  cbn [orb].
  rewrite (Formatter_format_dynamic ft fmt dfmt r (Some base) r' k E E2), Hr.
  reflexivity.
Qed.

Lemma text_line_without_fields_witness :
  TextFormatter_format fixed_time "[%(levelname)s] %(message)s" "%H"
    default_context example_record
  = Formatter_format fixed_time "[%(levelname)s] %(message)s" "%H"
      example_record.
Proof.
  exact (text_line_without_fields fixed_time "[%(levelname)s] %(message)s"
           "%H" default_context example_record eq_refl eq_refl).
Defined.

(** ** formatters.py: the JSON line *)

Lemma Formatter_format_asctime ft fmt dfmt r o r' :
  Formatter_format ft fmt dfmt r = (o, r') ->
  usesTime fmt = true ->
  dict_get (rec_dynamic r') "asctime" = Some (VStr (ft (rec_created r) dfmt)).
Proof.
  unfold Formatter_format. intros H Ht. rewrite Ht in H.
  set (r2 := set_dynamic _ "asctime" _) in H.
  assert (H2 : dict_get (rec_dynamic r2) "asctime"
               = Some (VStr (ft (rec_created r) dfmt))).
  { subst r2. unfold set_dynamic at 1. cbn [rec_dynamic with_dynamic].
    rewrite dict_get_set_eq. reflexivity. }
  destruct (percent_format fmt (record_attr r2)) as [s|].
  - injection H as _ <-.
    repeat match goal with
           | |- context [match ?x with _ => _ end] => destruct x
           end; exact H2.
  - injection H as _ <-. exact H2.
Qed.

(** A record that a text formatter with [%(asctime)s] in its format has
    handled carries the attribute [asctime], and a JSON formatter that
    handles the same record afterwards writes it as a field of its own,
    with the time text of the text formatter; on a fresh record the JSON
    line has no such field. *)
Lemma json_asctime_leak ft fmt dfmt ts_key dfmt' c
    name lvl site msg exc_info extra r o r' :
  makeRecord name lvl site msg exc_info extra = Some r ->
  Formatter_format ft fmt dfmt r = (o, r') ->
  usesTime fmt = true ->
  ts_key <> "asctime" ->
  dict_get (get_context c) "asctime" = None ->
  dict_get (json_data ft ts_key dfmt' c r) "asctime" = None
  /\ dict_get (json_data ft ts_key dfmt' c r') "asctime"
     = Some (VStr (ft (cs_created site) dfmt)).
Proof.
  intros Hmk Hfmt Ht Hts Hc.
  assert (Hcreated : rec_created r = cs_created site
                     /\ dict_get (rec_dynamic r) "asctime" = None).
  { destruct extra as [e|].
    - pose proof (makeRecord_Some _ _ _ _ _ _ _ Hmk) as (Hd & _ & _ & Hres).
      cbn [makeRecord] in Hmk.
      apply makeRecord_extra_Some in Hmk as (-> & _). split; [reflexivity|].
      cbn [rec_dynamic with_dynamic app].
      destruct (dict_get e "asctime") eqn:E; [|reflexivity].
      assert (Hin : "asctime" ∈ dict_keys e).
      { apply dict_has_true. unfold dict_has. rewrite E. reflexivity. }
      specialize (Hres _ Hin). discriminate.
    - injection Hmk as <-. split; reflexivity. }
  destruct Hcreated as [Hcr Hdyn].
  assert (Hbase : forall rr,
            dict_get (json_base ft ts_key dfmt' rr) "asctime" = None).
  { intros rr. unfold json_base. rewrite dict_get_update.
    cbn [last_write dict_get].
    destruct (String.eqb_spec ts_key "asctime"); [contradiction|reflexivity]. }
  rewrite !json_data_get. cbv zeta. rewrite !Hbase, Hc, Hdyn.
  rewrite (Formatter_format_asctime ft fmt dfmt r o r' Hfmt Ht), Hcr.
  split.
  - destruct (rec_exc_info r); reflexivity.
  - destruct (rec_exc_info r'); reflexivity.
Qed.

Lemma json_asctime_leak_witness :
  dict_get (json_data fixed_time "ts" "%H" default_context example_record)
    "asctime" = None
  /\ dict_get (json_data fixed_time "ts" "%H" default_context
       (snd (Formatter_format fixed_time "[%(asctime)s] %(message)s" "%M"
               example_record))) "asctime"
     = Some (VStr (fixed_time 0 "%M")).
Proof.
  exact (json_asctime_leak fixed_time "[%(asctime)s] %(message)s" "%M" "ts"
           "%H" default_context "app" 20 example_site "hello" None None
           example_record _ _ eq_refl eq_refl eq_refl ltac:(discriminate)
           eq_refl).
Defined.

Lemma fold_left_invariant {A B} (P : A -> Prop) (step : A -> B -> A) l :
  (forall a b, P a -> P (step a b)) ->
  forall a, P a -> P (fold_left step l a).
Proof.
  intros Hstep. induction l as [|b l IH]; intros a Ha; [exact Ha|].
  cbn [fold_left]. apply IH, Hstep, Ha.
Qed.

Lemma dict_keys_set_prefix {V} (d : dict V) k v pre :
  (exists rest, dict_keys d = pre ++ rest) ->
  exists rest, dict_keys (dict_set d k v) = pre ++ rest.
Proof.
  intros [rest Hd]. rewrite dict_keys_set, Hd.
  destruct (dict_has d k); [exists rest; reflexivity|].
  exists (rest ++ [k]). rewrite app_assoc. reflexivity.
Qed.

(** The object of a JSON line has no key twice, and its first fields are
    the base fields, in their order; the fields of the context, of the
    record and of the exception follow. *)
Lemma json_data_keys ft ts_key dfmt c r :
  dict_wf (json_data ft ts_key dfmt c r)
  /\ exists rest,
       dict_keys (json_data ft ts_key dfmt c r)
       = dict_keys (json_base ft ts_key dfmt r) ++ rest.
Proof.
  set (P := fun d : dict value =>
              dict_wf d /\ exists rest,
                dict_keys d = dict_keys (json_base ft ts_key dfmt r) ++ rest).
  assert (Hset : forall d k v, P d -> P (dict_set d k v)).
  { intros d k v [Hwf Hpre]. split; [apply dict_wf_set, Hwf|].
    apply dict_keys_set_prefix, Hpre. }
  change (P (json_data ft ts_key dfmt c r)).
  unfold json_data, json_add_exc, json_add_record, json_add_context.
  assert (H0 : P (json_base ft ts_key dfmt r)).
  { split.
    - unfold json_base. apply dict_wf_update. apply NoDup_nil. exact I.
    - exists []. rewrite app_nil_r. reflexivity. }
  assert (H1 : P (fold_left (fun data kv =>
      if dict_has data (fst kv) then data
      else dict_set data (fst kv) (_safe_json_value (snd kv)))
    (get_context c) (json_base ft ts_key dfmt r))).
  { apply fold_left_invariant; [|exact H0].
    intros d kv Hd. destruct (dict_has d (fst kv)); auto. }
  match goal with
  | |- P (match _ with Some _ => dict_set ?d _ _ | None => _ end) =>
      assert (H2 : P d)
  end.
  { apply fold_left_invariant; [|exact H1].
    intros d k Hd. destruct (_ || _); [exact Hd|].
    destruct (record_attr r k); auto. }
  destruct (rec_exc_info r); auto.
Qed.

Lemma str_has_app ch a b : str_has ch (a +:+ b) = str_has ch a || str_has ch b.
Proof.
  induction a as [|c a IH]; [reflexivity|].
  rewrite append_cons. cbn [str_has]. rewrite IH, orb_assoc. reflexivity.
Qed.

Lemma str_has_concat ch sep l :
  str_has ch sep = false ->
  Forall (fun x => str_has ch x = false) l ->
  str_has ch (String.concat sep l) = false.
Proof.
  intros Hsep. induction l as [|x l IH]; intros Hl; [reflexivity|].
  apply Forall_cons in Hl as [Hx Hl]. cbn [String.concat].
  destruct l as [|y l]; [exact Hx|].
  rewrite !str_has_app, Hx, Hsep. cbn [orb]. apply IH, Hl.
Qed.

Lemma control_differs ch c :
  is_control ch = true -> is_control c = false -> Ascii.eqb ch c = false.
Proof.
  intros Hch Hc. destruct (Ascii.eqb_spec ch c) as [->|]; congruence.
Qed.

Lemma hex_digit_printable n : is_control (hex_digit n) = false.
Proof. do 16 (destruct n as [|n]; [reflexivity|]). reflexivity. Qed.

(** Compares a control character with the characters of a literal. *)
Ltac no_control_step H :=
  cbn [str_has str1];
  repeat match goal with
         | |- context [Ascii.eqb ?ch ?c] =>
             rewrite (control_differs ch c H
                        ltac:(first [apply hex_digit_printable | reflexivity]))
         end.

Ltac no_control_literal H := no_control_step H; reflexivity.

Lemma json_escape_char_printable ch c :
  is_control ch = true -> str_has ch (json_escape_char c) = false.
Proof.
  intros H. unfold json_escape_char.
  repeat match goal with
         | |- context [if Ascii.eqb c ?x then _ else _] =>
             destruct (Ascii.eqb c x); [no_control_literal H|]
         end.
  destruct (is_control c) eqn:Hc.
  - rewrite ?str_has_app. unfold hex2. no_control_literal H.
  - cbn [str1 str_has]. rewrite (control_differs ch c H Hc). reflexivity.
Qed.

Lemma json_quote_printable ch s :
  is_control ch = true -> str_has ch (json_quote s) = false.
Proof.
  intros H. unfold json_quote. no_control_step H.
  rewrite str_has_app. cbn [orb].
  assert (Hs : str_has ch (str_flat_map json_escape_char s) = false).
  { induction s as [|c s IH]; [reflexivity|]. cbn [str_flat_map].
    rewrite str_has_app, IH, (json_escape_char_printable ch c H). reflexivity. }
  rewrite Hs. no_control_literal H.
Qed.

Lemma string_of_uint_printable ch u :
  is_control ch = true -> str_has ch (NilEmpty.string_of_uint u) = false.
Proof.
  intros H. induction u; cbn [NilEmpty.string_of_uint];
    no_control_step H; rewrite ?IHu; reflexivity.
Qed.

Lemma Z_to_string_printable ch z :
  is_control ch = true -> str_has ch (Z_to_string z) = false.
Proof.
  intros H. unfold Z_to_string, NilEmpty.string_of_int.
  destruct (Z.to_int z); no_control_step H;
    apply string_of_uint_printable, H.
Qed.

Lemma floatstr_printable ch f :
  is_control ch = true -> str_has ch (floatstr f) = false.
Proof.
  intros H.
  destruct f as [|[|]|[|] i [d|[d|] e]]; try (no_control_literal H).
  all: cbn [floatstr float_repr form_text]; unfold frac_text, exp_text.
  all: try destruct (e <? 0).
  all: rewrite ?str_has_app, ?(string_of_uint_printable ch _ H).
  all: no_control_literal H.
Qed.

Lemma json_dumps_printable ch v :
  is_control ch = true ->
  forall t, json_dumps v = Some t -> str_has ch t = false.
Proof.
  intros H.
  induction v as [| [|] | z | s | l IH | d IH | o | f] using value_ind';
    intros t; cbn [json_dumps].
  - intros [= <-]. no_control_literal H.
  - intros [= <-]. no_control_literal H.
  - intros [= <-]. no_control_literal H.
  - intros [= <-]. apply Z_to_string_printable, H.
  - intros [= <-]. apply json_quote_printable, H.
  - destruct (opt_all (map json_dumps l)) as [items|] eqn:Hall; [|discriminate].
    intros [= <-]. apply opt_all_map_Forall2 in Hall.
    rewrite !str_has_app, str_has_concat.
    + no_control_literal H.
    + no_control_literal H.
    + clear -IH Hall. induction Hall as [|x y xs ys Hxy Hall IH2].
      * apply Forall_nil. exact I.
      * apply Forall_cons in IH as [IHx IHxs].
        apply Forall_cons. split; [apply IHx, Hxy|auto].
  - set (f := fun kv : string * value =>
               match json_dumps (snd kv) with
               | Some j => Some (json_quote (fst kv) +:+ ": " +:+ j)
               | None => None
               end).
    destruct (opt_all (map f d)) as [items|] eqn:Hall; [|discriminate].
    intros [= <-]. apply opt_all_map_Forall2 in Hall.
    rewrite !str_has_app, str_has_concat.
    + no_control_literal H.
    + no_control_literal H.
    + clear -IH Hall H. induction Hall as [|x y xs ys Hxy Hall IH2].
      * apply Forall_nil. exact I.
      * apply Forall_cons in IH as [IHx IHxs].
        apply Forall_cons. split; [|auto].
        unfold f in Hxy. destruct (json_dumps (snd x)) as [j|] eqn:Hj;
          [|discriminate].
        injection Hxy as <-.
        rewrite !str_has_app, (json_quote_printable ch (fst x) H),
          (IHx j eq_refl).
        no_control_literal H.
  - discriminate.
  - intros [= <-]. apply floatstr_printable, H.
Qed.

(** [JsonFormatter.format] always returns, and its text holds no raw
    control character, in particular no line break: whatever the
    message, the fields and the traceback are, one record is one line of
    the JSON log. *)
Lemma json_line_is_one_line ft ts_key dfmt c r :
  exists line,
    JsonFormatter_format ft ts_key dfmt c r = Some line
    /\ forall ch, is_control ch = true -> str_has ch line = false.
Proof.
  destruct (JsonFormatter_format_total ft ts_key dfmt c r) as [line Hline].
  exists line. split; [exact Hline|]. intros ch Hch.
  exact (json_dumps_printable ch _ Hch line Hline).
Qed.

(** ** context.py: what [get_context] hands out *)

Section FlowCopies.
Local Open Scope nat_scope.
Import Flows.

(** [get_context()] returns a new dictionary object with the content of
    the flow's context: no context variable of any flow refers to it, so
    writing into it changes what no flow observes, the caller included. *)
Lemma get_context_returns_copy k v f rt g :
  wf rt ->
  heap (snd (Flows.get_context f rt)) !! fst (Flows.get_context f rt)
    = Some (stored rt f)
  /\ (forall h ctx, flows rt !! h = Some ctx ->
        cv_log_context ctx <> Some (fst (Flows.get_context f rt)))
  /\ observe (mutate_copy k v f rt) g = observe rt g.
Proof.
  intros Hwf. rewrite get_context_alloc. unfold alloc. cbn [fst snd heap].
  split; [apply list_lookup_middle; reflexivity|]. split.
  - intros h ctx Hh Hl. specialize (Hwf h ctx _ Hh Hl). lia.
  - rewrite mutate_copy_closed. unfold observe. cbn [flows].
    destruct (flows rt !! g) as [ctx|] eqn:Hg; [|reflexivity]. cbn.
    rewrite (deref_grow rt
               {| heap := heap rt ++ [dict_set (stored rt f) k v];
                  flows := flows rt |}
               [dict_set (stored rt f) k v] ctx g Hwf Hg eq_refl).
    reflexivity.
Qed.

Lemma get_context_returns_copy_witness :
  heap (snd (Flows.get_context 0 example_runtime))
    !! fst (Flows.get_context 0 example_runtime)
  = Some [("request_id", VStr "r-1")]
  /\ observe (mutate_copy "request_id" (VStr "forged") 0 example_runtime) 0
     = observe example_runtime 0.
Proof.
  destruct (get_context_returns_copy "request_id" (VStr "forged") 0
              example_runtime 0 example_runtime_wf) as (H1 & _ & H3).
  exact (conj H1 H3).
Defined.
End FlowCopies.

(** ** config.py: what the environment can and cannot do *)

Section ConfigFacts.
Variable str_upper str_lower str_strip : string -> string.
Variable int_of_str : string -> option Z.

Lemma load_config_Some environ cfg :
  load_config str_upper str_lower str_strip int_of_str environ = Some cfg ->
  str_in (level cfg) ["DEBUG"; "INFO"; "WARNING"; "ERROR"; "CRITICAL"] = true
  /\ str_in (console_format cfg) ["text"; "json"] = true.
Proof.
  unfold load_config.
  destruct (int_of_str (_get_env environ "LOG_ROTATION_INTERVAL" "1"));
    [|discriminate].
  destruct (int_of_str (_get_env environ "LOG_ROTATION_BACKUP" "7"));
    [|discriminate].
  cbn [mbind option_bind]. intros [= <-]. cbn [level console_format].
  split.
  - destruct (str_in (str_upper _) _) eqn:E; [exact E|reflexivity].
  - destruct (str_in (str_lower _) _) eqn:E; [exact E|reflexivity].
Qed.

Lemma checkLevel_config_names lvl :
  str_in lvl ["DEBUG"; "INFO"; "WARNING"; "ERROR"; "CRITICAL"] = true ->
  is_Some (_checkLevel lvl).
Proof.
  intros H. apply str_in_true in H.
  repeat (apply elem_of_cons in H as [->|H]; [eexists; reflexivity|]).
  inversion H.
Qed.

(** Whatever the environment holds, the level that [load_config] returns
    is one of the five level names, which [setLevel] accepts, and the
    console format is [text] or [json]: an unknown value of either
    setting is replaced by its default, never passed on. *)
Lemma load_config_valid environ cfg :
  load_config str_upper str_lower str_strip int_of_str environ = Some cfg ->
  str_in (level cfg) ["DEBUG"; "INFO"; "WARNING"; "ERROR"; "CRITICAL"] = true
  /\ is_Some (_checkLevel (level cfg))
  /\ str_in (console_format cfg) ["text"; "json"] = true.
Proof.
  intros H. destruct (load_config_Some environ cfg H) as [Hl Hf].
  repeat split; auto. apply checkLevel_config_names, Hl.
Qed.

(** [load_config] raises exactly when one of the two rotation numbers
    is not an integer literal; no other variable of the environment can
    make it fail. *)
Lemma load_config_fails_iff environ :
  load_config str_upper str_lower str_strip int_of_str environ = None
  <-> int_of_str (_get_env environ "LOG_ROTATION_INTERVAL" "1") = None
      \/ int_of_str (_get_env environ "LOG_ROTATION_BACKUP" "7") = None.
Proof.
  unfold load_config.
  destruct (int_of_str (_get_env environ "LOG_ROTATION_INTERVAL" "1"));
    [|split; [intros _; left; reflexivity|reflexivity]].
  destruct (int_of_str (_get_env environ "LOG_ROTATION_BACKUP" "7"));
    [|split; [intros _; right; reflexivity|reflexivity]].
  cbn [mbind option_bind]. split; [discriminate|].
  intros [|]; discriminate.
Qed.

Lemma get_env_unset (environ : gmap string string) name default :
  environ !! name = None \/ environ !! name = Some EmptyString ->
  _get_env environ name default = default.
Proof. unfold _get_env. intros [->| ->]; reflexivity. Qed.

(** With no boolean setting in the environment and every text setting
    unset or empty, [load_config] returns the default configuration: an
    empty value of a text setting counts as unset. *)
Lemma load_config_defaults environ :
  str_upper "INFO" = "INFO" ->
  str_lower "text" = "text" ->
  int_of_str "1" = Some 1 ->
  int_of_str "7" = Some 7 ->
  (forall name, name ∈ bool_settings -> environ !! name = None) ->
  (forall name, name ∈ text_settings ->
     environ !! name = None \/ environ !! name = Some EmptyString) ->
  load_config str_upper str_lower str_strip int_of_str environ
  = Some default_config.
Proof.
  intros Hup Hlo H1 H7 Hb Ht. unfold load_config.
  rewrite !get_env_unset by (apply Ht; apply str_in_true; reflexivity).
  rewrite !Hb by (apply str_in_true; reflexivity).
  rewrite Hup, Hlo, H1, H7. reflexivity.
Qed.

End ConfigFacts.

Lemma load_config_valid_witness :
  str_in "WARNING" ["DEBUG"; "INFO"; "WARNING"; "ERROR"; "CRITICAL"] = true
  /\ str_in "text" ["text"; "json"] = true.
Proof.
  assert (H : load_config ascii_upper ascii_lower ascii_strip decimal_int
              (<["LOG_LEVEL" := "warning"]>
                 (<["LOG_CONSOLE_FORMAT" := "yaml"]> (∅ : gmap string string)))
            = Some {| level := "WARNING"; logger_name := "app";
                 console_enabled := true; console_format := "text";
                 text_file_enabled := true; text_file_path := "logs/app.log";
                 json_file_enabled := true;
                 json_file_path := "logs/app.json.log";
                 rotation_when := "midnight"; rotation_interval := 1;
                 rotation_backup_count := 7; rotation_utc := false;
                 sanitize_extra := true; stream_safe := true;
                 stream_debug := false;
                 datefmt := "%Y-%m-%d %H:%M:%S";
                 text_fmt := "[%(asctime)s] [%(levelname)s] %(message)s";
                 json_ts_key := "ts" |}) by (vm_compute; reflexivity).
  destruct (load_config_valid ascii_upper ascii_lower ascii_strip decimal_int
              _ _ H) as (H1 & _ & H2).
  exact (conj H1 H2).
Defined.

Lemma load_config_defaults_witness :
  load_config ascii_upper ascii_lower ascii_strip decimal_int
    (<["LOG_LEVEL" := ""]> (<["OTHER" := "x"]> ∅))
  = Some default_config.
Proof.
  apply load_config_defaults.
  - reflexivity.
  - reflexivity.
  - reflexivity.
  - reflexivity.
  - intros name Hn. apply str_in_true in Hn.
    unfold bool_settings, str_in in Hn. cbn [existsb] in Hn.
    repeat (apply orb_prop in Hn as [Hn|Hn];
            [apply String.eqb_eq in Hn as ->; vm_compute; reflexivity|]).
    discriminate.
  - intros name Hn. apply str_in_true in Hn.
    unfold text_settings, str_in in Hn. cbn [existsb] in Hn.
    repeat (apply orb_prop in Hn as [Hn|Hn];
            [apply String.eqb_eq in Hn as ->;
             first [left; vm_compute; reflexivity
                   | right; vm_compute; reflexivity]|]).
    discriminate.
Defined.

(** ** main.py: verify_signature *)

Lemma split_on_nonempty sep s : split_on sep s <> [].
Proof.
  destruct s as [|c s]; cbn [split_on]; [discriminate|].
  destruct (Ascii.eqb c sep); [discriminate|].
  destruct (split_on sep s); discriminate.
Qed.

(** Splitting at a separator and joining with it gives the text back. *)
Lemma split_on_join sep s : String.concat (str1 sep) (split_on sep s) = s.
Proof.
  induction s as [|c s IH]; [reflexivity|]. cbn [split_on].
  pose proof (split_on_nonempty sep s) as Hne.
  destruct (Ascii.eqb_spec c sep) as [->|_].
  - destruct (split_on sep s) as [|x xs]; [contradiction|].
    cbn [String.concat] in *. rewrite IH. reflexivity.
  - destruct (split_on sep s) as [|x xs]; [contradiction|].
    cbn [String.concat] in *. destruct xs as [|y ys].
    + rewrite IH. reflexivity.
    + rewrite append_cons, IH. reflexivity.
Qed.

Lemma split_on_none sep s :
  str_has sep s = false -> split_on sep s = [s].
Proof.
  induction s as [|c s IH]; [reflexivity|]. cbn [str_has split_on].
  rewrite Ascii.eqb_sym. destruct (Ascii.eqb c sep); [discriminate|].
  cbn [orb]. intros H. rewrite (IH H). reflexivity.
Qed.

Lemma split_on_prefix sep a b :
  str_has sep a = false ->
  split_on sep (a +:+ String sep b)
  = match split_on sep b with x :: xs => a :: x :: xs | [] => [a] end.
Proof.
  induction a as [|c a IH]; cbn [str_has]; intros H.
  - rewrite append_nil_l. cbn [split_on]. rewrite Ascii.eqb_refl.
    destruct (split_on sep b) eqn:E; [|reflexivity].
    destruct (split_on_nonempty sep b E).
  - rewrite append_cons. cbn [split_on]. rewrite (Ascii.eqb_sym sep c) in H.
    destruct (Ascii.eqb c sep); [discriminate|]. cbn [orb] in H.
    rewrite (IH H). destruct (split_on sep b); reflexivity.
Qed.


Lemma hex_is_plain s :
  str_forall is_hex_char s = true ->
  isascii s = true /\ str_has "=" s = false.
Proof.
  unfold isascii. induction s as [|c s IH]; [split; reflexivity|].
  cbn [str_forall str_has]. intros [Hc Hs]%andb_prop.
  destruct (IH Hs) as [-> ->]. unfold is_hex_char in Hc. cbn [str_has] in Hc.
  repeat (apply orb_prop in Hc as [Hc|Hc];
          [apply Ascii.eqb_eq in Hc as ->; split; reflexivity|]).
  discriminate.
Qed.

Section SignatureFacts.
Variable hmac_sha256_hexdigest : string -> string -> string.
Variable WEBHOOK_SECRET : option string.
Hypothesis hexdigest_hex :
  forall key msg, str_forall is_hex_char (hmac_sha256_hexdigest key msg) = true.

(** [verify_signature] accepts a request exactly when a secret is
    configured and the header is [sha256=] followed by the digest of the
    body under that secret. *)
Lemma verify_signature_accepts body signature :
  verify_signature hmac_sha256_hexdigest WEBHOOK_SECRET body signature
    = Some true
  <-> exists secret,
        WEBHOOK_SECRET = Some secret
        /\ signature
           = Some ("sha256=" +:+ hmac_sha256_hexdigest secret body).
Proof.
  unfold verify_signature. split.
  - destruct signature as [[|c0 s0]|]; try discriminate.
    remember (String c0 s0) as s eqn:Es. clear Es.
    pose proof (split_on_join "=" s) as Hjoin.
    destruct (split_on "=" s) as [|sha [|received [|z zs]]]; try discriminate.
    destruct (String.eqb_spec sha "sha256") as [->|_]; [|discriminate].
    cbn [negb]. destruct WEBHOOK_SECRET as [secret|]; [|discriminate].
    cbn [mbind option_bind]. unfold compare_digest.
    destruct (_ && _); [|discriminate]. intros [= Heq].
    apply String.eqb_eq in Heq as <-. exists secret. split; [reflexivity|].
    rewrite <- Hjoin. reflexivity.
  - intros (secret & -> & ->).
    destruct (hex_is_plain _ (hexdigest_hex secret body)) as [Hascii Hno].
    change ("sha256=" +:+ hmac_sha256_hexdigest secret body)
      with ("sha256" +:+ String "=" (hmac_sha256_hexdigest secret body)).
    rewrite (split_on_prefix "=" "sha256" _ eq_refl), (split_on_none _ _ Hno).
    cbv beta iota. rewrite String.eqb_refl. cbn [negb mbind option_bind].
    unfold compare_digest. rewrite Hascii, String.eqb_refl. reflexivity.
Qed.

End SignatureFacts.

Lemma example_digest_hex key msg :
  str_forall is_hex_char (example_digest key msg) = true.
Proof. unfold example_digest. destruct (String.eqb key "s3cret"); reflexivity. Qed.

Lemma verify_signature_accepts_witness :
  verify_signature example_digest (Some "s3cret") "{}" (Some "sha256=0a1b2c")
  = Some true.
Proof.
  apply (proj2 (verify_signature_accepts example_digest (Some "s3cret")
                  example_digest_hex "{}" (Some "sha256=0a1b2c"))).
  exists "s3cret". split; reflexivity.
Defined.


(** ** main.py: deploy *)

Section DeployFacts.
Variable formatTime : Z -> string -> string.
Variable clock : Z -> Z.
Variable traceback : exn -> string.
Variable hmac_sha256_hexdigest : string -> string -> string.
Variable path_div : string -> string -> string.
Variable path_exists : string -> bool.
Variable popen : string -> string -> option exn.
Variable telegram_post : string -> option exn.
Variable WEBHOOK_SECRET : option string.
Variable PROJECTS_ROOT : string.
Variable TG_TOKEN TG_CHAT_ID : option string.
Variable log : SafeLogger.
Variable loggers : gmap string Logger.
Variable anc : Ancestry.

Local Abbreviation deploy_try' :=
  (deploy_try formatTime clock hmac_sha256_hexdigest path_div path_exists
     popen telegram_post WEBHOOK_SECRET PROJECTS_ROOT TG_TOKEN TG_CHAT_ID
     log loggers anc).
Local Abbreviation deploy' :=
  (deploy formatTime clock traceback hmac_sha256_hexdigest path_div
     path_exists popen telegram_post WEBHOOK_SECRET PROJECTS_ROOT TG_TOKEN
     TG_CHAT_ID log loggers anc).
Local Abbreviation start_allowed' :=
  (start_allowed hmac_sha256_hexdigest path_div path_exists WEBHOOK_SECRET
     PROJECTS_ROOT).

(** Destructs what the next [match] of the goal looks at. *)
Ltac next_case :=
  match goal with
  | |- context [match ?x with _ => _ end] =>
      lazymatch x with
      | context [match _ with _ => _ end] => fail
      | _ => destruct x eqn:?
      end
  end.

(** Collects the conditions of [start_allowed] from the branches taken. *)
Ltac prove_start_allowed :=
  unfold start_allowed;
  match goal with
  | Hv : verify_signature _ _ _ _ = Some ?b, Hb : negb ?b = false,
    He : negb (eq_str (opt_str (req_event ?request)) "push") = false,
    Hj : req_json ?request = inr (VDict ?d),
    Href : negb (eq_str (default VNone (dict_get ?d "ref")) _) = false,
    Hr : dict_get ?d "repository" = Some (VDict ?rd),
    Hn : default VNone (dict_get ?rd "name") = VStr ?s,
    Ht : negb (truthy (VStr ?s)) = false,
    Hx : negb (path_exists _) = false |- _ =>
      destruct b; [|discriminate Hb];
      split; [exact Hv|];
      split;
      [ destruct (req_event request) as [ev|]; [|discriminate He];
        cbn in He; apply negb_false_iff, String.eqb_eq in He; rewrite He;
        reflexivity |];
      exists d, rd, s;
      split; [exact Hj|];
      split;
      [ destruct (dict_get d "ref") as [[]|]; try discriminate Href;
        cbn in Href; apply negb_false_iff, String.eqb_eq in Href;
        rewrite Href; reflexivity |];
      split; [exact Hr|];
      split;
      [ destruct (dict_get rd "name") as [nm|]; [|discriminate Hn];
        cbn in Hn; rewrite Hn; reflexivity |];
      split;
      [ cbn in Ht; apply negb_false_iff, negb_true_iff, String.eqb_neq in Ht;
        exact Ht |];
      split; [reflexivity|];
      split; [reflexivity|];
      apply negb_false_iff in Hx; exact Hx
  end.

(** The invariants that every step of the body of [deploy] keeps: a
    property of the state that does not depend on what the sinks hold,
    that survives a log record, a Telegram post and the start of the
    thread, a merge into the context of keys other than [service], and
    the start of a script that [start_allowed] admits. *)
Lemma deploy_try_invariant (Inv : St -> Prop) request :
  (forall c w evs w' ev,
     match ev with Popen _ _ => False | _ => True end ->
     Inv {| st_ctx := c; st_world := w; st_events := evs |} ->
     Inv {| st_ctx := c; st_world := w'; st_events := evs ++ [ev] |}) ->
  (forall c w evs kwargs,
     dict_get kwargs "service" = None ->
     Inv {| st_ctx := c; st_world := w; st_events := evs |} ->
     Inv {| st_ctx := set_context kwargs c; st_world := w; st_events := evs |}) ->
  (forall c w evs script cwd,
     start_allowed' request script cwd ->
     Inv {| st_ctx := c; st_world := w; st_events := evs |} ->
     Inv {| st_ctx := c; st_world := w;
            st_events := evs ++ [Popen script cwd] |}) ->
  forall st, Inv st -> Inv (snd (deploy_try' request st)).
Proof.
  intros Hev Hctx Hpopen [c w evs] HI.
  unfold deploy_try, send_tg, payload_ref, payload_repo, log_info,
    log_warning, log_error, log_call, in_context, emit, mbind, M_bind, bind,
    ret, raise.
  cbn [st_ctx st_world st_events fst snd].
  repeat (next_case; cbn [st_ctx st_world st_events fst snd negb] in *).
  all: repeat first [ exact HI
                    | eapply (Hev _ w); [exact I|]
                    | eapply Hctx; [reflexivity|]
                    | eapply Hpopen; [prove_start_allowed|] ].
Qed.
(** A call without [extra] cannot raise the [KeyError] of
    [makeRecord]. *)
Lemma log_without_extra sl lvl msg exc_info site c w :
  is_Some (SafeLogger_log formatTime sl lvl msg exc_info None anc loggers
             site c w).
Proof.
  unfold SafeLogger_log, Logger_log. cbn [_sanitize_extra makeRecord].
  destruct (isEnabledFor _ _ _); eexists; reflexivity.
Qed.

(** [deploy] as one case distinction on what the body of its [try]
    statement does. *)
Lemma deploy_cases request st :
  let st1 := {| st_ctx := set_context
                            [("service", VStr "deploy-service");
                             ("client_ip", opt_str (req_client_host request))]
                            (st_ctx st);
                st_world := st_world st; st_events := st_events st |} in
  let st2 := snd (deploy_try' request st1) in
  match fst (deploy_try' request st1) with
  | inl a =>
      deploy' request st
      = (inl a, {| st_ctx := clear_context (st_ctx st2);
                   st_world := st_world st2; st_events := st_events st2 |})
  | inr e =>
      if is_Exception e then
        exists w,
          deploy' request st
          = (inr e, {| st_ctx := clear_context (st_ctx st2);
                       st_world := w;
                       st_events :=
                         st_events st2
                         ++ [Log 40 "Ошибка обработки webhook"
                               (Some (traceback e)) None (st_ctx st2)] |})
      else
        deploy' request st
        = (inr e, {| st_ctx := clear_context (st_ctx st2);
                     st_world := st_world st2; st_events := st_events st2 |})
  end.
Proof.
  cbv zeta. unfold deploy, try_except_finally, in_context, mbind, M_bind, bind.
  destruct (deploy_try' request _) as [[a|e] st2]; cbn [fst snd].
  - reflexivity.
  - destruct (is_Exception e); [|reflexivity].
    unfold log_exception, log_call, raise, exception.
    destruct (log_without_extra log 40 "Ошибка обработки webhook"
                (Some (traceback e))
                {| cs_module := "logger"; cs_funcName := "exception";
                   cs_lineno := 53; cs_created := clock 178 |}
                (st_ctx st2) (st_world st2)) as [w' ->].
    exists w'. reflexivity.
Qed.

(** A property of the events that no event other than the start of a
    script can break, and that survives the start of a script under
    [start_allowed], holds after [deploy] when it held before. *)
Lemma deploy_events_invariant (E : list Event -> Prop) request :
  (forall evs ev,
     match ev with Popen _ _ => False | _ => True end ->
     E evs -> E (evs ++ [ev])) ->
  (forall evs script cwd,
     start_allowed' request script cwd ->
     E evs -> E (evs ++ [Popen script cwd])) ->
  forall st, E (st_events st) -> E (st_events (snd (deploy' request st))).
Proof.
  intros Hev Hpopen st HE.
  pose proof (deploy_cases request st) as Hc. cbv zeta in Hc.
  set (st1 := {| st_ctx := _; st_world := st_world st;
                 st_events := st_events st |}) in Hc.
  assert (H2 : E (st_events (snd (deploy_try' request st1)))).
  { apply (deploy_try_invariant (fun s => E (st_events s))); cbn; auto. }
  destruct (fst (deploy_try' request st1)) as [a|e].
  - rewrite Hc. exact H2.
  - destruct (is_Exception e).
    + destruct Hc as [w ->]. cbn [snd st_events].
      apply Hev; [exact I|exact H2].
    + rewrite Hc. exact H2.
Qed.
(** [deploy] starts a script only when it is allowed to: a script that was
    started during the call belongs to a request with a valid signature
    for a push to the main branch of a named repository, it is the
    [deploy.sh] of that repository under the projects root, and it
    exists. *)
Lemma deploy_starts_only_gated request st script cwd :
  Popen script cwd
    ∈ st_events
        (snd (deploy formatTime clock traceback hmac_sha256_hexdigest path_div
          path_exists popen telegram_post WEBHOOK_SECRET PROJECTS_ROOT
          TG_TOKEN TG_CHAT_ID log loggers anc request st)) ->
  Popen script cwd ∈ st_events st
  \/ start_allowed hmac_sha256_hexdigest path_div path_exists WEBHOOK_SECRET
       PROJECTS_ROOT request script cwd.
Proof.
  revert script cwd.
  apply (deploy_events_invariant
           (fun evs => forall script cwd, Popen script cwd ∈ evs ->
              Popen script cwd ∈ st_events st
              \/ start_allowed' request script cwd)).
  - intros evs ev Hev HE script cwd [Hin|Hin]%elem_of_app; [auto|].
    apply list_elem_of_singleton in Hin. subst ev. destruct Hev.
  - intros evs s c Hgate HE script cwd [Hin|Hin]%elem_of_app; [auto|].
    apply list_elem_of_singleton in Hin. injection Hin as -> ->.
    right. exact Hgate.
  - auto.
Qed.

(** However [deploy] ends, by a response or by an exception of any
    kind, it leaves the log context of its task empty and the streaming
    flag as it found it. *)
Lemma deploy_clears_context request st :
  st_ctx (snd (deploy formatTime clock traceback hmac_sha256_hexdigest path_div
          path_exists popen telegram_post WEBHOOK_SECRET PROJECTS_ROOT
          TG_TOKEN TG_CHAT_ID log loggers anc request st))
  = clear_context (st_ctx st).
Proof.
  pose proof (deploy_cases request st) as Hc. cbv zeta in Hc.
  set (st1 := {| st_ctx := _; st_world := st_world st;
                 st_events := st_events st |}) in Hc.
  assert (H2 : _streaming (st_ctx (snd (deploy_try' request st1)))
               = _streaming (st_ctx st)).
  { apply (deploy_try_invariant
             (fun s => _streaming (st_ctx s) = _streaming (st_ctx st)));
      cbn; auto. }
  destruct (fst (deploy_try' request st1)) as [a|e].
  - rewrite Hc. cbn [snd st_ctx]. unfold clear_context. rewrite H2.
    reflexivity.
  - destruct (is_Exception e); [destruct Hc as [w Hc]|]; rewrite Hc;
      cbn [snd st_ctx]; unfold clear_context; rewrite H2; reflexivity.
Qed.


(** A request whose signature does not verify is answered with 403
    and starts nothing: the call logs a warning, notifies Telegram (or
    warns that Telegram is off), and then, because the handler for any
    exception also catches the [HTTPException], logs the rejection once
    more as an error with a traceback. *)
Lemma deploy_rejects_invalid_signature request st :
  verify_signature hmac_sha256_hexdigest WEBHOOK_SECRET
    (req_body request) (req_signature request) = Some false ->
  unset TG_TOKEN || unset TG_CHAT_ID = true
  \/ telegram_post "❌ DeployService: неверная подпись webhook" = None ->
  let c := set_context [("service", VStr "deploy-service");
                        ("client_ip", opt_str (req_client_host request))]
             (st_ctx st) in
  fst (deploy formatTime clock traceback hmac_sha256_hexdigest path_div
          path_exists popen telegram_post WEBHOOK_SECRET PROJECTS_ROOT
          TG_TOKEN TG_CHAT_ID log loggers anc request st) = inr (HTTPException 403)
  /\ st_events (snd (deploy formatTime clock traceback hmac_sha256_hexdigest path_div
          path_exists popen telegram_post WEBHOOK_SECRET PROJECTS_ROOT
          TG_TOKEN TG_CHAT_ID log loggers anc request st))
     = st_events st
       ++ [ Log 30 "Неверная подпись webhook" None None c;
            (if unset TG_TOKEN || unset TG_CHAT_ID
             then Log 30 "Telegram отключён (нет токена)" None None c
             else TelegramPost "❌ DeployService: неверная подпись webhook");
            Log 40 "Ошибка обработки webhook"
              (Some (traceback (HTTPException 403))) None c ].
Proof.
  intros Hv Htg c.
  pose proof (deploy_cases request st) as Hc. cbv zeta in Hc. fold c in Hc.
  set (st1 := {| st_ctx := c; st_world := st_world st;
                 st_events := st_events st |}) in Hc.
  assert (Htry : exists w,
            deploy_try' request st1
            = (inr (HTTPException 403),
               {| st_ctx := c; st_world := w;
                  st_events :=
                    (st_events st
                     ++ [Log 30 "Неверная подпись webhook" None None c])
                    ++ [if unset TG_TOKEN || unset TG_CHAT_ID
                        then Log 30 "Telegram отключён (нет токена)" None None c
                        else TelegramPost
                               "❌ DeployService: неверная подпись webhook"] |})).
  { unfold deploy_try, send_tg, log_warning, log_call, emit, mbind, M_bind,
      bind, ret, raise, warning. rewrite Hv. cbn [negb st_ctx st_world st1].
    destruct (log_without_extra log 30 "Неверная подпись webhook" None
                {| cs_module := "logger"; cs_funcName := "warning";
                   cs_lineno := 44; cs_created := clock 94 |}
                c (st_world st)) as [w1 ->].
    cbn [st_ctx st_world st_events].
    destruct (unset TG_TOKEN || unset TG_CHAT_ID); cbv beta iota;
      cbn [st_ctx st_world st_events].
    - destruct (log_without_extra log 30 "Telegram отключён (нет токена)" None
                  {| cs_module := "logger"; cs_funcName := "warning";
                     cs_lineno := 44; cs_created := clock 31 |}
                  c w1) as [w2 ->].
      exists w2. reflexivity.
    - destruct Htg as [Htg| ->]; [discriminate|]. exists w1. reflexivity. }
  destruct Htry as [w Htry]. rewrite Htry in Hc.
  cbn [fst snd is_Exception] in Hc.
  destruct Hc as [w' ->]. cbn [fst snd st_events st_ctx].
  split; [reflexivity|]. rewrite <- !app_assoc. reflexivity.
Qed.
(** A call whose only extra field is [deploy_path] cannot raise the
    [KeyError] of [makeRecord], with or without sanitization. *)
Lemma log_deploy_path sl lvl msg exc_info v site c w :
  is_Some (SafeLogger_log formatTime sl lvl msg exc_info
             (Some [("deploy_path", v)]) anc loggers site c w).
Proof.
  unfold SafeLogger_log, Logger_log.
  destruct (isEnabledFor _ _ _); [|eexists; reflexivity].
  destruct (_sanitize_extra_enabled sl); eexists; reflexivity.
Qed.

(** When the conditions hold and the process can be created, [deploy]
    starts the script, starts the thread that follows its output, and
    answers that the deploy has started, naming the repository. *)
Lemma deploy_starts_when_allowed request st script cwd :
  start_allowed hmac_sha256_hexdigest path_div path_exists WEBHOOK_SECRET
    PROJECTS_ROOT request script cwd ->
  popen script cwd = None ->
  exists repo_name evs c,
    cwd = path_div PROJECTS_ROOT repo_name
    /\ fst (deploy formatTime clock traceback hmac_sha256_hexdigest path_div
              path_exists popen telegram_post WEBHOOK_SECRET PROJECTS_ROOT
              TG_TOKEN TG_CHAT_ID log loggers anc request st)
       = inl [("status", VStr "deploy started"); ("repo", VStr repo_name)]
    /\ st_events
         (snd (deploy formatTime clock traceback hmac_sha256_hexdigest
                 path_div path_exists popen telegram_post WEBHOOK_SECRET
                 PROJECTS_ROOT TG_TOKEN TG_CHAT_ID log loggers anc request st))
       = evs ++ [Popen script cwd; ThreadStart;
                 Log 20 "Deploy успешно запущен" None None c].
Proof.
  intros (Hv & Hev & payload & repository & repo_name & Hj & Href & Hrepo
          & Hname & Hne & -> & -> & Hex) Hpopen.
  exists repo_name.
  pose proof (deploy_cases request st) as Hc. cbv zeta in Hc.
  set (st1 := {| st_ctx := _; st_world := st_world st;
                 st_events := st_events st |}) in Hc.
  assert (Htry : exists evs c w,
            deploy_try' request st1
            = (inl [("status", VStr "deploy started"); ("repo", VStr repo_name)],
               {| st_ctx := c; st_world := w;
                  st_events :=
                    evs ++ [Popen (path_div (path_div PROJECTS_ROOT repo_name)
                                     "deploy.sh")
                              (path_div PROJECTS_ROOT repo_name);
                            ThreadStart;
                            Log 20 "Deploy успешно запущен" None None c] |})).
  { assert (Ht : String.eqb repo_name "" = false) by (apply String.eqb_neq, Hne).
    destruct st1 as [c1 w1 evs1].
    unfold deploy_try, payload_ref, payload_repo, log_info, log_call,
      in_context, emit, mbind, M_bind, bind, ret, raise, info.
    rewrite Hv, Hev, Hj. cbn [negb opt_str eq_str st_ctx st_world st_events].
    rewrite Href, Hrepo, Hname.
    cbn [negb eq_str truthy default from_option id st_ctx st_world st_events
         String.eqb Ascii.eqb Bool.eqb].
    rewrite ?String.eqb_refl, ?Ht, ?Hex, ?Hpopen.
    cbn [negb st_ctx st_world st_events].
    repeat (next_case; cbn [st_ctx st_world st_events fst snd negb] in * ).
    all: try match goal with
             | H : SafeLogger_log _ ?sl ?lvl ?msg ?ei None _ _ ?site ?c ?w
                   = None |- _ =>
                 destruct (log_without_extra sl lvl msg ei site c w) as [? Hs];
                 congruence
             | H : SafeLogger_log _ ?sl ?lvl ?msg ?ei
                     (Some [("deploy_path", ?v)]) _ _ ?site ?c ?w = None |- _ =>
                 destruct (log_deploy_path sl lvl msg ei v site c w) as [? Hs];
                 congruence
             end.
    match goal with
    | |- exists evs c w,
           (_, {| st_ctx := ?c0; st_world := ?w0;
                  st_events := ((?X ++ [_]) ++ [_]) ++ [_] |}) = _ =>
        exists X, c0, w0
    end.
    rewrite <- !app_assoc. reflexivity. }
  destruct Htry as (evs & c & w & Htry). rewrite Htry in Hc. cbn [fst snd] in Hc.
  rewrite Hc. cbn [fst snd st_events]. exists evs, c. auto.
Qed.
End DeployFacts.

Lemma deploy_starts_only_gated_witness :
  Popen "/var/www/shop/deploy.sh" "/var/www/shop" ∈ st_events example_st
  \/ start_allowed example_digest example_path_div (fun _ => true)
       (Some "s3cret") "/var/www" example_push
       "/var/www/shop/deploy.sh" "/var/www/shop".
Proof.
  apply (deploy_starts_only_gated fixed_time (fun line => line)
           example_traceback example_digest example_path_div (fun _ => true)
           (fun _ _ => None) (fun _ => None) (Some "s3cret") "/var/www"
           None None {| _logger := "app"; _sanitize_extra_enabled := true |}
           ∅ root_only example_push example_st).
  vm_compute. do 3 right. left.
Defined.


Lemma deploy_rejects_invalid_signature_witness :
  fst (example_deploy
         {| req_client_host := None; req_signature := Some "sha256=bad";
            req_event := Some "push"; req_body := "{}";
            req_json := inl (Error "JSONDecodeError") |}
         example_st)
  = inr (HTTPException 403).
Proof.
  exact (proj1 (deploy_rejects_invalid_signature fixed_time (fun line => line)
           example_traceback example_digest example_path_div (fun _ => true)
           (fun _ _ => None) (fun _ => None) (Some "s3cret") "/var/www"
           None None {| _logger := "app"; _sanitize_extra_enabled := true |}
           ∅ root_only
           {| req_client_host := None; req_signature := Some "sha256=bad";
              req_event := Some "push"; req_body := "{}";
              req_json := inl (Error "JSONDecodeError") |}
           example_st eq_refl (or_introl eq_refl))).
Defined.

(** ** handlers.py: the sinks together *)







Lemma example_push_allowed :
  start_allowed example_digest example_path_div (fun _ => true)
    (Some "s3cret") "/var/www" example_push
    "/var/www/shop/deploy.sh" "/var/www/shop".
Proof.
  split; [reflexivity|]. split; [reflexivity|].
  exists [("ref", VStr "refs/heads/main");
          ("repository", VDict [("name", VStr "shop")])],
    [("name", VStr "shop")], "shop".
  repeat split. discriminate.
Qed.

Lemma deploy_starts_when_allowed_witness :
  exists repo_name evs c,
    "/var/www/shop" = example_path_div "/var/www" repo_name
    /\ fst (example_deploy example_push example_st)
       = inl [("status", VStr "deploy started"); ("repo", VStr repo_name)]
    /\ st_events (snd (example_deploy example_push example_st))
       = evs ++ [Popen "/var/www/shop/deploy.sh" "/var/www/shop"; ThreadStart;
                 Log 20 "Deploy успешно запущен" None None c].
Proof.
  exact (deploy_starts_when_allowed fixed_time (fun line => line)
           example_traceback example_digest example_path_div (fun _ => true)
           (fun _ _ => None) (fun _ => None) (Some "s3cret") "/var/www"
           None None {| _logger := "app"; _sanitize_extra_enabled := true |}
           ∅ root_only example_push example_st
           "/var/www/shop/deploy.sh" "/var/www/shop"
           example_push_allowed eq_refl).
Defined.
